(** * A ride-sharing simulation: containers, actors, dispatcher and events

    Shallow embedding of the Python modules [location], [rider], [driver],
    [container], [monitor], [dispatcher] and [event].

    Python objects that are mutated and shared (drivers, riders, the
    dispatcher and the monitor) live in an explicit store; queues and events
    hold references into it.  Python exceptions are outcomes of a state and
    error monad in which a raised exception keeps the mutations made before
    it.  Floating-point subexpressions are evaluated in IEEE binary64 with
    the operations of [SpecFloat]. *)

From Stdlib Require Import ZArith Lia List Permutation Sorted.
From Stdlib Require Import Floats.SpecFloat.
From stdpp Require Import gmap strings list fin_maps.

Open Scope Z_scope.

(** ** Python exceptions and outcomes *)

(** The exception classes the modelled code can raise.  [EmptyContainer] is
    the error class named by the specification; no statement of the source
    raises it. *)
Inductive exn :=
  | AssertionError
  | ValueError
  | OverflowError
  | ZeroDivisionError
  | AttributeError
  | TypeError
  | EmptyContainer.

Inductive outcome (A : Type) :=
  | Ret (a : A)
  | Raise (e : exn).
Arguments Ret {A} a.
Arguments Raise {A} e.

Definition is_Ret {A} (o : outcome A) : bool :=
  match o with Ret _ => true | Raise _ => false end.

Definition obind {A B} (o : outcome A) (k : A -> outcome B) : outcome B :=
  match o with
  | Ret a => k a
  | Raise e => Raise e
  end.

(** ** IEEE binary64 as used by CPython floats *)

Definition prec64 : Z := 53.
Definition emax64 : Z := 1024.

(** [float(n)] for an int [n]: round to nearest even, [OverflowError] when
    the result does not fit ("int too large to convert to float"). *)
Definition float_of_int (n : Z) : outcome spec_float :=
  match binary_normalize prec64 emax64 n 0 false with
  | S754_infinity _ => Raise OverflowError
  | f => Ret f
  end.

(** [x ** 0.5] on a float.  CPython calls the C library's [pow(x, 0.5)],
    which is not specified to be correctly rounded; the model takes the
    correctly rounded square root.  The two agree where the root is itself a
    binary64 number (a [pow] whose error is below one unit in the last place
    returns such a root exactly), as for the squares of the integers below
    2^26; elsewhere they can differ in the last bit.  The results on
    distances and travel times outside that range either use only that a
    root is not negative and depends on nothing but its argument, or come
    with a variant that holds however [pow] rounds. *)
Definition float_pow_half (x : spec_float) : spec_float :=
  SFsqrt prec64 emax64 x.

Definition float_add (x y : spec_float) : spec_float :=
  SFadd prec64 emax64 x y.

(** [n ** 0.5] for an int [n]: the int is converted to a float first. *)
Definition int_pow_half (n : Z) : outcome spec_float :=
  obind (float_of_int n) (fun f => Ret (float_pow_half f)).

(** [int(x)]: truncation towards zero. *)
Definition int_of_float (x : spec_float) : outcome Z :=
  match x with
  | S754_zero _ => Ret 0
  | S754_infinity _ => Raise OverflowError
  | S754_nan => Raise ValueError
  | S754_finite s m e =>
      let a := if 0 <=? e then Z.pos m * 2 ^ e else Z.pos m / 2 ^ (- e) in
      Ret (if s then - a else a)
  end.

(** [round(x)] with one argument: nearest integer, halves to even. *)
Definition py_round (x : spec_float) : outcome Z :=
  match x with
  | S754_zero _ => Ret 0
  | S754_infinity _ => Raise OverflowError
  | S754_nan => Raise ValueError
  | S754_finite s m e =>
      let a :=
        if 0 <=? e then Z.pos m * 2 ^ e
        else
          let d := 2 ^ (- e) in
          let q := Z.pos m / d in
          let r := Z.pos m mod d in
          match 2 * r ?= d with
          | Lt => q
          | Eq => if Z.even q then q else q + 1
          | Gt => q + 1
          end in
      Ret (if s then - a else a)
  end.

(** [a / b] on ints: the correctly rounded quotient; [ZeroDivisionError] for
    a zero divisor, [OverflowError] when the quotient is too large. *)
Definition int_true_divide (a b : Z) : outcome spec_float :=
  if b =? 0 then Raise ZeroDivisionError
  else if a =? 0 then Ret (S754_zero (b <? 0))
  else
    let s := xorb (a <? 0) (b <? 0) in
    let '(mz, ez, lz) :=
      SFdiv_core_binary prec64 emax64 (Z.abs a) 0 (Z.abs b) 0 in
    match binary_round_aux prec64 emax64 s mz ez lz with
    | S754_infinity _ => Raise OverflowError
    | f => Ret f
    end.

(** ** location.py *)

Record Location := mkLocation { row : Z; column : Z }.

#[global] Instance Location_eq_dec : EqDecision Location.
Proof. solve_decision. Defined.

(** [Location.__eq__] *)
Definition Location_eq (a b : Location) : bool :=
  (row a =? row b) && (column a =? column b).

Definition manhattan_distance (origin destination : Location) : outcome Z :=
  obind (int_pow_half ((row destination - row origin) ^ 2)) (fun dr =>
  obind (int_pow_half ((column destination - column origin) ^ 2)) (fun dc =>
  int_of_float (float_add dr dc))).

(** ** rider.py *)

Inductive status := WAITING | CANCELLED | SATISFIED.

#[global] Instance status_eq_dec : EqDecision status.
Proof. solve_decision. Defined.

Record Rider := mkRider {
  rd_identifier : string;
  rd_origin : Location;
  rd_destination : Location;
  rd_patience : Z;
  rd_status : status
}.

#[global] Instance Rider_inhabited : Inhabited Rider :=
  populate (mkRider EmptyString (mkLocation 0 0) (mkLocation 0 0) 0 WAITING).

(** [Rider.__init__] *)
Definition new_Rider (identifier : string) (origin destination : Location)
    (patience : Z) : Rider :=
  mkRider identifier origin destination patience WAITING.

Definition set_status (s : status) (r : Rider) : Rider :=
  mkRider (rd_identifier r) (rd_origin r) (rd_destination r) (rd_patience r) s.

(** ** driver.py *)

(** [location] and [destination] hold a [Location] or Python's [None]. *)
Record Driver := mkDriver {
  dr_identifier : string;
  dr_location : option Location;
  dr_speed : Z;
  is_idle : bool;
  dr_destination : option Location
}.

#[global] Instance Driver_inhabited : Inhabited Driver :=
  populate (mkDriver EmptyString None 1 true None).

(** [Driver.__init__] *)
Definition new_Driver (identifier : string) (loc : Location) (speed : Z)
    : Driver :=
  mkDriver identifier (Some loc) speed true None.

Definition opt_Location_eq (a b : option Location) : bool :=
  match a, b with
  | Some x, Some y => Location_eq x y
  | None, None => true
  | _, _ => false
  end.

(** [Driver.__eq__]: the destination is not compared. *)
Definition Driver_eq (a b : Driver) : bool :=
  String.eqb (dr_identifier a) (dr_identifier b)
  && opt_Location_eq (dr_location a) (dr_location b)
  && (dr_speed a =? dr_speed b)
  && Bool.eqb (is_idle a) (is_idle b).

(** [Driver.get_travel_time]; reading [row] of [None] is an
    [AttributeError]. *)
Definition get_travel_time (d : Driver) (destination : option Location)
    : outcome Z :=
  match dr_location d, destination with
  | Some l, Some dest =>
      obind (manhattan_distance l dest) (fun dist =>
      obind (int_true_divide dist (dr_speed d)) py_round)
  | _, _ => Raise AttributeError
  end.


(** ** container.py *)

(** A [Queue] is its [_items] list, front first. *)
Module Queue.
Section Queue.
Context {A : Type}.

Definition add (item : A) (items : list A) : list A := items ++ [item].

Definition is_empty (items : list A) : bool :=
  Nat.eqb (List.length items) 0.

Definition length (items : list A) : Z := Z.of_nat (List.length items).

(** The [assert] fails on an empty queue. *)
Definition first (items : list A) : outcome A :=
  if is_empty items then Raise AssertionError
  else match items with
       | x :: _ => Ret x
       | [] => Raise AssertionError
       end.

(** [remove] returns the popped item and the remaining items. *)
Definition remove (items : list A) : outcome (A * list A) :=
  if is_empty items then Raise AssertionError
  else match items with
       | x :: rest => Ret (x, rest)
       | [] => Raise AssertionError
       end.

(** [list.remove]: drop the first element equal to [item]. *)
Fixpoint list_remove (eqb : A -> A -> bool) (item : A) (items : list A)
    : outcome (list A) :=
  match items with
  | [] => Raise ValueError
  | x :: rest =>
      if eqb x item then Ret rest
      else obind (list_remove eqb item rest) (fun r => Ret (x :: r))
  end.

Definition spcl_remove (eqb : A -> A -> bool) (item : A) (items : list A)
    : outcome (list A) :=
  list_remove eqb item items.
End Queue.
End Queue.

(** A [PriorityQueue] is its [_items] list; [le] is the items' [__le__]. *)
Module PriorityQueue.
Section PriorityQueue.
Context {A : Type}.
Variable le : A -> A -> bool.

Definition is_empty (items : list A) : bool :=
  Nat.eqb (List.length items) 0.

Definition remove (items : list A) : outcome (A * list A) :=
  if is_empty items then Raise AssertionError
  else match items with
       | x :: rest => Ret (x, rest)
       | [] => Raise AssertionError
       end.

(** The index the [while] loop of [add] stops at. *)
Fixpoint add_index (item : A) (items : list A) : nat :=
  match items with
  | [] => 0%nat
  | x :: rest => if le x item then S (add_index item rest) else 0%nat
  end.

(** [list.insert(i, item)] for [i] up to the length. *)
Definition list_insert_at (i : nat) (item : A) (items : list A) : list A :=
  take i items ++ item :: drop i items.

Definition add (item : A) (items : list A) : list A :=
  list_insert_at (add_index item items) item items.
End PriorityQueue.
End PriorityQueue.

(** ** monitor.py *)

Inductive category := RIDER | DRIVER.
Inductive description := REQUEST | CANCEL | PICKUP | DROPOFF.

Record Activity := mkActivity {
  act_description : description;
  act_time : Z;
  act_id : string;
  act_location : option Location
}.

(** [_activities]: one dictionary from identifier to activity list per
    category. *)
Record Monitor := mkMonitor {
  rider_activities : gmap string (list Activity);
  driver_activities : gmap string (list Activity)
}.

Definition new_Monitor : Monitor := mkMonitor ∅ ∅.

Definition record_activity (a : Activity)
    (m : gmap string (list Activity)) : gmap string (list Activity) :=
  <[act_id a := default [] (m !! act_id a) ++ [a]]> m.

Definition Monitor_notify (timestamp : Z) (c : category) (d : description)
    (identifier : string) (loc : option Location) (m : Monitor) : Monitor :=
  let a := mkActivity d timestamp identifier loc in
  match c with
  | RIDER => mkMonitor (record_activity a (rider_activities m))
                       (driver_activities m)
  | DRIVER => mkMonitor (rider_activities m)
                        (record_activity a (driver_activities m))
  end.

(** ** The store and the monad of the simulation *)

(** Drivers and riders are referred to by address; the store maps addresses
    to the objects' current fields. *)
Record Dispatcher := mkDispatcher {
  avail_dr : list nat;
  wait_rd : list nat
}.

Definition new_Dispatcher : Dispatcher := mkDispatcher [] [].

Record World := mkWorld {
  drivers : gmap nat Driver;
  riders : gmap nat Rider;
  dispatcher : Dispatcher;
  monitor : Monitor
}.

Definition M (A : Type) : Type := World -> outcome A * World.

Definition ret {A} (a : A) : M A := fun w => (Ret a, w).
Definition raise {A} (e : exn) : M A := fun w => (Raise e, w).
Definition lift {A} (o : outcome A) : M A := fun w => (o, w).
Definition bind {A B} (m : M A) (k : A -> M B) : M B :=
  fun w =>
    match m w with
    | (Ret a, w') => k a w'
    | (Raise e, w') => (Raise e, w')
    end.

Notation "'let*' x ':=' m 'in' k" := (bind m (fun x => k))
  (at level 10, x pattern, m at level 100, k at level 200).

Definition get_driver (d : nat) : M Driver :=
  fun w => (Ret (drivers w !!! d), w).
Definition get_rider (r : nat) : M Rider :=
  fun w => (Ret (riders w !!! r), w).
Definition get_dispatcher : M Dispatcher :=
  fun w => (Ret (dispatcher w), w).

Definition set_drivers (ds : gmap nat Driver) (w : World) : World :=
  mkWorld ds (riders w) (dispatcher w) (monitor w).
Definition set_riders (rs : gmap nat Rider) (w : World) : World :=
  mkWorld (drivers w) rs (dispatcher w) (monitor w).
Definition set_avail_dr (q : list nat) (w : World) : World :=
  mkWorld (drivers w) (riders w) (mkDispatcher q (wait_rd (dispatcher w)))
          (monitor w).
Definition set_wait_rd (q : list nat) (w : World) : World :=
  mkWorld (drivers w) (riders w) (mkDispatcher (avail_dr (dispatcher w)) q)
          (monitor w).
Definition set_monitor (m : Monitor) (w : World) : World :=
  mkWorld (drivers w) (riders w) (dispatcher w) m.

Definition put_driver (d : nat) (x : Driver) : M unit :=
  fun w => (Ret tt, set_drivers (<[d := x]> (drivers w)) w).
Definition put_rider (r : nat) (x : Rider) : M unit :=
  fun w => (Ret tt, set_riders (<[r := x]> (riders w)) w).
Definition put_avail_dr (q : list nat) : M unit :=
  fun w => (Ret tt, set_avail_dr q w).
Definition put_wait_rd (q : list nat) : M unit :=
  fun w => (Ret tt, set_wait_rd q w).

Definition notify (timestamp : Z) (c : category) (d : description)
    (identifier : string) (loc : option Location) : M unit :=
  fun w => (Ret tt,
            set_monitor
              (Monitor_notify timestamp c d identifier loc (monitor w)) w).

(** ** driver.py: the methods that mutate *)

Definition set_is_idle (b : bool) (d : Driver) : Driver :=
  mkDriver (dr_identifier d) (dr_location d) (dr_speed d) b
           (dr_destination d).
Definition set_location (l : option Location) (d : Driver) : Driver :=
  mkDriver (dr_identifier d) l (dr_speed d) (is_idle d) (dr_destination d).
Definition set_destination (l : option Location) (d : Driver) : Driver :=
  mkDriver (dr_identifier d) (dr_location d) (dr_speed d) (is_idle d) l.

Definition start_drive (self : nat) (loc : Location) : M Z :=
  let* d := get_driver self in
  let* _ := put_driver self (set_is_idle false d) in
  let* d := get_driver self in
  let* _ := put_driver self (set_destination (Some loc) d) in
  let* d := get_driver self in
  lift (get_travel_time d (Some loc)).

Definition end_drive (self : nat) : M unit :=
  let* d := get_driver self in
  let* _ := put_driver self (set_is_idle true d) in
  let* d := get_driver self in
  let* _ := put_driver self (set_location (dr_destination d) d) in
  let* d := get_driver self in
  put_driver self (set_destination None d).

Definition start_ride (self : nat) (rider : nat) : M Z :=
  let* r := get_rider rider in
  let* d := get_driver self in
  let* _ := put_driver self (set_destination (Some (rd_destination r)) d) in
  let* r := get_rider rider in
  let* _ := put_rider rider (set_status SATISFIED r) in
  let* r := get_rider rider in
  let* d := get_driver self in
  lift (get_travel_time d (Some (rd_destination r))).

Definition end_ride (self : nat) : M unit :=
  let* d := get_driver self in
  let* _ := put_driver self (set_is_idle true d) in
  let* d := get_driver self in
  let* _ := put_driver self (set_location (dr_destination d) d) in
  let* d := get_driver self in
  put_driver self (set_destination None d).

(** ** dispatcher.py *)

(** [==] on two driver references as [list.remove] applies it: the same
    object, or equal by [Driver.__eq__]. *)
Definition driver_ref_eq (w : World) (a b : nat) : bool :=
  Nat.eqb a b || Driver_eq (drivers w !!! a) (drivers w !!! b).

(** [Rider.__eq__] *)
Definition Rider_eq (a b : Rider) : bool :=
  String.eqb (rd_identifier a) (rd_identifier b)
  && Location_eq (rd_origin a) (rd_origin b)
  && Location_eq (rd_destination a) (rd_destination b)
  && (rd_patience a =? rd_patience b)
  && bool_decide (rd_status a = rd_status b).

Definition rider_ref_eq (w : World) (a b : nat) : bool :=
  Nat.eqb a b || Rider_eq (riders w !!! a) (riders w !!! b).

(** The [for] loop of [request_driver] over the idle drivers. *)
Fixpoint request_driver_loop (origin : Location) (ds : list nat)
    (fastest_dr : nat) (shortest_time : Z) : M (nat * Z) :=
  match ds with
  | [] => ret (fastest_dr, shortest_time)
  | driver :: rest =>
      let* d := get_driver driver in
      let* t := lift (get_travel_time d (Some origin)) in
      if t <? shortest_time then
        let* d := get_driver driver in
        let* t' := lift (get_travel_time d (Some origin)) in
        request_driver_loop origin rest driver t'
      else request_driver_loop origin rest fastest_dr shortest_time
  end.

Definition request_driver (rider : nat) : M (option nat) :=
  let* dis := get_dispatcher in
  if Queue.is_empty (avail_dr dis) then
    let* _ := put_wait_rd (Queue.add rider (wait_rd dis)) in
    ret None
  else if Queue.length (avail_dr dis) =? 1 then
    let* (d, rest) := lift (Queue.remove (avail_dr dis)) in
    let* _ := put_avail_dr rest in
    ret (Some d)
  else
    let* fastest_dr := lift (Queue.first (avail_dr dis)) in
    let* r := get_rider rider in
    let* d := get_driver fastest_dr in
    let* shortest_time := lift (get_travel_time d (Some (rd_origin r))) in
    let* (fastest_dr, _) :=
      request_driver_loop (rd_origin r) (avail_dr dis) fastest_dr
                          shortest_time in
    let* rest :=
      (fun w => lift (Queue.spcl_remove (driver_ref_eq w) fastest_dr
                                        (avail_dr (dispatcher w))) w) in
    let* _ := put_avail_dr rest in
    ret (Some fastest_dr).

Definition request_rider (driver : nat) : M (option nat) :=
  let* dis := get_dispatcher in
  if Queue.is_empty (wait_rd dis) then
    let* _ := put_avail_dr (Queue.add driver (avail_dr dis)) in
    ret None
  else
    let* (r, rest) := lift (Queue.remove (wait_rd dis)) in
    let* _ := put_wait_rd rest in
    ret (Some r).

Definition cancel_ride (rider : nat) : M unit :=
  let* rest :=
    (fun w => lift (Queue.spcl_remove (rider_ref_eq w) rider
                                      (wait_rd (dispatcher w))) w) in
  put_wait_rd rest.

(** ** event.py *)

Inductive Event :=
  | RiderRequest (timestamp : Z) (rider : nat)
  | DriverRequest (timestamp : Z) (driver : nat)
  | Cancellation (timestamp : Z) (rider : nat)
  | Pickup (timestamp : Z) (rider driver : nat)
  | Dropoff (timestamp : Z) (rider driver : nat).

#[global] Instance Event_eq_dec : EqDecision Event.
Proof. solve_decision. Defined.

Definition timestamp (e : Event) : Z :=
  match e with
  | RiderRequest t _ | DriverRequest t _ | Cancellation t _
  | Pickup t _ _ | Dropoff t _ _ => t
  end.

(** [Event.__le__] *)
Definition Event_le (a b : Event) : bool := timestamp a <=? timestamp b.

(** The value a [do] method returns is a list of events or Python's [None];
    [None] is the result of a body that ends without a [return]. *)
Definition RiderRequest_do (t : Z) (rider : nat) : M (option (list Event)) :=
  let* r := get_rider rider in
  let* _ := notify t RIDER REQUEST (rd_identifier r) (Some (rd_origin r)) in
  let events := [] in
  let* driver := request_driver rider in
  let* events :=
    match driver with
    | Some d =>
        let* r := get_rider rider in
        let* travel_time := start_drive d (rd_origin r) in
        ret (events ++ [Pickup (t + travel_time) rider d])
    | None => ret events
    end in
  let* r := get_rider rider in
  ret (Some (events ++ [Cancellation (t + rd_patience r) rider])).

Definition DriverRequest_do (t : Z) (driver : nat) : M (option (list Event)) :=
  let events := [] in
  let* d := get_driver driver in
  let* _ := notify t DRIVER REQUEST (dr_identifier d) (dr_location d) in
  let* rider := request_rider driver in
  match rider with
  | Some r =>
      let* x := get_rider r in
      let* travel_time := start_drive driver (rd_origin x) in
      ret (Some (events ++ [Pickup (t + travel_time) r driver]))
  | None => ret (Some events)
  end.

Definition Cancellation_do (t : Z) (rider : nat) : M (option (list Event)) :=
  let* r := get_rider rider in
  let* _ := notify t RIDER CANCEL (rd_identifier r) (Some (rd_origin r)) in
  let* r := get_rider rider in
  if bool_decide (rd_status r = WAITING) then
    let* _ := put_rider rider (set_status CANCELLED r) in
    ret None
  else ret None.

Definition Pickup_do (t : Z) (rider driver : nat) : M (option (list Event)) :=
  let events := [] in
  let* d := get_driver driver in
  let* _ := notify t DRIVER PICKUP (dr_identifier d) (dr_destination d) in
  let* r := get_rider rider in
  let* _ := notify t RIDER PICKUP (rd_identifier r) (Some (rd_origin r)) in
  let* _ := end_drive driver in
  let* r := get_rider rider in
  if bool_decide (rd_status r = WAITING) then
    let* travel_time := start_ride driver rider in
    ret (Some (events ++ [Dropoff (t + travel_time) rider driver]))
  else if bool_decide (rd_status r = CANCELLED) then
    ret (Some (events ++ [DriverRequest t driver]))
  else ret (Some events).

Definition Dropoff_do (t : Z) (rider driver : nat) : M (option (list Event)) :=
  let events := [] in
  let* d := get_driver driver in
  let* _ := notify t DRIVER DROPOFF (dr_identifier d) (dr_destination d) in
  let* _ := end_ride driver in
  ret (Some (events ++ [DriverRequest t driver])).

(** Method dispatch on the event's class. *)
Definition do (e : Event) : M (option (list Event)) :=
  match e with
  | RiderRequest t r => RiderRequest_do t r
  | DriverRequest t d => DriverRequest_do t d
  | Cancellation t r => Cancellation_do t r
  | Pickup t r d => Pickup_do t r d
  | Dropoff t r d => Dropoff_do t r d
  end.

(** ** The simulation engine *)

(** Modelled from the spec: the engine's loop (the simulation module is not
    among the sources).  It owns a priority queue of events ordered by
    timestamp; while the queue is non-empty it pops the earliest event, runs
    its [do] against the dispatcher and the monitor, and pushes every
    returned event back.  A [do] that returns [None] schedules nothing, and
    an exception raised by [do] ends the run.  The optional horizon only cuts
    a run short and is left out. *)
Definition schedule (new_events : list Event) (queue : list Event)
    : list Event :=
  fold_left (fun q e => PriorityQueue.add Event_le e q) new_events queue.

Record Simulation := mkSimulation {
  sim_events : list Event;
  sim_world : World
}.

Definition sim_step (s : Simulation) : option (outcome Simulation) :=
  match PriorityQueue.remove (sim_events s) with
  | Raise _ => None
  | Ret (e, rest) =>
      match do e (sim_world s) with
      | (Ret new_events, w') =>
          Some (Ret (mkSimulation (schedule (default [] new_events) rest) w'))
      | (Raise x, w') => Some (Raise x)
      end
  end.

Fixpoint sim_run (fuel : nat) (s : Simulation) : outcome Simulation :=
  match fuel with
  | O => Ret s
  | S fuel' =>
      match sim_step s with
      | None => Ret s
      | Some (Ret s') => sim_run fuel' s'
      | Some (Raise x) => Raise x
      end
  end.

(** The engine starts from the seed events, an empty dispatcher and an empty
    monitor. *)
Definition sim_init (seeds : list Event) (ds : gmap nat Driver)
    (rs : gmap nat Rider) : Simulation :=
  mkSimulation (schedule seeds [])
               (mkWorld ds rs new_Dispatcher new_Monitor).

Inductive sim_reachable (s0 : Simulation) : Simulation -> Prop :=
  | reach_init : sim_reachable s0 s0
  | reach_step s s' :
      sim_reachable s0 s -> sim_step s = Some (Ret s') -> sim_reachable s0 s'.

(** ** The objects of the doctests *)

Definition charles : Driver := new_Driver "Charles" (mkLocation 0 0) 3.
Definition bunny : Driver := new_Driver "Bunny" (mkLocation 10 10) 2.
Definition lola : Rider :=
  new_Rider "Lola" (mkLocation 0 0) (mkLocation 5 4) 100.
Definition godzilla : Rider :=
  new_Rider "Godzilla" (mkLocation 10 10) (mkLocation 7 1) 10.

(** Charles at address 0 and Bunny at address 1; Lola at address 0 and
    Godzilla at address 1. *)
Definition doctest_drivers : gmap nat Driver :=
  <[0%nat := charles]> (<[1%nat := bunny]> ∅).
Definition doctest_riders : gmap nat Rider :=
  <[0%nat := lola]> (<[1%nat := godzilla]> ∅).
Definition doctest_world (avail wait : list nat) : World :=
  mkWorld doctest_drivers doctest_riders (mkDispatcher avail wait)
          new_Monitor.

(** ** Representation invariant and removal order of a [PriorityQueue] *)

(** "[_items] is a sorted list, where the first item in the queue is the item
    with the highest priority": every item is [le] all items behind it. *)
Fixpoint sorted_by {A} (le : A -> A -> bool) (items : list A) : bool :=
  match items with
  | [] => true
  | x :: rest => forallb (le x) rest && sorted_by le rest
  end.

(** The items returned by [n] successive calls of [remove], in order. *)
Fixpoint removals {A} (n : nat) (items : list A) : list A :=
  match n with
  | O => []
  | S n' =>
      match PriorityQueue.remove items with
      | Ret (x, rest) => x :: removals n' rest
      | Raise _ => []
      end
  end.

(** ** Travel times of the idle drivers *)

(** [ts] lists the travel times of the drivers [ds] to [origin], each
    computed without an exception. *)
Definition travel_times (w : World) (origin : Location) (ds : list nat)
    (ts : list Z) : Prop :=
  Forall2
    (fun d t => get_travel_time (drivers w !!! d) (Some origin) = Ret t)
    ds ts.

(** ** States used to exercise the events *)

(** Lola's status is [SATISFIED] and Charles is driving to her origin. *)
Definition world_after_pickup : World :=
  mkWorld
    (<[0%nat := set_destination (Some (mkLocation 0 0))
                  (set_is_idle false charles)]> doctest_drivers)
    (<[0%nat := set_status SATISFIED lola]> doctest_riders)
    new_Dispatcher new_Monitor.

(** ** Drivers and riders engaged in a simulation *)

(** The driver an event will act on. *)
Definition event_driver (e : Event) : list nat :=
  match e with
  | DriverRequest _ d | Pickup _ _ d | Dropoff _ _ d => [d]
  | RiderRequest _ _ | Cancellation _ _ => []
  end.

(** The drivers in the idle pool followed by those of the pending events. *)
Definition engaged_drivers (s : Simulation) : list nat :=
  avail_dr (dispatcher (sim_world s)) ++ flat_map event_driver (sim_events s).

Definition is_request (e : Event) : bool :=
  match e with
  | RiderRequest _ _ | DriverRequest _ _ => true
  | _ => false
  end.

(** The seeds the event source produces: requests only, each
    [DriverRequest] for a driver object of its own. *)
Definition seeds_ok (seeds : list Event) : Prop :=
  forallb is_request seeds = true /\ NoDup (flat_map event_driver seeds).

(** A rider is picked up while the driver's [Dropoff] is pending. *)
Definition riding_drivers_idle (s : Simulation) : Prop :=
  forall t r d,
    Dropoff t r d ∈ sim_events s ->
    is_idle (drivers (sim_world s) !!! d) = true.

(** The rider an event will match or pick up. *)
Definition event_rider (e : Event) : list nat :=
  match e with
  | RiderRequest _ r | Pickup _ r _ => [r]
  | DriverRequest _ _ | Cancellation _ _ | Dropoff _ _ _ => []
  end.

(** The riders in the waiting queue followed by those of the pending
    events. *)
Definition engaged_riders (s : Simulation) : list nat :=
  wait_rd (dispatcher (sim_world s)) ++ flat_map event_rider (sim_events s).

(** Each [RiderRequest] of the seeds is for a rider object of its own, and no
    such rider is [SATISFIED] yet. *)
Definition rider_seeds_ok (seeds : list Event) (rs : gmap nat Rider) : Prop :=
  forallb is_request seeds = true
  /\ NoDup (flat_map event_rider seeds)
  /\ forall r, r ∈ flat_map event_rider seeds ->
               rd_status (rs !!! r) <> SATISFIED.

Definition engaged_riders_unsatisfied (s : Simulation) : Prop :=
  forall r, r ∈ engaged_riders s ->
            rd_status (riders (sim_world s) !!! r) <> SATISFIED.

(** Godzilla asks for a driver at time 0 and no driver ever registers. *)
Definition lone_rider_seeds : list Event := [RiderRequest 0 1%nat].

(** Charles registers at time 0 and Lola asks for a driver at time 1. *)
Definition one_ride_seeds : list Event :=
  [DriverRequest 0 0%nat; RiderRequest 1 0%nat].

(** Godzilla asks at time 0 and Bunny registers at time 20, after Godzilla's
    patience of 10 has run out. *)
Definition late_driver_seeds : list Event :=
  [RiderRequest 0 1%nat; DriverRequest 20 1%nat].

(** ** Sequences of container operations *)

(** [q.add(x)] for each [x] of [xs] in turn. *)
Definition Queue_add_all {A} (xs : list A) (items : list A) : list A :=
  fold_left (fun q x => Queue.add x q) xs items.

(** The items returned by [n] successive calls of [Queue.remove]. *)
Fixpoint Queue_removals {A} (n : nat) (items : list A) : list A :=
  match n with
  | O => []
  | S n' =>
      match Queue.remove items with
      | Ret (x, rest) => x :: Queue_removals n' rest
      | Raise _ => []
      end
  end.

(** [pq.add(x)] for each [x] of [xs] in turn. *)
Definition PriorityQueue_add_all {A} (le : A -> A -> bool) (xs : list A)
    (items : list A) : list A :=
  fold_left (fun q x => PriorityQueue.add le x q) xs items.

(** ** Signs of floats *)

(** [x] is not a negative number: a zero, a positive number, an infinity or
    a NaN. *)
Definition float_not_negative (x : spec_float) : Prop :=
  match x with
  | S754_finite true _ _ => False
  | _ => True
  end.

(** ** The dispatcher's pools *)

(** No driver is idle while a rider waits. *)
Definition pools_exclusive (dis : Dispatcher) : Prop :=
  avail_dr dis = [] \/ wait_rd dis = [].

(** ** event.py: the other comparison methods *)

(** [Event.__eq__], [__ne__], [__lt__], [__gt__] and [__ge__]. *)
Definition Event_eq (a b : Event) : bool := timestamp a =? timestamp b.
Definition Event_ne (a b : Event) : bool := negb (Event_eq a b).
Definition Event_lt (a b : Event) : bool := timestamp a <? timestamp b.
Definition Event_gt (a b : Event) : bool := negb (Event_le a b).
Definition Event_ge (a b : Event) : bool := negb (Event_lt a b).

(** ** monitor.py: reading the record *)

#[global] Instance category_eq_dec : EqDecision category.
Proof. solve_decision. Defined.

(** [_activities[category]] *)
Definition activities_of (c : category) (m : Monitor)
    : gmap string (list Activity) :=
  match c with
  | RIDER => rider_activities m
  | DRIVER => driver_activities m
  end.

(** The activities recorded for an actor; none when the identifier is not a
    key of the dictionary. *)
Definition log_of (c : category) (identifier : string) (m : Monitor)
    : list Activity :=
  default [] (activities_of c m !! identifier).

(** The two numbers [Monitor.__str__] prints: how many drivers and how many
    riders have a record. *)
Definition Monitor_counts (m : Monitor) : nat * nat :=
  (size (driver_activities m), size (rider_activities m)).

(** [Monitor._average_wait_time].  A rider with two or more activities
    contributes the time between its first two; the loop adds these integers
    up and counts them, so the order in which the dictionary yields the
    riders does not matter.  The result is the true division of the two. *)
Definition wait_of (activities : list Activity) : option Z :=
  match activities with
  | first :: second :: _ => Some (act_time second - act_time first)
  | _ => None
  end.

Definition finished_waits (m : Monitor) : list Z :=
  omap (fun entry => wait_of (snd entry)) (map_to_list (rider_activities m)).

Definition Monitor_average_wait_time (m : Monitor) : outcome spec_float :=
  let wait_time := foldr Z.add 0 (finished_waits m) in
  let count := Z.of_nat (length (finished_waits m)) in
  int_true_divide wait_time count.

(** ** The travel time in the words of the specification *)

(** Distance between [a] and [b]:
    [|a.row - b.row| + |a.column - b.column|]. *)
Definition spec_manhattan_distance (a b : Location) : Z :=
  Z.abs (row a - row b) + Z.abs (column a - column b).

(** The integer nearest to the quotient [n / s] of two integers, [0 < s];
    a quotient half way between two integers goes to the even one. *)
Definition round_half_even (n s : Z) : Z :=
  let q := n / s in
  match 2 * (n mod s) ?= s with
  | Lt => q
  | Eq => if Z.even q then q else q + 1
  | Gt => q + 1
  end.

(** [travelTime = round(manhattanDistance(location, to) / speed)] *)
Definition spec_travel_time (loc : Location) (speed : Z) (to : Location)
    : Z :=
  round_half_even (spec_manhattan_distance loc to) speed.

(** ** Two idle drivers far from the rider *)

(** Two drivers of speed 1, the first at (2^53 + 3, 0) and the second, one
    step nearer to the origin of the grid, at (2^53 + 2, 0). *)
Definition far_driver : Driver :=
  new_Driver "Far" (mkLocation (2 ^ 53 + 3) 0) 1.
Definition near_driver : Driver :=
  new_Driver "Near" (mkLocation (2 ^ 53 + 2) 0) 1.

(** Both are idle, in this order, and Lola at address 0 asks for a driver
    at (0, 0). *)
Definition far_world : World :=
  mkWorld (<[0%nat := far_driver]> (<[1%nat := near_driver]> ∅))
          doctest_riders (mkDispatcher [0%nat; 1%nat] []) new_Monitor.

(** The same with the drivers at (2^60 + 1, 0) and (2^60, 0): the squares of
    the two row differences are converted to the same float. *)
Definition remote_far_driver : Driver :=
  new_Driver "Far" (mkLocation (2 ^ 60 + 1) 0) 1.
Definition remote_near_driver : Driver :=
  new_Driver "Near" (mkLocation (2 ^ 60) 0) 1.
Definition remote_world : World :=
  mkWorld (<[0%nat := remote_far_driver]> (<[1%nat := remote_near_driver]> ∅))
          doctest_riders (mkDispatcher [0%nat; 1%nat] []) new_Monitor.

(** ** Floats that are integers *)

(** [f] is the binary64 number of the integer [n], [0 <= n < 2^53]: the zero
    of positive sign, or a positive number with a mantissa of 53 bits. *)
Definition float_is_int (f : spec_float) (n : Z) : Prop :=
  (n = 0 /\ f = S754_zero false)
  \/ (0 < n
      /\ exists m e, f = S754_finite false m e
           /\ Z.pos (digits2_pos m) = 53 /\ -52 <= e <= 0
           /\ Z.pos m = n * 2 ^ (- e)).

(** The place [l] of a quotient with remainder [r], [0 <= r < s], between
    two consecutive integers: exact, below, at or above the middle. *)
Definition loc_ok (l : location) (r s : Z) : Prop :=
  match l with
  | loc_Exact => r = 0
  | loc_Inexact Lt => 0 < r /\ 2 * r < s
  | loc_Inexact Eq => 0 < r /\ 2 * r = s
  | loc_Inexact Gt => 0 < r /\ s < 2 * r
  end.

(** ** Where the float computations of a travel time are exact *)

(** The rows of [a] and [b] differ by less than 2^26 = 67108864, and so do
    their columns. *)
Definition close_by (a b : Location) : Prop :=
  Z.abs (row a - row b) < 2 ^ 26 /\ Z.abs (column a - column b) < 2 ^ 26.

(** The driver [d] has a location, close by [to], and a speed between 1 and
    2^53 - 1. *)
Definition in_range (d : Driver) (to : Location) : Prop :=
  exists l, dr_location d = Some l /\ close_by l to
            /\ 0 < dr_speed d < 2 ^ 53.

(** [travelTime(driver, to)] in the words of the specification, for a
    driver that has a location. *)
Definition spec_driver_time (d : Driver) (to : Location) : Z :=
  match dr_location d with
  | Some l => spec_travel_time l (dr_speed d) to
  | None => 0
  end.

(** ** An idle driver that cannot move *)

(** Charles and a driver of speed 0 are idle, in this order; the travel time
    of the second divides by zero. *)
Definition stalled_driver : Driver :=
  new_Driver "Stalled" (mkLocation 3 4) 0.
Definition stalled_world : World :=
  mkWorld (<[0%nat := charles]> (<[1%nat := stalled_driver]> ∅))
          doctest_riders (mkDispatcher [0%nat; 1%nat] []) new_Monitor.

(** * The doctests of the source *)

Example manhattan_doctest_1 :
  manhattan_distance (mkLocation 10 10) (mkLocation 13 24) = Ret 17.
Proof. vm_compute. reflexivity. Qed.

Example manhattan_doctest_2 :
  manhattan_distance (mkLocation 1 1) (mkLocation 13 24) = Ret 35.
Proof. vm_compute. reflexivity. Qed.

Example travel_time_doctest_1 :
  get_travel_time (new_Driver "Charles" (mkLocation 0 0) 3)
    (Some (mkLocation 5 6)) = Ret 4.
Proof. vm_compute. reflexivity. Qed.

Example travel_time_doctest_2 :
  get_travel_time (new_Driver "Bunny" (mkLocation 10 10) 2)
    (Some (mkLocation 0 0)) = Ret 10.
Proof. vm_compute. reflexivity. Qed.

Example Queue_doctest :
  let q := Queue.add "green" (Queue.add "yellow" (Queue.add "blue"
             (Queue.add "red" []))) in
  Queue.remove q = Ret ("red", ["blue"; "yellow"; "green"])
  /\ Queue.spcl_remove String.eqb "yellow" q = Ret ["red"; "blue"; "green"].
Proof. split; reflexivity. Qed.

Example PriorityQueue_doctest :
  let add := PriorityQueue.add String.leb in
  removals 4 (add "green" (add "yellow" (add "blue" (add "red" []))))
  = ["blue"; "green"; "red"; "yellow"].
Proof. vm_compute. reflexivity. Qed.

Example request_driver_doctest :
  fst (request_driver 0%nat (doctest_world [0%nat; 1%nat] [])) = Ret (Some 0%nat)
  /\ dispatcher (snd (request_driver 0%nat (doctest_world [0%nat; 1%nat] [])))
     = mkDispatcher [1%nat] [].
Proof. split; vm_compute; reflexivity. Qed.

Example request_rider_doctest :
  fst (request_rider 0%nat (doctest_world [] [0%nat; 1%nat])) = Ret (Some 0%nat)
  /\ dispatcher (snd (request_rider 0%nat (doctest_world [] [0%nat; 1%nat])))
     = mkDispatcher [] [1%nat].
Proof. split; vm_compute; reflexivity. Qed.

Example RiderRequest_doctest :
  fst (do (RiderRequest 0 0%nat) (doctest_world [] []))
  = Ret (Some [Cancellation 100 0%nat])
  /\ dispatcher (snd (do (RiderRequest 0 0%nat) (doctest_world [] [])))
     = mkDispatcher [] [0%nat].
Proof. split; vm_compute; reflexivity. Qed.

Example DriverRequest_doctest :
  fst (do (DriverRequest 0 0%nat) (doctest_world [] [0%nat]))
  = Ret (Some [Pickup 0 0%nat 0%nat])
  /\ fst (do (DriverRequest 1 1%nat) (doctest_world [] [])) = Ret (Some []).
Proof. split; vm_compute; reflexivity. Qed.

Example Pickup_doctest :
  fst (do (Pickup 0 0%nat 0%nat)
         (set_drivers (<[0%nat := set_destination (Some (mkLocation 0 0))
                                    charles]> doctest_drivers)
            (doctest_world [] [])))
  = Ret (Some [Dropoff 3 0%nat 0%nat])
  /\ fst (do (Pickup 0 1%nat 1%nat)
            (set_riders (<[1%nat := set_status CANCELLED godzilla]>
                           doctest_riders)
               (set_drivers (<[1%nat := set_destination
                                          (Some (mkLocation 10 10)) bunny]>
                               doctest_drivers)
                  (doctest_world [] []))))
     = Ret (Some [DriverRequest 0 1%nat]).
Proof. split; vm_compute; reflexivity. Qed.

Example Dropoff_doctest :
  fst (do (Dropoff 0 0%nat 0%nat)
         (set_drivers (<[0%nat := set_destination (Some (mkLocation 5 4))
                                    charles]> doctest_drivers)
            (doctest_world [] [])))
  = Ret (Some [DriverRequest 0 0%nat]).
Proof. vm_compute. reflexivity. Qed.

(** * Containers: failure on empty, FIFO front *)

(** Claim C8, as the code has it: [remove] on an empty [Queue] or an empty
    [PriorityQueue] and [first] on an empty [Queue] fail, and the failure is
    the [AssertionError] of their [assert] statement; on a non-empty
    container each of the three returns its front item without raising. *)
Theorem C8_empty_container_raises_AssertionError (A : Type) :
  Queue.remove (@nil A) = Raise AssertionError
  /\ PriorityQueue.remove (@nil A) = Raise AssertionError
  /\ Queue.first (@nil A) = Raise AssertionError
  /\ forall (x : A) (rest : list A),
       Queue.remove (x :: rest) = Ret (x, rest)
       /\ PriorityQueue.remove (x :: rest) = Ret (x, rest)
       /\ Queue.first (x :: rest) = Ret x.
Proof.
  repeat split; reflexivity.
Qed.

(** Claim C8 as stated fails: the error of [remove] and [first] on an empty
    container is not [EmptyContainer]. *)
Lemma C8_not_EmptyContainer :
  ~ (Queue.remove (@nil nat) = Raise EmptyContainer
     /\ PriorityQueue.remove (@nil nat) = Raise EmptyContainer
     /\ Queue.first (@nil nat) = Raise EmptyContainer).
Proof.
  intros [H _]. discriminate H.
Qed.

(** * PriorityQueue: insertion position, minimum, FIFO among ties *)

Section PriorityQueueFacts.
Context {A : Type}.
Variable le : A -> A -> bool.
Hypothesis le_total : forall a b, le a b = true \/ le b a = true.
Hypothesis le_trans :
  forall a b c, le a b = true -> le b c = true -> le a c = true.

Lemma add_index_le_length (item : A) (items : list A) :
  (PriorityQueue.add_index le item items <= length items)%nat.
Proof.
  induction items as [|x rest IH]; simpl; [lia|].
  destruct (le x item); simpl; lia.
Qed.

Lemma add_cons (item x : A) (rest : list A) :
  PriorityQueue.add le item (x :: rest) =
  if le x item then x :: PriorityQueue.add le item rest
  else item :: x :: rest.
Proof.
  unfold PriorityQueue.add, PriorityQueue.list_insert_at. simpl.
  destruct (le x item); reflexivity.
Qed.

Lemma add_index_prefix (item : A) (items : list A) (j : nat) (y : A) :
  items !! j = Some y ->
  (j < PriorityQueue.add_index le item items)%nat ->
  le y item = true.
Proof.
  revert j. induction items as [|x rest IH]; intros j Hj Hlt; simpl in *.
  - lia.
  - destruct (le x item) eqn:Hx; [|lia].
    destruct j as [|j]; simpl in Hj.
    + congruence.
    + apply (IH j); [assumption|lia].
Qed.

Lemma sorted_by_lookup (items : list A) (i j : nat) (x y : A) :
  sorted_by le items = true ->
  items !! i = Some x -> items !! j = Some y -> (i < j)%nat ->
  le x y = true.
Proof.
  revert i j. induction items as [|z rest IH]; intros i j Hs Hi Hj Hlt.
  - discriminate.
  - simpl in Hs. apply andb_prop in Hs as [Hall Hs].
    destruct j as [|j]; [lia|]. simpl in Hj.
    destruct i as [|i]; simpl in Hi.
    + inversion Hi; subst z.
      rewrite forallb_forall in Hall. apply Hall.
      apply list_elem_of_In. eapply list_elem_of_lookup_2. eassumption.
    + apply (IH i j); [assumption..|lia].
Qed.

Lemma add_index_stop (item : A) (items : list A) (z : A) :
  items !! PriorityQueue.add_index le item items = Some z ->
  le z item = false.
Proof.
  induction items as [|x rest IH]; simpl; [discriminate|].
  destruct (le x item) eqn:Hx; simpl.
  - assumption.
  - intros H; inversion H; subst; assumption.
Qed.

Lemma add_index_after_all_le (item : A) (items : list A) (j : nat) (y : A) :
  sorted_by le items = true ->
  items !! j = Some y -> le y item = true ->
  (j < PriorityQueue.add_index le item items)%nat.
Proof.
  intros Hs Hj Hy.
  destruct (Nat.lt_ge_cases j (PriorityQueue.add_index le item items))
    as [|Hge]; [assumption|exfalso].
  assert (Hlen : (j < length items)%nat) by (eapply lookup_lt_Some; eassumption).
  destruct (lookup_lt_is_Some_2 items (PriorityQueue.add_index le item items))
    as [z Hz]; [lia|].
  pose proof (add_index_stop _ _ _ Hz) as Hstop.
  destruct (decide (PriorityQueue.add_index le item items = j)) as [Heq|Hne].
  - rewrite Heq in Hz. congruence.
  - assert (le z y = true)
      by (eapply (sorted_by_lookup items _ j); [eassumption..|lia]).
    rewrite (le_trans z y item) in Hstop; [discriminate|assumption..].
Qed.

Lemma forallb_add (P : A -> bool) (item : A) (items : list A) :
  P item = true -> forallb P items = true ->
  forallb P (PriorityQueue.add le item items) = true.
Proof.
  intros Hi. induction items as [|x rest IH]; simpl; intros H.
  - unfold PriorityQueue.add, PriorityQueue.list_insert_at; simpl.
    rewrite Hi; reflexivity.
  - apply andb_prop in H as [Hx Hr]. rewrite add_cons.
    destruct (le x item); simpl; rewrite ?Hi, ?Hx, ?Hr; simpl; auto.
Qed.

Lemma add_sorted (item : A) (items : list A) :
  sorted_by le items = true ->
  sorted_by le (PriorityQueue.add le item items) = true.
Proof.
  induction items as [|x rest IH]; intros Hs.
  - reflexivity.
  - simpl in Hs. apply andb_prop in Hs as [Hall Hs]. rewrite add_cons.
    destruct (le x item) eqn:Hx.
    + simpl. rewrite IH by assumption. rewrite forallb_add; auto.
    + assert (Hix : le item x = true)
        by (destruct (le_total item x); congruence).
      simpl. rewrite Hix, Hall, Hs. simpl.
      rewrite andb_true_r. rewrite forallb_forall in *.
      intros y Hy. eapply le_trans; [exact Hix|]. apply Hall; exact Hy.
Qed.

Lemma remove_sorted (x : A) (items rest : list A) :
  sorted_by le items = true ->
  PriorityQueue.remove items = Ret (x, rest) ->
  sorted_by le rest = true.
Proof.
  destruct items as [|y items]; [discriminate|].
  simpl. intros Hs H. inversion H; subst.
  apply andb_prop in Hs as [_ Hs]. exact Hs.
Qed.

Lemma removals_all (items : list A) :
  removals (length items) items = items.
Proof.
  induction items as [|x rest IH]; simpl; [reflexivity|].
  f_equal. exact IH.
Qed.

Lemma add_length (item : A) (items : list A) :
  length (PriorityQueue.add le item items) = S (length items).
Proof.
  unfold PriorityQueue.add, PriorityQueue.list_insert_at.
  rewrite length_app. simpl. rewrite length_take, length_drop.
  pose proof (add_index_le_length item items). lia.
Qed.

Lemma add_lookup_before (item : A) (items : list A) (j : nat) :
  (j < PriorityQueue.add_index le item items)%nat ->
  PriorityQueue.add le item items !! j = items !! j.
Proof.
  intros Hlt. unfold PriorityQueue.add, PriorityQueue.list_insert_at.
  pose proof (add_index_le_length item items).
  rewrite lookup_app_l by (rewrite length_take; lia).
  apply lookup_take_lt. assumption.
Qed.

Lemma add_lookup_at (item : A) (items : list A) :
  PriorityQueue.add le item items !! PriorityQueue.add_index le item items
  = Some item.
Proof.
  unfold PriorityQueue.add, PriorityQueue.list_insert_at.
  pose proof (add_index_le_length item items).
  rewrite lookup_app_r by (rewrite length_take; lia).
  rewrite length_take.
  replace (_ - _)%nat with 0%nat by lia. reflexivity.
Qed.

(** Claim C5: on a queue that satisfies its representation invariant, [add]
    inserts the item at the position after all held items that compare less
    than or equal to it (and keeps the invariant); [remove] returns the front
    item, which is a minimum; an item that was held before and compares less
    than or equal to the new one, so in particular one that compares equal,
    keeps its place and is removed before the new item. *)
Theorem C5_priority_queue_add_remove (items : list A) (item : A) :
  sorted_by le items = true ->
  let i := PriorityQueue.add_index le item items in
  PriorityQueue.add le item items = take i items ++ item :: drop i items
  /\ (forall j y, items !! j = Some y -> (le y item = true <-> (j < i)%nat))
  /\ sorted_by le (PriorityQueue.add le item items) = true
  /\ (forall x rest, items = x :: rest ->
        PriorityQueue.remove items = Ret (x, rest)
        /\ forall y, y ∈ items -> le x y = true)
  /\ (forall j y, items !! j = Some y ->
        le y item = true -> le item y = true ->
        let out := removals (S (length items))
                            (PriorityQueue.add le item items) in
        out !! j = Some y /\ out !! i = Some item /\ (j < i)%nat).
Proof.
  intros Hs i. subst i. repeat split.
  - intros Hy. eapply add_index_after_all_le; eassumption.
  - intros Hlt. eapply add_index_prefix; eassumption.
  - apply add_sorted; assumption.
  - subst items. reflexivity.
  - subst items. intros y Hy. apply elem_of_cons in Hy as [->|Hy].
    + destruct (le_total x x); assumption.
    + simpl in Hs. apply andb_prop in Hs as [Hall _].
      rewrite forallb_forall in Hall. apply Hall.
      apply list_elem_of_In. assumption.
  - rewrite <- (add_length item items), removals_all.
    rewrite add_lookup_before; [assumption|].
    eapply add_index_after_all_le; eassumption.
  - rewrite <- (add_length item items), removals_all. apply add_lookup_at.
  - eapply add_index_after_all_le; eassumption.
Qed.

End PriorityQueueFacts.

Lemma C5_witness :
  let items := [1; 3; 3; 5] in
  let i := PriorityQueue.add_index Z.leb 3 items in
  PriorityQueue.add Z.leb 3 items = take i items ++ 3 :: drop i items
  /\ (forall j y, items !! j = Some y -> ((y <=? 3) = true <-> (j < i)%nat))
  /\ sorted_by Z.leb (PriorityQueue.add Z.leb 3 items) = true
  /\ (forall x rest, items = x :: rest ->
        PriorityQueue.remove items = Ret (x, rest)
        /\ forall y, y ∈ items -> (x <=? y) = true)
  /\ (forall j y, items !! j = Some y ->
        (y <=? 3) = true -> (3 <=? y) = true ->
        let out := removals (S (length items))
                            (PriorityQueue.add Z.leb 3 items) in
        out !! j = Some y /\ out !! i = Some 3 /\ (j < i)%nat).
Proof.
  apply (C5_priority_queue_add_remove Z.leb).
  - intros a b. lia.
  - intros a b c. lia.
  - reflexivity.
Defined.

(** Events are ordered by timestamp, so the event queue of the engine is a
    queue to which the facts above apply. *)
Lemma Event_le_total (a b : Event) :
  Event_le a b = true \/ Event_le b a = true.
Proof. unfold Event_le. lia. Qed.

Lemma Event_le_trans (a b c : Event) :
  Event_le a b = true -> Event_le b c = true -> Event_le a c = true.
Proof. unfold Event_le. lia. Qed.

(** The event queue of the engine satisfies the invariant in every state it
    reaches, so equal timestamps are processed in insertion order. *)
Lemma schedule_sorted (new_events queue : list Event) :
  sorted_by Event_le queue = true ->
  sorted_by Event_le (schedule new_events queue) = true.
Proof.
  unfold schedule. revert queue.
  induction new_events as [|e new_events IH]; intros queue Hq; simpl.
  - exact Hq.
  - apply IH. apply add_sorted; [apply Event_le_total|apply Event_le_trans|].
    exact Hq.
Qed.

Lemma sim_reachable_sorted (seeds : list Event) (ds : gmap nat Driver)
    (rs : gmap nat Rider) (s : Simulation) :
  sim_reachable (sim_init seeds ds rs) s ->
  sorted_by Event_le (sim_events s) = true.
Proof.
  induction 1 as [|s s' Hreach IH Hstep].
  - simpl. apply schedule_sorted. reflexivity.
  - unfold sim_step in Hstep.
    destruct (sim_events s) as [|e rest]; [discriminate|]. simpl in Hstep.
    destruct (do e (sim_world s)) as [[res|x] w']; [|discriminate].
    inversion Hstep; subst. simpl. apply schedule_sorted.
    simpl in IH. apply andb_prop in IH as [_ IH]. exact IH.
Qed.

(** * Equations of the actor transitions *)

Lemma start_drive_eq (self : nat) (loc : Location) (w : World) :
  let d := set_destination (Some loc) (set_is_idle false (drivers w !!! self)) in
  start_drive self loc w
  = (get_travel_time d (Some loc), set_drivers (<[self := d]> (drivers w)) w).
Proof.
  unfold start_drive, bind, get_driver, put_driver, lift, set_drivers. simpl.
  rewrite !lookup_total_insert_eq, !insert_insert_eq. reflexivity.
Qed.

Lemma end_drive_eq (self : nat) (w : World) :
  let d := drivers w !!! self in
  end_drive self w
  = (Ret tt,
     set_drivers
       (<[self := set_destination None
                    (set_location (dr_destination d) (set_is_idle true d))]>
          (drivers w)) w).
Proof.
  unfold end_drive, bind, get_driver, put_driver, lift, set_drivers. simpl.
  rewrite !lookup_total_insert_eq, !insert_insert_eq. reflexivity.
Qed.

Lemma end_ride_eq (self : nat) (w : World) : end_ride self w = end_drive self w.
Proof. reflexivity. Qed.

Lemma start_ride_eq (self rider : nat) (w : World) :
  let r := riders w !!! rider in
  let d := set_destination (Some (rd_destination r)) (drivers w !!! self) in
  start_ride self rider w
  = (get_travel_time d (Some (rd_destination r)),
     set_riders (<[rider := set_status SATISFIED r]> (riders w))
       (set_drivers (<[self := d]> (drivers w)) w)).
Proof.
  unfold start_ride, bind, get_driver, get_rider, put_driver, put_rider, lift,
    set_drivers, set_riders. simpl.
  rewrite !lookup_total_insert_eq. reflexivity.
Qed.

Lemma request_rider_eq (driver : nat) (w : World) :
  request_rider driver w
  = match wait_rd (dispatcher w) with
    | [] => (Ret None, set_avail_dr (avail_dr (dispatcher w) ++ [driver]) w)
    | r :: rest => (Ret (Some r), set_wait_rd rest w)
    end.
Proof.
  unfold request_rider, bind, get_dispatcher. simpl.
  destruct (wait_rd (dispatcher w)); reflexivity.
Qed.

(** * Dispatcher.request_driver *)

Lemma Location_eq_true (a b : Location) : Location_eq a b = true -> a = b.
Proof.
  destruct a, b. unfold Location_eq. simpl. intros H.
  apply andb_prop in H as [H1 H2]. f_equal; lia.
Qed.

Lemma Driver_eq_travel_time (a b : Driver) (dest : option Location) :
  Driver_eq a b = true -> get_travel_time a dest = get_travel_time b dest.
Proof.
  unfold Driver_eq, get_travel_time. intros H.
  apply andb_prop in H as [H _]. apply andb_prop in H as [H Hs].
  apply andb_prop in H as [_ Hl]. apply Z.eqb_eq in Hs. rewrite Hs.
  destruct (dr_location a) as [la|], (dr_location b) as [lb|];
    simpl in Hl; try discriminate; [|reflexivity].
  apply Location_eq_true in Hl. subst. reflexivity.
Qed.

Lemma driver_ref_eq_travel_time (w : World) (a b : nat)
    (dest : option Location) :
  driver_ref_eq w a b = true ->
  get_travel_time (drivers w !!! a) dest = get_travel_time (drivers w !!! b) dest.
Proof.
  unfold driver_ref_eq. intros H. apply orb_prop in H as [H|H].
  - apply Nat.eqb_eq in H. subst. reflexivity.
  - apply Driver_eq_travel_time. assumption.
Qed.

Lemma driver_ref_eq_refl (w : World) (a : nat) : driver_ref_eq w a a = true.
Proof. unfold driver_ref_eq. rewrite Nat.eqb_refl. reflexivity. Qed.

(** [list.remove] deletes the first position whose element equals the
    item. *)
Lemma list_remove_first {A} (eqb : A -> A -> bool) (item : A)
    (items : list A) (i : nat) (x : A) :
  items !! i = Some x -> eqb x item = true ->
  (forall j y, (j < i)%nat -> items !! j = Some y -> eqb y item = false) ->
  Queue.list_remove eqb item items = Ret (delete i items).
Proof.
  revert i. induction items as [|z rest IH]; intros i Hi Hx Hbefore.
  - discriminate.
  - destruct i as [|i]; simpl in *.
    + inversion Hi; subst. rewrite Hx. reflexivity.
    + rewrite (Hbefore 0%nat z) by (reflexivity || lia).
      rewrite (IH i); [reflexivity|assumption..|].
      intros j y Hj Hy. apply (Hbefore (S j)); [lia|assumption].
Qed.

(** The loop keeps the current best unless a later driver is strictly
    faster; it only reads the store. *)
Lemma request_driver_loop_spec (origin : Location) (w : World)
    (ds : list nat) (ts : list Z) :
  travel_times w origin ds ts ->
  forall fastest shortest,
  exists f s,
    request_driver_loop origin ds fastest shortest w = (Ret (f, s), w)
    /\ ((f = fastest /\ s = shortest
         /\ forall j t, ts !! j = Some t -> shortest <= t)
        \/ (exists i, ds !! i = Some f /\ ts !! i = Some s /\ s < shortest
            /\ forall j t, ts !! j = Some t ->
                 s <= t /\ ((j < i)%nat -> s < t))).
Proof.
  induction 1 as [|d t ds ts Hd Hrest IH]; intros fastest shortest.
  - exists fastest, shortest. split; [reflexivity|].
    left. split; [reflexivity|]. split; [reflexivity|].
    intros j t Hj. discriminate.
  - simpl. unfold bind at 1 2, get_driver, lift at 1. rewrite Hd.
    destruct (t <? shortest) eqn:Hlt.
    + unfold bind at 1 2, lift at 1. rewrite Hd.
      destruct (IH d t) as (f & s & Hrun & Hcase).
      exists f, s. split; [exact Hrun|]. right.
      destruct Hcase as [(-> & -> & Hall)|(i & Hi & Hti & Hs & Hall)].
      * exists 0%nat. split; [reflexivity|]. split; [reflexivity|].
        split; [lia|]. intros j t' Hj.
        destruct j as [|j]; simpl in Hj; [inversion Hj; lia|].
        specialize (Hall j t' Hj). lia.
      * exists (S i). split; [exact Hi|]. split; [exact Hti|].
        split; [lia|]. intros j t' Hj.
        destruct j as [|j]; simpl in Hj; [inversion Hj; lia|].
        specialize (Hall j t' Hj). lia.
    + destruct (IH fastest shortest) as (f & s & Hrun & Hcase).
      exists f, s. split; [exact Hrun|].
      destruct Hcase as [(-> & -> & Hall)|(i & Hi & Hti & Hs & Hall)].
      * left. split; [reflexivity|]. split; [reflexivity|].
        intros j t' Hj. destruct j as [|j]; simpl in Hj; [inversion Hj; lia|].
        eapply Hall; eassumption.
      * right. exists (S i). split; [exact Hi|]. split; [exact Hti|].
        split; [lia|]. intros j t' Hj.
        destruct j as [|j]; simpl in Hj; [inversion Hj; lia|].
        specialize (Hall j t' Hj). lia.
Qed.

(** Either the loop raises on the first driver whose travel time raises, or
    every travel time is computed. *)
Lemma request_driver_loop_cases (origin : Location) (w : World)
    (ds : list nat) :
  forall fastest shortest,
  (exists e, request_driver_loop origin ds fastest shortest w = (Raise e, w))
  \/ (exists ts, travel_times w origin ds ts).
Proof.
  induction ds as [|d ds IH]; intros fastest shortest.
  - right. exists []. constructor.
  - simpl. unfold bind at 1 2, get_driver, lift at 1.
    destruct (get_travel_time (drivers w !!! d) (Some origin)) as [t|e] eqn:Hd.
    + destruct (t <? shortest).
      * unfold bind at 1 2, lift at 1. rewrite Hd.
        destruct (IH d t) as [He|[ts Hts]]; [left; exact He|].
        right. exists (t :: ts). constructor; assumption.
      * destruct (IH fastest shortest) as [He|[ts Hts]]; [left; exact He|].
        right. exists (t :: ts). constructor; assumption.
    + left. exists e. reflexivity.
Qed.

Lemma Queue_length_two {A} (a b : A) (l : list A) :
  (Queue.length (a :: b :: l) =? 1) = false.
Proof. unfold Queue.length. simpl length. apply Z.eqb_neq. lia. Qed.

(** The body of [request_driver], case by case on the idle pool. *)
Lemma request_driver_unfold (rider : nat) (w : World) :
  request_driver rider w
  = match avail_dr (dispatcher w) with
    | [] => (Ret None, set_wait_rd (wait_rd (dispatcher w) ++ [rider]) w)
    | [d] => (Ret (Some d), set_avail_dr [] w)
    | d0 :: _ :: _ =>
        let origin := rd_origin (riders w !!! rider) in
        match get_travel_time (drivers w !!! d0) (Some origin) with
        | Raise e => (Raise e, w)
        | Ret t0 =>
            match request_driver_loop origin (avail_dr (dispatcher w)) d0 t0 w
            with
            | (Raise e, w') => (Raise e, w')
            | (Ret (f, _), w') =>
                match Queue.spcl_remove (driver_ref_eq w') f
                        (avail_dr (dispatcher w')) with
                | Raise e => (Raise e, w')
                | Ret rest => (Ret (Some f), set_avail_dr rest w')
                end
            end
        end
    end.
Proof.
  unfold request_driver, bind at 1, get_dispatcher.
  destruct (avail_dr (dispatcher w)) as [|d0 [|d1 rest]] eqn:Havail;
    [reflexivity..|].
  change (Queue.is_empty (d0 :: d1 :: rest)) with false.
  rewrite Queue_length_two. cbv beta iota.
  unfold bind at 1, lift at 1.
  change (Queue.first (d0 :: d1 :: rest)) with (Ret (A:=nat) d0).
  cbv beta iota. unfold bind at 1, get_rider. cbv beta iota.
  unfold bind at 1, get_driver. cbv beta iota.
  unfold bind at 1, lift at 1. cbv zeta.
  destruct (get_travel_time _ _) as [t0|e]; [|reflexivity].
  cbv beta iota. unfold bind at 1.
  destruct (request_driver_loop _ _ _ _ _) as [[[f s]|e] w']; [|reflexivity].
  cbv beta iota. unfold bind at 1, lift at 1.
  destruct (Queue.spcl_remove _ _ _) as [r|e]; reflexivity.
Qed.

Lemma request_driver_many (rider : nat) (w : World) (ts : list Z) :
  (2 <= length (avail_dr (dispatcher w)))%nat ->
  travel_times w (rd_origin (riders w !!! rider)) (avail_dr (dispatcher w)) ts ->
  exists i d t,
    avail_dr (dispatcher w) !! i = Some d /\ ts !! i = Some t
    /\ (forall j t', ts !! j = Some t' -> t <= t' /\ ((j < i)%nat -> t < t'))
    /\ Queue.spcl_remove (driver_ref_eq w) d (avail_dr (dispatcher w))
       = Ret (delete i (avail_dr (dispatcher w)))
    /\ request_driver rider w
       = (Ret (Some d), set_avail_dr (delete i (avail_dr (dispatcher w))) w).
Proof.
  intros Hlen Hts.
  set (origin := rd_origin (riders w !!! rider)) in *.
  destruct (avail_dr (dispatcher w)) as [|d0 [|d1 rest]] eqn:Havail;
    simpl in Hlen; try lia.
  assert (Hts0 := Hts). inversion Hts0 as [|? t0 ? ts' Hd0 Hrest]; subst.
  destruct (request_driver_loop_spec origin w _ _ Hts d0 t0)
    as (f & s & Hrun & Hcase).
  assert (Hsel : exists i, (d0 :: d1 :: rest) !! i = Some f
            /\ (t0 :: ts') !! i = Some s
            /\ forall j t', (t0 :: ts') !! j = Some t' ->
                 s <= t' /\ ((j < i)%nat -> s < t')).
  { destruct Hcase as [(-> & -> & Hall)|(i & Hi & Hti & _ & Hall)].
    - exists 0%nat. repeat split; try reflexivity.
      + eapply Hall; eassumption.
      + lia.
    - exists i. auto. }
  destruct Hsel as (i & Hi & Hti & Hmin).
  assert (Hrem : Queue.spcl_remove (driver_ref_eq w) f (d0 :: d1 :: rest)
                 = Ret (delete i (d0 :: d1 :: rest))).
  { unfold Queue.spcl_remove.
    apply (list_remove_first _ _ _ i f); [assumption|apply driver_ref_eq_refl|].
    intros j y Hj Hy.
    destruct (driver_ref_eq w y f) eqn:Heq; [exfalso|reflexivity].
    apply (driver_ref_eq_travel_time w y f (Some origin)) in Heq.
    destruct (Forall2_lookup_l _ _ _ _ _ Hts Hy) as (ty & Hty & Hy').
    destruct (Forall2_lookup_l _ _ _ _ _ Hts Hi) as (tf & Htf & Hf').
    assert (tf = s) by congruence. subst tf.
    assert (ty = s) by congruence. subst ty.
    destruct (Hmin j s Hty) as [_ Hstrict]. specialize (Hstrict Hj). lia. }
  exists i, f, s. repeat split; try assumption; try (eapply Hmin; eassumption).
  rewrite request_driver_unfold, Havail. cbv zeta. fold origin.
  rewrite Hd0, Hrun, Havail, Hrem. reflexivity.
Qed.

(** The three branches of [request_driver], in terms of the travel times the
    code computes: with no idle driver it enqueues the rider and returns
    [None]; with exactly one it removes and returns that driver without
    computing a travel time; with several, whose computed travel times to
    the rider's origin are [ts], it returns the driver at the first position
    of the strictly smallest computed travel time, and removing it by value
    deletes exactly that position of the idle pool. *)
Theorem request_driver_branches (rider : nat) (w : World) :
  let avail := avail_dr (dispatcher w) in
  let origin := rd_origin (riders w !!! rider) in
  (avail = [] ->
     request_driver rider w
     = (Ret None, set_wait_rd (wait_rd (dispatcher w) ++ [rider]) w))
  /\ (forall d, avail = [d] ->
        request_driver rider w = (Ret (Some d), set_avail_dr [] w))
  /\ (forall ts, (2 <= length avail)%nat -> travel_times w origin avail ts ->
        exists i d t,
          avail !! i = Some d /\ ts !! i = Some t
          /\ (forall j t', ts !! j = Some t' ->
                t <= t' /\ ((j < i)%nat -> t < t'))
          /\ Queue.spcl_remove (driver_ref_eq w) d avail
             = Ret (delete i avail)
          /\ request_driver rider w
             = (Ret (Some d), set_avail_dr (delete i avail) w)).
Proof.
  intros avail origin. subst avail origin.
  split; [|split].
  - intros H. rewrite request_driver_unfold, H. reflexivity.
  - intros d H. rewrite request_driver_unfold, H. reflexivity.
  - intros ts Hlen Hts. apply request_driver_many; assumption.
Qed.

Lemma request_driver_branches_witness :
  let w := doctest_world [0%nat; 1%nat] [] in
  exists i d t,
    [0%nat; 1%nat] !! i = Some d /\ [0; 10] !! i = Some t
    /\ (forall j t', [0; 10] !! j = Some t' ->
          t <= t' /\ ((j < i)%nat -> t < t'))
    /\ Queue.spcl_remove (driver_ref_eq w) d [0%nat; 1%nat]
       = Ret (delete i [0%nat; 1%nat])
    /\ request_driver 0%nat w
       = (Ret (Some d), set_avail_dr (delete i [0%nat; 1%nat]) w).
Proof.
  apply (request_driver_branches 0%nat (doctest_world [0%nat; 1%nat] [])).
  - simpl. lia.
  - repeat constructor.
Defined.

(** Claim C1 fails where the distances are not binary64 numbers.  In
    [far_world] the idle drivers, both of speed 1, are at (2^53 + 3, 0) and
    (2^53 + 2, 0) and the rider is at (0, 0).  By
    [round(manhattanDistance / speed)] the travel times are 2^53 + 3 and
    2^53 + 2, so the second driver is strictly nearer; the code computes
    2^53 + 2 for both and returns the first. *)
Theorem C1_request_driver_not_nearest :
  let w := far_world in
  let origin := rd_origin (riders w !!! 0%nat) in
  avail_dr (dispatcher w) = [0%nat; 1%nat]
  /\ dr_location (drivers w !!! 0%nat) = Some (mkLocation (2 ^ 53 + 3) 0)
  /\ dr_location (drivers w !!! 1%nat) = Some (mkLocation (2 ^ 53 + 2) 0)
  /\ spec_travel_time (mkLocation (2 ^ 53 + 3) 0) 1 origin = 2 ^ 53 + 3
  /\ spec_travel_time (mkLocation (2 ^ 53 + 2) 0) 1 origin = 2 ^ 53 + 2
  /\ get_travel_time (drivers w !!! 0%nat) (Some origin) = Ret (2 ^ 53 + 2)
  /\ get_travel_time (drivers w !!! 1%nat) (Some origin) = Ret (2 ^ 53 + 2)
  /\ request_driver 0%nat w = (Ret (Some 0%nat), set_avail_dr [1%nat] w).
Proof.
  cbv zeta. repeat split; try (vm_compute; reflexivity).
Qed.

(** The failure does not depend on how [pow] rounds.  With the drivers at
    (2^60 + 1, 0) and (2^60, 0) the squares of the two row differences are
    converted to the same float, 2^120, before [pow] is applied, so the two
    computed travel times are equal whatever [pow] returns, and the first
    driver is kept although the second is strictly nearer. *)
Lemma request_driver_not_nearest_any_pow :
  let w := remote_world in
  let origin := rd_origin (riders w !!! 0%nat) in
  float_of_int ((row origin - (2 ^ 60 + 1)) ^ 2)
  = float_of_int ((row origin - 2 ^ 60) ^ 2)
  /\ float_of_int ((column origin - 0) ^ 2) = Ret (S754_zero false)
  /\ spec_travel_time (mkLocation (2 ^ 60 + 1) 0) 1 origin = 2 ^ 60 + 1
  /\ spec_travel_time (mkLocation (2 ^ 60) 0) 1 origin = 2 ^ 60
  /\ get_travel_time (drivers w !!! 0%nat) (Some origin)
     = get_travel_time (drivers w !!! 1%nat) (Some origin)
  /\ request_driver 0%nat w = (Ret (Some 0%nat), set_avail_dr [1%nat] w).
Proof.
  cbv zeta. repeat split; vm_compute; reflexivity.
Qed.

(** * Equations of the events *)

Lemma RiderRequest_do_eq (t : Z) (rider : nat) (w : World) :
  let r := riders w !!! rider in
  let w1 := set_monitor
              (Monitor_notify t RIDER REQUEST (rd_identifier r)
                 (Some (rd_origin r)) (monitor w)) w in
  RiderRequest_do t rider w
  = match request_driver rider w1 with
    | (Raise e, w2) => (Raise e, w2)
    | (Ret None, w2) =>
        (Ret (Some [Cancellation (t + rd_patience (riders w2 !!! rider)) rider]),
         w2)
    | (Ret (Some d), w2) =>
        match start_drive d (rd_origin (riders w2 !!! rider)) w2 with
        | (Raise e, w3) => (Raise e, w3)
        | (Ret travel_time, w3) =>
            (Ret (Some [Pickup (t + travel_time) rider d;
                        Cancellation (t + rd_patience (riders w3 !!! rider))
                                     rider]),
             w3)
        end
    end.
Proof.
  cbv zeta. unfold RiderRequest_do, bind at 1 2 3, get_rider at 1, notify.
  cbv beta iota zeta.
  destruct (request_driver rider _) as [[[d|]|e] w2]; [| |reflexivity].
  - unfold bind at 1 2 3, get_rider at 1. cbv beta iota.
    destruct (start_drive d _ w2) as [[tt|e] w3]; reflexivity.
  - reflexivity.
Qed.

Lemma DriverRequest_do_eq (t : Z) (driver : nat) (w : World) :
  let d := drivers w !!! driver in
  let w1 := set_monitor
              (Monitor_notify t DRIVER REQUEST (dr_identifier d)
                 (dr_location d) (monitor w)) w in
  DriverRequest_do t driver w
  = match wait_rd (dispatcher w) with
    | [] =>
        (Ret (Some []),
         set_avail_dr (avail_dr (dispatcher w) ++ [driver]) w1)
    | r :: rest =>
        match start_drive driver (rd_origin (riders w !!! r))
                (set_wait_rd rest w1) with
        | (Raise e, w3) => (Raise e, w3)
        | (Ret travel_time, w3) =>
            (Ret (Some [Pickup (t + travel_time) r driver]), w3)
        end
    end.
Proof.
  cbv zeta. unfold DriverRequest_do, bind at 1 2 3, get_driver at 1, notify.
  cbv beta iota zeta. rewrite request_rider_eq.
  change (wait_rd (dispatcher (set_monitor _ w))) with (wait_rd (dispatcher w)).
  destruct (wait_rd (dispatcher w)) as [|r rest]; [reflexivity|].
  cbv beta iota. unfold bind at 1 2, get_rider at 1. cbv beta iota.
  change (riders (set_wait_rd rest _)) with (riders w).
  destruct (start_drive driver _ _) as [[tt|e] w3]; reflexivity.
Qed.

Lemma Cancellation_do_eq (t : Z) (rider : nat) (w : World) :
  let r := riders w !!! rider in
  let w1 := set_monitor
              (Monitor_notify t RIDER CANCEL (rd_identifier r)
                 (Some (rd_origin r)) (monitor w)) w in
  Cancellation_do t rider w
  = (Ret None,
     match rd_status r with
     | WAITING => set_riders (<[rider := set_status CANCELLED r]> (riders w)) w1
     | _ => w1
     end).
Proof.
  cbv zeta. unfold Cancellation_do, bind, get_rider, notify, put_rider, ret.
  cbv beta iota.
  change (riders (set_monitor _ w)) with (riders w).
  destruct (rd_status (riders w !!! rider)); reflexivity.
Qed.

(** The world after the two notifications and [end_drive] of a pickup. *)
Lemma Pickup_do_eq (t : Z) (rider driver : nat) (w : World) :
  let d := drivers w !!! driver in
  let r := riders w !!! rider in
  let w1 :=
    set_drivers
      (<[driver := set_destination None
                     (set_location (dr_destination d) (set_is_idle true d))]>
         (drivers w))
      (set_monitor
         (Monitor_notify t RIDER PICKUP (rd_identifier r) (Some (rd_origin r))
            (Monitor_notify t DRIVER PICKUP (dr_identifier d)
               (dr_destination d) (monitor w))) w) in
  Pickup_do t rider driver w
  = match rd_status r with
    | WAITING =>
        match start_ride driver rider w1 with
        | (Raise e, w2) => (Raise e, w2)
        | (Ret travel_time, w2) =>
            (Ret (Some [Dropoff (t + travel_time) rider driver]), w2)
        end
    | CANCELLED => (Ret (Some [DriverRequest t driver]), w1)
    | SATISFIED => (Ret (Some []), w1)
    end.
Proof.
  cbv zeta.
  unfold Pickup_do, bind at 1 2 3 4 5 6, get_driver at 1, get_rider at 1 2,
    notify.
  cbv beta iota zeta. rewrite end_drive_eq. cbv beta iota zeta.
  change (riders (set_drivers _ _)) with (riders w).
  destruct (rd_status (riders w !!! rider)) eqn:Hst; cbn [bool_decide decide_rel];
    reflexivity.
Qed.

Lemma Dropoff_do_eq (t : Z) (rider driver : nat) (w : World) :
  let d := drivers w !!! driver in
  Dropoff_do t rider driver w
  = (Ret (Some [DriverRequest t driver]),
     set_drivers
       (<[driver := set_destination None
                      (set_location (dr_destination d) (set_is_idle true d))]>
          (drivers w))
       (set_monitor
          (Monitor_notify t DRIVER DROPOFF (dr_identifier d)
             (dr_destination d) (monitor w)) w)).
Proof.
  cbv zeta. unfold Dropoff_do, bind at 1 2 3, get_driver at 1, notify.
  cbv beta iota zeta. rewrite end_ride_eq, end_drive_eq. reflexivity.
Qed.

(** [request_driver] in every state: what it returns and what it changes. *)
Lemma request_driver_cases (rider : nat) (w : World) :
  match request_driver rider w with
  | (Ret None, w') =>
      avail_dr (dispatcher w) = []
      /\ w' = set_wait_rd (wait_rd (dispatcher w) ++ [rider]) w
  | (Ret (Some d), w') =>
      exists i, avail_dr (dispatcher w) !! i = Some d
                /\ w' = set_avail_dr (delete i (avail_dr (dispatcher w))) w
  | (Raise e, w') => w' = w
  end.
Proof.
  destruct (avail_dr (dispatcher w)) as [|d0 [|d1 rest]] eqn:Havail.
  - rewrite request_driver_unfold, Havail. auto.
  - rewrite request_driver_unfold, Havail. exists 0%nat. auto.
  - set (origin := rd_origin (riders w !!! rider)).
    destruct (get_travel_time (drivers w !!! d0) (Some origin)) as [t0|e]
      eqn:Hd0.
    + destruct (request_driver_loop_cases origin w (d0 :: d1 :: rest) d0 t0)
        as [[e He]|[ts Hts]].
      * rewrite request_driver_unfold, Havail. cbv zeta. fold origin.
        rewrite Hd0, He. reflexivity.
      * destruct (request_driver_many rider w ts) as (i & d & t & Hi & _ & _ & _ & Hrun).
        { rewrite Havail. simpl. lia. }
        { rewrite Havail. exact Hts. }
        rewrite Hrun. rewrite Havail in Hi. exists i. rewrite Havail. auto.
    + rewrite request_driver_unfold, Havail. cbv zeta. fold origin.
      rewrite Hd0. reflexivity.
Qed.

(** * Dispatcher.request_rider *)

(** Claim C6: with an empty waiting queue [request_rider] appends the driver
    to the idle pool and returns [None]; otherwise it removes and returns the
    front of the waiting queue, so with R1 enqueued before R2 it returns R1
    and leaves R2. *)
Theorem C6_request_rider (ds : gmap nat Driver) (rs : gmap nat Rider)
    (mon : Monitor) (avail : list nat) (driver : nat) :
  request_rider driver (mkWorld ds rs (mkDispatcher avail []) mon)
  = (Ret None, mkWorld ds rs (mkDispatcher (avail ++ [driver]) []) mon)
  /\ (forall r rest,
        request_rider driver (mkWorld ds rs (mkDispatcher avail (r :: rest)) mon)
        = (Ret (Some r), mkWorld ds rs (mkDispatcher avail rest) mon))
  /\ (forall r1 r2,
        request_rider driver
          (mkWorld ds rs
             (mkDispatcher avail (Queue.add r2 (Queue.add r1 []))) mon)
        = (Ret (Some r1), mkWorld ds rs (mkDispatcher avail [r2]) mon)).
Proof.
  split; [|split]; intros; rewrite request_rider_eq; reflexivity.
Qed.

(** * The value returned by [do] *)

(** Claim C7 fails for [Cancellation]: its [do] has no [return] statement, so
    it returns [None] in every state, where the other four kinds return a
    list whenever they return. *)
Theorem C7_Cancellation_do_returns_None (t : Z) (rider : nat) (w : World) :
  fst (do (Cancellation t rider) w) = Ret None
  /\ forall e res, fst (do e w) = Ret res ->
       match e with
       | Cancellation _ _ => res = None
       | _ => exists events, res = Some events
       end.
Proof.
  split.
  - unfold do. rewrite Cancellation_do_eq. reflexivity.
  - intros e res.
    destruct e as [t' r|t' d|t' r|t' r d|t' r d]; unfold do.
    + rewrite RiderRequest_do_eq. cbv zeta.
      destruct (request_driver r _) as [[[d|]|x] w1].
      * destruct (start_drive d _ w1) as [[tt|x] w2]; simpl;
          intros H; inversion H; eauto.
      * simpl. intros H; inversion H; eauto.
      * discriminate.
    + rewrite DriverRequest_do_eq. cbv zeta.
      destruct (wait_rd (dispatcher w)) as [|r rest].
      * simpl. intros H; inversion H; eauto.
      * destruct (start_drive d _ _) as [[tt|x] w2]; simpl;
          intros H; inversion H; eauto.
    + rewrite Cancellation_do_eq. simpl. intros H; inversion H; auto.
    + rewrite Pickup_do_eq. cbv zeta.
      destruct (rd_status (riders w !!! r)).
      * destruct (start_ride d r _) as [[tt|x] w2]; simpl;
          intros H; inversion H; eauto.
      * simpl. intros H; inversion H; eauto.
      * simpl. intros H; inversion H; eauto.
    + rewrite Dropoff_do_eq. simpl. intros H; inversion H; eauto.
Qed.

(** * manhattan_distance *)

(** Claim C9 fails where the distance is not a binary64 number: from (0, 0)
    to (2^53 + 1, 0) the code returns 2^53, one less than
    |2^53 + 1 - 0| + |0 - 0|. *)
Theorem C9_manhattan_distance_inexact :
  let a := mkLocation 0 0 in
  let b := mkLocation (2 ^ 53 + 1) 0 in
  manhattan_distance a b = Ret (2 ^ 53)
  /\ manhattan_distance a b
     <> Ret (Z.abs (row a - row b) + Z.abs (column a - column b)).
Proof.
  split; vm_compute; [reflexivity|discriminate].
Qed.

(** The failure does not depend on how [pow] rounds: no binary64 number
    truncates to 2^53 + 1, so no evaluation of the float expression in
    [manhattan_distance] can return that distance. *)
Lemma digits2_pos_size (m : positive) : digits2_pos m = Pos.size m.
Proof. induction m; simpl; congruence. Qed.

Lemma pos_lt_pow2_digits (m : positive) :
  Z.pos m < 2 ^ Z.pos (digits2_pos m).
Proof.
  rewrite digits2_pos_size.
  pose proof (Pos.size_gt m) as H.
  apply Pos2Z.pos_lt_pos in H. rewrite Pos2Z.inj_pow in H. exact H.
Qed.

Lemma int_of_float_not_2_53_plus_1 (x : spec_float) :
  valid_binary prec64 emax64 x = true ->
  int_of_float x <> Ret (2 ^ 53 + 1).
Proof.
  destruct x as [s|s| |s m e]; simpl; try discriminate.
  unfold bounded, canonical_mantissa, fexp, emin, prec64, emax64.
  intros H. apply andb_prop in H as [H _]. apply Z.eqb_eq in H.
  pose proof (pos_lt_pow2_digits m) as Hm.
  assert (Hbig : e <= 0 -> Z.pos m < 2 ^ 53).
  { intros He. eapply Z.lt_le_trans; [exact Hm|].
    apply Z.pow_le_mono_r; lia. }
  change (2 ^ 53 + 1) with 9007199254740993.
  change (2 ^ 53) with 9007199254740992 in Hbig.
  destruct (0 <=? e) eqn:He.
  - apply Z.leb_le in He.
    assert (Hpow : 0 < 2 ^ e) by (apply Z.pow_pos_nonneg; lia).
    destruct (Z.eq_dec e 0) as [->|Hne].
    + specialize (Hbig ltac:(lia)).
      destruct s; intros Heq; inversion Heq; lia.
    + assert (Hev : exists k, 2 ^ e = 2 * k).
      { exists (2 ^ (e - 1)). rewrite <- Z.pow_succ_r by lia.
        f_equal. lia. }
      destruct Hev as [k Hk]. rewrite Hk.
      destruct s; intros Heq; inversion Heq; lia.
  - apply Z.leb_gt in He. specialize (Hbig ltac:(lia)).
    assert (Hpow : 0 < 2 ^ (- e)) by (apply Z.pow_pos_nonneg; lia).
    assert (Hlo : 0 <= Z.pos m / 2 ^ (- e)) by (apply Z.div_pos; lia).
    assert (Hhi : Z.pos m / 2 ^ (- e) <= Z.pos m).
    { apply Z.div_le_upper_bound; [lia|]. nia. }
    destruct s; intros Heq; inversion Heq; lia.
Qed.

(** * Pickup *)

(** Claim C3, amended: a [Pickup] at [t] ends the driver's drive; if the
    rider is [WAITING] the driver starts the ride, the rider becomes
    [SATISFIED] and, when the ride's travel time is computed, exactly one
    [Dropoff] at [t] plus that time is emitted; if the rider is [CANCELLED]
    exactly one [DriverRequest] for the driver at [t] is emitted; if the
    rider is [SATISFIED] nothing is emitted. *)
Theorem C3_Pickup_do (t : Z) (rider driver : nat) (w : World) :
  let d := drivers w !!! driver in
  let r := riders w !!! rider in
  let arrived :=
    set_destination None
      (set_location (dr_destination d) (set_is_idle true d)) in
  let riding := set_destination (Some (rd_destination r)) arrived in
  let res := fst (do (Pickup t rider driver) w) in
  let w' := snd (do (Pickup t rider driver) w) in
  dispatcher w' = dispatcher w
  /\ match rd_status r with
     | WAITING =>
         drivers w' !!! driver = riding
         /\ rd_status (riders w' !!! rider) = SATISFIED
         /\ res = obind (get_travel_time riding (Some (rd_destination r)))
                    (fun travel_time =>
                       Ret (Some [Dropoff (t + travel_time) rider driver]))
     | CANCELLED =>
         drivers w' !!! driver = arrived
         /\ riders w' = riders w
         /\ res = Ret (Some [DriverRequest t driver])
     | SATISFIED =>
         drivers w' !!! driver = arrived
         /\ riders w' = riders w
         /\ res = Ret (Some [])
     end.
Proof.
  cbv zeta. unfold do. rewrite Pickup_do_eq. cbv zeta.
  destruct (rd_status (riders w !!! rider)) eqn:Hst.
  - rewrite start_ride_eq. cbv zeta.
    change (riders (set_drivers _ _)) with (riders w).
    change (drivers (set_drivers ?ds _)) with ds.
    rewrite lookup_total_insert_eq, insert_insert_eq.
    set (riding := set_destination _ _).
    destruct (get_travel_time riding _) as [tt|e] eqn:Htt; simpl;
      rewrite !lookup_total_insert_eq; auto.
  - simpl. rewrite lookup_total_insert_eq. auto.
  - simpl. rewrite lookup_total_insert_eq. auto.
Qed.

(** Claim C3 as stated fails: a [Pickup] whose rider is already [SATISFIED]
    emits neither a [Dropoff] nor a [DriverRequest]. *)
Lemma C3_Pickup_of_satisfied_rider_emits_nothing :
  fst (do (Pickup 4 0%nat 0%nat) world_after_pickup) = Ret (Some [])
  /\ ~ exists e, fst (do (Pickup 4 0%nat 0%nat) world_after_pickup)
                 = Ret (Some [e]).
Proof.
  assert (H : fst (do (Pickup 4 0%nat 0%nat) world_after_pickup)
              = Ret (Some [])) by (vm_compute; reflexivity).
  split; [exact H|]. intros [e He]. rewrite H in He. discriminate.
Qed.

(** * Cancellation and the rider's status *)

Lemma request_driver_riders (rider : nat) (w : World) :
  riders (snd (request_driver rider w)) = riders w
  /\ drivers (snd (request_driver rider w)) = drivers w
  /\ monitor (snd (request_driver rider w)) = monitor w.
Proof.
  pose proof (request_driver_cases rider w) as H.
  destruct (request_driver rider w) as [[[d|]|e] w']; simpl.
  - destruct H as (i & _ & ->). auto.
  - destruct H as (_ & ->). auto.
  - subst. auto.
Qed.

(** An event changes the status of a rider only away from [WAITING]. *)
Lemma do_keeps_settled_status (e : Event) (w : World) (r : nat) :
  rd_status (riders w !!! r) <> WAITING ->
  rd_status (riders (snd (do e w)) !!! r) = rd_status (riders w !!! r).
Proof.
  intros Hr.
  destruct e as [t rider|t driver|t rider|t rider driver|t rider driver];
    unfold do.
  - rewrite RiderRequest_do_eq. cbv zeta.
    set (w1 := set_monitor _ w).
    destruct (request_driver_riders rider w1) as (Hrs & _ & _).
    destruct (request_driver rider w1) as [[[d|]|x] w2]; simpl in Hrs.
    + rewrite start_drive_eq. cbv zeta.
      destruct (get_travel_time _ _); simpl; rewrite Hrs; reflexivity.
    + simpl. rewrite Hrs. reflexivity.
    + simpl. rewrite Hrs. reflexivity.
  - rewrite DriverRequest_do_eq. cbv zeta.
    destruct (wait_rd (dispatcher w)) as [|x rest]; [reflexivity|].
    rewrite start_drive_eq. cbv zeta.
    destruct (get_travel_time _ _); reflexivity.
  - rewrite Cancellation_do_eq. cbv zeta. simpl.
    destruct (rd_status (riders w !!! rider)) eqn:Hst; try reflexivity.
    simpl. destruct (decide (rider = r)) as [->|Hne]; [congruence|].
    rewrite lookup_total_insert_ne by assumption. reflexivity.
  - rewrite Pickup_do_eq. cbv zeta.
    destruct (rd_status (riders w !!! rider)) eqn:Hst; try reflexivity.
    rewrite start_ride_eq. cbv zeta.
    destruct (decide (rider = r)) as [->|Hne]; [congruence|].
    destruct (get_travel_time _ _); simpl;
      rewrite lookup_total_insert_ne by assumption; reflexivity.
  - rewrite Dropoff_do_eq. reflexivity.
Qed.

Lemma sim_step_world (s s' : Simulation) :
  sim_step s = Some (Ret s') ->
  exists e, sim_events s !! 0%nat = Some e
            /\ sim_world s' = snd (do e (sim_world s)).
Proof.
  unfold sim_step. destruct (sim_events s) as [|e rest]; [discriminate|].
  simpl. destruct (do e (sim_world s)) as [[res|x] w'] eqn:Hdo;
    [|discriminate].
  intros H. inversion H; subst. exists e. rewrite Hdo. auto.
Qed.

(** Claim C4: a [Cancellation] returns after the notification with the
    rider's status set to [CANCELLED] if it was [WAITING], and with nothing
    else changed; a status other than [WAITING], in particular [SATISFIED],
    is left as it is by every event, and so by every run of the engine. *)
Theorem C4_Cancellation_and_settled_status (w : World) (r : nat) :
  (forall t rider,
     let x := riders w !!! rider in
     let w' := snd (do (Cancellation t rider) w) in
     drivers w' = drivers w
     /\ dispatcher w' = dispatcher w
     /\ monitor w'
        = Monitor_notify t RIDER CANCEL (rd_identifier x) (Some (rd_origin x))
            (monitor w)
     /\ riders w'
        = match rd_status x with
          | WAITING => <[rider := set_status CANCELLED x]> (riders w)
          | _ => riders w
          end)
  /\ (rd_status (riders w !!! r) <> WAITING ->
      (forall e : Event,
         rd_status (riders (snd (do e w)) !!! r) = rd_status (riders w !!! r))
      /\ (forall evs s',
            sim_reachable (mkSimulation evs w) s' ->
            rd_status (riders (sim_world s') !!! r)
            = rd_status (riders w !!! r))).
Proof.
  split.
  - intros t rider. cbv zeta. unfold do. rewrite Cancellation_do_eq.
    cbv zeta. simpl. destruct (rd_status (riders w !!! rider)); auto.
  - intros Hr. split.
    + intros e. apply do_keeps_settled_status. assumption.
    + intros evs s' Hreach. induction Hreach as [|s s' Hreach IH Hstep].
      * reflexivity.
      * apply sim_step_world in Hstep as (e & _ & ->).
        rewrite do_keeps_settled_status; [exact IH|]. rewrite IH. exact Hr.
Qed.

Lemma C4_witness :
  (forall e : Event,
     rd_status (riders (snd (do e world_after_pickup)) !!! 0%nat)
     = rd_status (riders world_after_pickup !!! 0%nat))
  /\ (forall evs s',
        sim_reachable (mkSimulation evs world_after_pickup) s' ->
        rd_status (riders (sim_world s') !!! 0%nat)
        = rd_status (riders world_after_pickup !!! 0%nat)).
Proof.
  apply (C4_Cancellation_and_settled_status world_after_pickup 0%nat).
  vm_compute. discriminate.
Defined.

(** * The engine: runs and reachable states *)

Lemma reach_step_left (s0 s1 s : Simulation) :
  sim_step s0 = Some (Ret s1) -> sim_reachable s1 s -> sim_reachable s0 s.
Proof.
  intros Hstep Hreach. induction Hreach as [|s s' Hreach IH Hs].
  - eapply reach_step; [apply reach_init|exact Hstep].
  - eapply reach_step; [exact IH|exact Hs].
Qed.

Lemma sim_run_reachable (fuel : nat) (s0 s : Simulation) :
  sim_run fuel s0 = Ret s -> sim_reachable s0 s.
Proof.
  revert s0. induction fuel as [|fuel IH]; intros s0; simpl.
  - intros H. inversion H. apply reach_init.
  - destruct (sim_step s0) as [[s1|x]|] eqn:Hstep.
    + intros H. eapply reach_step_left; [exact Hstep|]. apply IH. exact H.
    + discriminate.
    + intros H. inversion H. apply reach_init.
Qed.

(** * The dispatcher's pools under cancellation *)

(** Claim C2 fails on the code: after Godzilla's request at time 0 with no
    driver and the cancellation at time 10, the engine has no event left;
    the rider's status is [CANCELLED] and the rider is still in the waiting
    queue. *)
Theorem C2_cancelled_rider_stays_in_wait_rd :
  exists s,
    sim_reachable (sim_init lone_rider_seeds doctest_drivers doctest_riders) s
    /\ sim_events s = []
    /\ rd_status (riders (sim_world s) !!! 1%nat) = CANCELLED
    /\ 1%nat ∈ wait_rd (dispatcher (sim_world s)).
Proof.
  destruct (sim_run 2 (sim_init lone_rider_seeds doctest_drivers doctest_riders))
    as [s|x] eqn:Hrun; [|vm_compute in Hrun; discriminate].
  exists s. split; [eapply sim_run_reachable; exact Hrun|].
  vm_compute in Hrun. inversion Hrun; subst s. clear Hrun.
  split; [reflexivity|]. split; [vm_compute; reflexivity|].
  simpl. apply list_elem_of_here.
Qed.

(** With a driver that registers after the cancellation, the dispatcher hands
    out the cancelled rider: after three events a [Pickup] of the rider is
    pending although the rider's status is [CANCELLED]. *)
Example cancelled_rider_is_dispatched :
  exists s,
    sim_run 3 (sim_init late_driver_seeds doctest_drivers doctest_riders)
    = Ret s
    /\ sim_events s = [Pickup 20 1%nat 1%nat]
    /\ rd_status (riders (sim_world s) !!! 1%nat) = CANCELLED.
Proof.
  eexists. split; [vm_compute; reflexivity|].
  split; [reflexivity|]. vm_compute. reflexivity.
Qed.

(** * Drivers during a ride *)

Lemma add_Permutation {A} (le : A -> A -> bool) (item : A) (items : list A) :
  PriorityQueue.add le item items ≡ₚ item :: items.
Proof.
  unfold PriorityQueue.add, PriorityQueue.list_insert_at.
  rewrite <- Permutation_middle, take_drop. reflexivity.
Qed.

Lemma schedule_Permutation (new_events queue : list Event) :
  schedule new_events queue ≡ₚ new_events ++ queue.
Proof.
  unfold schedule. revert queue.
  induction new_events as [|e new_events IH]; intros queue; simpl.
  - reflexivity.
  - rewrite IH, add_Permutation. symmetry. apply Permutation_middle.
Qed.

Lemma flat_map_Permutation {A B} (f : A -> list B) (l k : list A) :
  l ≡ₚ k -> flat_map f l ≡ₚ flat_map f k.
Proof. apply Permutation_flat_map. Qed.

Ltac not_among_new H :=
  repeat (apply elem_of_cons in H as [H|H]; [discriminate H|]);
  apply elem_of_nil in H; destruct H.

(** What an event does to the drivers: the drivers of the idle pool and of
    the new events come from the idle pool and the event itself; no other
    driver is modified; a [Dropoff] is scheduled for an idle driver only. *)
Lemma do_driver_effect (e : Event) (w w' : World)
    (res : option (list Event)) :
  do e w = (Ret res, w') ->
  avail_dr (dispatcher w') ++ flat_map event_driver (default [] res)
    ⊆+ avail_dr (dispatcher w) ++ event_driver e
  /\ (forall d, d ∉ avail_dr (dispatcher w) ++ event_driver e ->
        drivers w' !!! d = drivers w !!! d)
  /\ (forall t r d, Dropoff t r d ∈ default [] res ->
        is_idle (drivers w' !!! d) = true).
Proof.
  destruct e as [t rider|t driver|t rider|t rider driver|t rider driver];
    unfold do.
  - rewrite RiderRequest_do_eq. cbv zeta. set (w1 := set_monitor _ w).
    pose proof (request_driver_cases rider w1) as Hcases.
    destruct (request_driver rider w1) as [[[d|]|x] w2]; [| |discriminate].
    + destruct Hcases as (i & Hi & ->). rewrite start_drive_eq. cbv zeta.
      destruct (get_travel_time _ _) as [tt|x]; [|discriminate].
      intros H. inversion H; subst; clear H. simpl.
      change (avail_dr (dispatcher w1)) with (avail_dr (dispatcher w)) in *.
      split; [|split].
      * rewrite app_nil_r. apply Permutation_submseteq.
        rewrite (delete_Permutation _ _ _ Hi) at 2.
        rewrite Permutation_app_comm. reflexivity.
      * intros d' Hd'. rewrite app_nil_r in Hd'.
        rewrite lookup_total_insert_ne; [reflexivity|].
        intros ->. apply Hd'. eapply list_elem_of_lookup_2. exact Hi.
      * intros t' r' d' H. not_among_new H.
    + destruct Hcases as (_ & ->). intros H. inversion H; subst; clear H.
      simpl. split; [|split].
      * reflexivity.
      * reflexivity.
      * intros t' r' d' H. not_among_new H.
  - rewrite DriverRequest_do_eq. cbv zeta.
    destruct (wait_rd (dispatcher w)) as [|r rest].
    + intros H. inversion H; subst; clear H. simpl.
      split; [|split].
      * rewrite app_nil_r. reflexivity.
      * reflexivity.
      * intros t' r' d' H. not_among_new H.
    + rewrite start_drive_eq. cbv zeta.
      destruct (get_travel_time _ _) as [tt|x]; [|discriminate].
      intros H. inversion H; subst; clear H. simpl.
      split; [|split].
      * reflexivity.
      * intros d' Hd'. rewrite lookup_total_insert_ne; [reflexivity|].
        intros ->. apply Hd'. apply elem_of_app. right.
        apply list_elem_of_here.
      * intros t' r' d' H. not_among_new H.
  - rewrite Cancellation_do_eq. cbv zeta.
    intros H. inversion H; subst; clear H. simpl.
    split; [|split].
    + destruct (rd_status _); reflexivity.
    + intros d' _. destruct (rd_status _); reflexivity.
    + intros t' r' d' H. not_among_new H.
  - rewrite Pickup_do_eq. cbv zeta.
    destruct (rd_status (riders w !!! rider)).
    + rewrite start_ride_eq. cbv zeta.
      destruct (get_travel_time _ _) as [tt|x]; [|discriminate].
      intros H. inversion H; subst; clear H. simpl.
      split; [|split].
      * reflexivity.
      * intros d' Hd'. rewrite !lookup_total_insert_ne; [reflexivity|..];
          intros ->; apply Hd'; apply elem_of_app; right;
          apply list_elem_of_here.
      * intros t' r' d' H. apply elem_of_cons in H as [H|H].
        -- inversion H; subst. rewrite !lookup_total_insert_eq. reflexivity.
        -- apply elem_of_nil in H. destruct H.
    + intros H. inversion H; subst; clear H. simpl.
      split; [|split].
      * reflexivity.
      * intros d' Hd'. rewrite lookup_total_insert_ne; [reflexivity|].
        intros ->. apply Hd'. apply elem_of_app. right.
        apply list_elem_of_here.
      * intros t' r' d' H. not_among_new H.
    + intros H. inversion H; subst; clear H. simpl.
      split; [|split].
      * rewrite app_nil_r. apply submseteq_inserts_r. reflexivity.
      * intros d' Hd'. rewrite lookup_total_insert_ne; [reflexivity|].
        intros ->. apply Hd'. apply elem_of_app. right.
        apply list_elem_of_here.
      * intros t' r' d' H. not_among_new H.
  - rewrite Dropoff_do_eq. cbv zeta.
    intros H. inversion H; subst; clear H. simpl.
    split; [|split].
    + reflexivity.
    + intros d' Hd'. rewrite lookup_total_insert_ne; [reflexivity|].
      intros ->. apply Hd'. apply elem_of_app. right.
      apply list_elem_of_here.
    + intros t' r' d' H. not_among_new H.
Qed.

Lemma sim_step_cases (s s' : Simulation) :
  sim_step s = Some (Ret s') ->
  exists e rest res,
    sim_events s = e :: rest
    /\ do e (sim_world s) = (Ret res, sim_world s')
    /\ sim_events s' = schedule (default [] res) rest.
Proof.
  unfold sim_step. destruct (sim_events s) as [|e rest]; [discriminate|].
  simpl. destruct (do e (sim_world s)) as [[res|x] w'] eqn:Hdo;
    [|discriminate].
  intros H. inversion H; subst. exists e, rest, res. auto.
Qed.

Lemma submseteq_NoDup {A} (l k : list A) : l ⊆+ k -> NoDup k -> NoDup l.
Proof.
  intros Hsub Hk. apply submseteq_Permutation in Hsub as [k' Hk'].
  rewrite Hk' in Hk. apply NoDup_app in Hk as (H & _ & _). exact H.
Qed.

Lemma sim_step_riding_drivers_idle (s s' : Simulation) :
  sim_step s = Some (Ret s') ->
  NoDup (engaged_drivers s) -> riding_drivers_idle s ->
  NoDup (engaged_drivers s') /\ riding_drivers_idle s'.
Proof.
  intros Hstep Hnd Hidle.
  apply sim_step_cases in Hstep as (e & rest & res & Hev & Hdo & Hev').
  apply do_driver_effect in Hdo as (Hsub & Hframe & Hnew).
  unfold engaged_drivers, riding_drivers_idle in *.
  rewrite Hev in Hnd, Hidle. rewrite Hev'. simpl in Hnd.
  rewrite app_assoc in Hnd.
  split.
  - eapply submseteq_NoDup; [|exact Hnd].
    rewrite (flat_map_Permutation _ _ _ (schedule_Permutation _ _)).
    rewrite flat_map_app, app_assoc.
    apply submseteq_app; [exact Hsub|reflexivity].
  - intros t r d Hin.
    rewrite schedule_Permutation in Hin. apply elem_of_app in Hin as [Hin|Hin].
    + eapply Hnew. exact Hin.
    + rewrite Hframe.
      * eapply Hidle. apply elem_of_cons. right. exact Hin.
      * apply NoDup_app in Hnd as (_ & Hdisj & _).
        intros Hd. apply (Hdisj d Hd).
        apply list_elem_of_In, in_flat_map. exists (Dropoff t r d).
        split; [apply list_elem_of_In; exact Hin|]. simpl. auto.
Qed.

Lemma sim_init_riding_drivers_idle (seeds : list Event)
    (ds : gmap nat Driver) (rs : gmap nat Rider) :
  seeds_ok seeds ->
  NoDup (engaged_drivers (sim_init seeds ds rs))
  /\ riding_drivers_idle (sim_init seeds ds rs).
Proof.
  intros [Hreq Hnd]. unfold engaged_drivers, riding_drivers_idle. simpl.
  split.
  - rewrite (flat_map_Permutation _ _ _ (schedule_Permutation _ _)).
    rewrite app_nil_r. exact Hnd.
  - intros t r d Hin. rewrite schedule_Permutation, app_nil_r in Hin.
    rewrite forallb_forall in Hreq.
    apply list_elem_of_In, Hreq in Hin. discriminate Hin.
Qed.

(** Claim C10: [start_ride] changes the driver's destination and the rider's
    status and nothing else, so it leaves [is_idle] as it is; [Pickup.do]
    calls [end_drive] first, so the driver is idle when it returns; and in
    every state the engine reaches from its seeds, a driver whose [Dropoff]
    is pending, that is a driver on a ride, has [is_idle] equal to [True]. *)
Theorem C10_driver_idle_during_ride (seeds : list Event)
    (ds : gmap nat Driver) (rs : gmap nat Rider) :
  (forall self rider w,
     let r := riders w !!! rider in
     let w' := snd (start_ride self rider w) in
     drivers w'
     = <[self := set_destination (Some (rd_destination r))
                   (drivers w !!! self)]> (drivers w)
     /\ riders w' = <[rider := set_status SATISFIED r]> (riders w)
     /\ dispatcher w' = dispatcher w
     /\ monitor w' = monitor w
     /\ is_idle (drivers w' !!! self) = is_idle (drivers w !!! self))
  /\ (forall t rider driver w,
        is_idle (drivers (snd (do (Pickup t rider driver) w)) !!! driver)
        = true)
  /\ (seeds_ok seeds ->
      forall s, sim_reachable (sim_init seeds ds rs) s ->
                riding_drivers_idle s).
Proof.
  split; [|split].
  - intros self rider w. cbv zeta. rewrite start_ride_eq. cbv zeta.
    destruct (get_travel_time _ _); simpl;
      rewrite lookup_total_insert_eq; auto.
  - intros t rider driver w. unfold do. rewrite Pickup_do_eq. cbv zeta.
    destruct (rd_status (riders w !!! rider)).
    + rewrite start_ride_eq. cbv zeta.
      destruct (get_travel_time _ _); simpl;
        rewrite !lookup_total_insert_eq; reflexivity.
    + simpl. rewrite lookup_total_insert_eq. reflexivity.
    + simpl. rewrite lookup_total_insert_eq. reflexivity.
  - intros Hseeds s Hreach.
    enough (NoDup (engaged_drivers s) /\ riding_drivers_idle s) as [_ H]
      by exact H.
    induction Hreach as [|s s' Hreach IH Hstep].
    + apply sim_init_riding_drivers_idle. exact Hseeds.
    + destruct IH as [Hnd Hidle].
      eapply sim_step_riding_drivers_idle; eassumption.
Qed.

Lemma C10_witness :
  seeds_ok one_ride_seeds
  /\ forall s,
       sim_reachable (sim_init one_ride_seeds doctest_drivers doctest_riders) s ->
       riding_drivers_idle s.
Proof.
  assert (Hseeds : seeds_ok one_ride_seeds).
  { split; [reflexivity|]. simpl. apply NoDup_singleton. }
  split; [exact Hseeds|].
  apply (C10_driver_idle_during_ride one_ride_seeds doctest_drivers
           doctest_riders).
  exact Hseeds.
Defined.

(** In the run of [one_ride_seeds] the ride is under way after three events:
    the [Dropoff] is pending and Charles is idle. *)
Example one_ride_under_way :
  exists s,
    sim_run 3 (sim_init one_ride_seeds doctest_drivers doctest_riders) = Ret s
    /\ sim_events s = [Dropoff 4 0%nat 0%nat; Cancellation 101 0%nat]
    /\ is_idle (drivers (sim_world s) !!! 0%nat) = true
    /\ rd_status (riders (sim_world s) !!! 0%nat) = SATISFIED.
Proof.
  eexists. split; [vm_compute; reflexivity|].
  split; [reflexivity|]. split; vm_compute; reflexivity.
Qed.

(** * Pickups during a run of the engine *)

(** What an event does to the riders: the riders of the waiting queue and of
    the new events come from the waiting queue and the event itself; a rider
    becomes [SATISFIED] only as the rider of the event, which is then in
    neither. *)
Lemma do_rider_effect (e : Event) (w w' : World)
    (res : option (list Event)) :
  do e w = (Ret res, w') ->
  wait_rd (dispatcher w') ++ flat_map event_rider (default [] res)
    ⊆+ wait_rd (dispatcher w) ++ event_rider e
  /\ (forall r, rd_status (riders w' !!! r) = SATISFIED ->
        rd_status (riders w !!! r) = SATISFIED
        \/ (r ∈ event_rider e
            /\ wait_rd (dispatcher w')
                 ++ flat_map event_rider (default [] res)
               ⊆+ wait_rd (dispatcher w))).
Proof.
  destruct e as [t rider|t driver|t rider|t rider driver|t rider driver];
    unfold do.
  - rewrite RiderRequest_do_eq. cbv zeta. set (w1 := set_monitor _ w).
    pose proof (request_driver_cases rider w1) as Hcases.
    destruct (request_driver rider w1) as [[[d|]|x] w2]; [| |discriminate].
    + destruct Hcases as (i & Hi & ->). rewrite start_drive_eq. cbv zeta.
      destruct (get_travel_time _ _) as [tt|x]; [|discriminate].
      intros H. inversion H; subst; clear H. simpl.
      split; [reflexivity|]. intros r Hr. left. exact Hr.
    + destruct Hcases as (_ & ->). intros H. inversion H; subst; clear H.
      simpl. split; [rewrite app_nil_r; reflexivity|].
      intros r Hr. left. exact Hr.
  - rewrite DriverRequest_do_eq. cbv zeta.
    destruct (wait_rd (dispatcher w)) as [|r rest] eqn:Hwait.
    + intros H. inversion H; subst; clear H. simpl. rewrite Hwait.
      split; [reflexivity|]. intros r Hr. left. exact Hr.
    + rewrite start_drive_eq. cbv zeta.
      destruct (get_travel_time _ _) as [tt|x]; [|discriminate].
      intros H. inversion H; subst; clear H. simpl.
      split.
      * rewrite app_nil_r. apply Permutation_submseteq.
        rewrite Permutation_app_comm. reflexivity.
      * intros r' Hr. left. exact Hr.
  - rewrite Cancellation_do_eq. cbv zeta.
    intros H. inversion H; subst; clear H.
    split.
    + destruct (rd_status _); simpl; reflexivity.
    + intros r Hr. left.
      destruct (rd_status (riders w !!! rider)) eqn:Hst; try exact Hr.
      simpl in Hr. destruct (decide (rider = r)) as [->|Hne].
      * rewrite lookup_total_insert_eq in Hr. discriminate Hr.
      * rewrite lookup_total_insert_ne in Hr by assumption. exact Hr.
  - rewrite Pickup_do_eq. cbv zeta.
    destruct (rd_status (riders w !!! rider)) eqn:Hst.
    + rewrite start_ride_eq. cbv zeta.
      destruct (get_travel_time _ _) as [tt|x]; [|discriminate].
      intros H. inversion H; subst; clear H. simpl.
      split; [rewrite app_nil_r; apply submseteq_inserts_r; reflexivity|].
      intros r Hr. destruct (decide (rider = r)) as [->|Hne].
      * right. split; [apply list_elem_of_here|].
        rewrite app_nil_r. reflexivity.
      * left. rewrite lookup_total_insert_ne in Hr by assumption. exact Hr.
    + intros H. inversion H; subst; clear H. simpl.
      split; [rewrite app_nil_r; apply submseteq_inserts_r; reflexivity|].
      intros r Hr. left. exact Hr.
    + intros H. inversion H; subst; clear H. simpl.
      split; [rewrite app_nil_r; apply submseteq_inserts_r; reflexivity|].
      intros r Hr. left. exact Hr.
  - rewrite Dropoff_do_eq. cbv zeta.
    intros H. inversion H; subst; clear H. simpl.
    split; [reflexivity|]. intros r Hr. left. exact Hr.
Qed.

Lemma sim_step_engaged_riders (s s' : Simulation) :
  sim_step s = Some (Ret s') ->
  NoDup (engaged_riders s) -> engaged_riders_unsatisfied s ->
  NoDup (engaged_riders s') /\ engaged_riders_unsatisfied s'.
Proof.
  intros Hstep Hnd Hok.
  apply sim_step_cases in Hstep as (e & rest & res & Hev & Hdo & Hev').
  apply do_rider_effect in Hdo as (Hsub & Hsat).
  unfold engaged_riders_unsatisfied, engaged_riders in *.
  rewrite Hev in Hnd, Hok. rewrite Hev'. simpl in Hnd, Hok.
  rewrite app_assoc in Hnd, Hok.
  assert (Hperm : forall l : list nat,
            l ++ flat_map event_rider (schedule (default [] res) rest)
            ≡ₚ (l ++ flat_map event_rider (default [] res))
               ++ flat_map event_rider rest).
  { intros l.
    rewrite (flat_map_Permutation _ _ _ (schedule_Permutation _ _)).
    rewrite flat_map_app, app_assoc. reflexivity. }
  split.
  - eapply submseteq_NoDup; [|exact Hnd].
    rewrite Hperm. apply submseteq_app; [exact Hsub|reflexivity].
  - intros r Hin Hr. rewrite Hperm in Hin.
    destruct (Hsat r Hr) as [Hold|[Hre Hsub']].
    + apply (Hok r); [|exact Hold].
      eapply elem_of_submseteq; [exact Hin|].
      apply submseteq_app; [exact Hsub|reflexivity].
    + apply NoDup_app in Hnd as (Hnd1 & Hdisj & _).
      apply NoDup_app in Hnd1 as (_ & Hdisj1 & _).
      apply elem_of_app in Hin as [Hin|Hin].
      * apply (Hdisj1 r); [|exact Hre].
        eapply elem_of_submseteq; [exact Hin|exact Hsub'].
      * apply (Hdisj r); [|exact Hin]. apply elem_of_app. right. exact Hre.
Qed.

(** In every state the engine reaches from such seeds, no pending [Pickup] is
    for a [SATISFIED] rider: the engine does not take the branch of
    [Pickup.do] that emits nothing. *)
Lemma sim_reachable_pickup_not_satisfied (seeds : list Event)
    (ds : gmap nat Driver) (rs : gmap nat Rider) (s : Simulation) :
  rider_seeds_ok seeds rs ->
  sim_reachable (sim_init seeds ds rs) s ->
  forall t r d, Pickup t r d ∈ sim_events s ->
                rd_status (riders (sim_world s) !!! r) <> SATISFIED.
Proof.
  intros (Hreq & Hnd & Hst) Hreach.
  assert (Hinv : NoDup (engaged_riders s) /\ engaged_riders_unsatisfied s).
  { induction Hreach as [|s s' Hreach IH Hstep].
    - unfold engaged_riders_unsatisfied, engaged_riders. simpl.
      pose proof (flat_map_Permutation event_rider _ _
                    (schedule_Permutation seeds [])) as Hperm.
      rewrite app_nil_r in Hperm. split.
      + rewrite Hperm. exact Hnd.
      + intros r Hin. rewrite Hperm in Hin. apply Hst. exact Hin.
    - destruct IH as [Hnd' Hok].
      eapply sim_step_engaged_riders; eassumption. }
  destruct Hinv as [_ Hok]. intros t r d Hin. apply Hok.
  unfold engaged_riders. apply elem_of_app. right.
  apply list_elem_of_In, in_flat_map. exists (Pickup t r d).
  split; [apply list_elem_of_In; exact Hin|]. simpl. auto.
Qed.

(** So a [Pickup] the engine executes emits exactly one event whenever it
    returns: a [Dropoff] or a [DriverRequest]. *)
Lemma sim_reachable_pickup_emits_one (seeds : list Event)
    (ds : gmap nat Driver) (rs : gmap nat Rider) (s : Simulation)
    (t : Z) (r d : nat) (rest : list Event)
    (res : option (list Event)) (w' : World) :
  rider_seeds_ok seeds rs ->
  sim_reachable (sim_init seeds ds rs) s ->
  sim_events s = Pickup t r d :: rest ->
  do (Pickup t r d) (sim_world s) = (Ret res, w') ->
  (exists travel_time, res = Some [Dropoff (t + travel_time) r d])
  \/ res = Some [DriverRequest t d].
Proof.
  intros Hseeds Hreach Hev.
  pose proof (sim_reachable_pickup_not_satisfied _ _ _ _ Hseeds Hreach t r d)
    as Hns.
  rewrite Hev in Hns. specialize (Hns (list_elem_of_here _ _)).
  unfold do. rewrite Pickup_do_eq. cbv zeta.
  destruct (rd_status (riders (sim_world s) !!! r)); [| |congruence].
  - destruct (start_ride d r _) as [[tt|x] w2]; [|discriminate].
    intros H. inversion H; subst. left. exists tt. reflexivity.
  - intros H. inversion H; subst. right. reflexivity.
Qed.

(** * Further properties of the containers *)

Lemma Queue_add_all_app {A} (xs items : list A) :
  Queue_add_all xs items = items ++ xs.
Proof.
  unfold Queue_add_all. revert items.
  induction xs as [|x xs IH]; intros items; simpl.
  - rewrite app_nil_r. reflexivity.
  - rewrite IH. unfold Queue.add. rewrite <- app_assoc. reflexivity.
Qed.

Lemma Queue_removals_all {A} (items : list A) :
  Queue_removals (length items) items = items.
Proof.
  induction items as [|x rest IH]; simpl; [reflexivity|].
  f_equal. exact IH.
Qed.

(** X1: a [Queue] is first in, first out.  After adding [xs] one by one to a
    queue holding [items], as many [remove] calls as the queue is long return
    the old items and then [xs], each in the order it was added, and the next
    [remove] fails. *)
Theorem X1_Queue_fifo {A} (xs items : list A) :
  let q := Queue_add_all xs items in
  Queue.length q = Queue.length items + Z.of_nat (length xs)
  /\ Queue_removals (length items + length xs) q = items ++ xs
  /\ Queue_removals (S (length items + length xs)) q = items ++ xs
  /\ Queue.remove (drop (length items + length xs) q) = Raise AssertionError.
Proof.
  cbv zeta. rewrite Queue_add_all_app.
  assert (Hlen : (length items + length xs)%nat = length (items ++ xs))
    by (rewrite length_app; reflexivity).
  rewrite Hlen. split; [|split; [|split]].
  - unfold Queue.length. rewrite length_app. lia.
  - apply Queue_removals_all.
  - generalize (items ++ xs). intros l.
    induction l as [|x l IH]; simpl; [reflexivity|]. f_equal. exact IH.
  - rewrite drop_all. reflexivity.
Qed.

(** X2: [spcl_remove] deletes the first item that equals the argument and
    keeps every other item in place; when no item equals it, it raises
    [ValueError]. *)
Theorem X2_Queue_spcl_remove {A} (eqb : A -> A -> bool) (item : A)
    (items : list A) :
  ((forall x, x ∈ items -> eqb x item = false) ->
   Queue.spcl_remove eqb item items = Raise ValueError)
  /\ (forall l1 x l2,
        items = l1 ++ x :: l2 ->
        (forall y, y ∈ l1 -> eqb y item = false) ->
        eqb x item = true ->
        Queue.spcl_remove eqb item items = Ret (l1 ++ l2)).
Proof.
  unfold Queue.spcl_remove. split.
  - induction items as [|y rest IH]; intros Hno; simpl; [reflexivity|].
    rewrite (Hno y) by apply list_elem_of_here.
    rewrite IH; [reflexivity|].
    intros x Hx. apply Hno. apply list_elem_of_further. exact Hx.
  - intros l1 x l2 -> Hl1 Hx.
    induction l1 as [|y l1 IH]; simpl.
    + rewrite Hx. reflexivity.
    + rewrite (Hl1 y) by apply list_elem_of_here.
      rewrite IH; [reflexivity|].
      intros z Hz. apply Hl1. apply list_elem_of_further. exact Hz.
Qed.

Lemma X2_witness :
  Queue.spcl_remove Z.eqb 7 [1; 2; 3] = Raise ValueError
  /\ Queue.spcl_remove Z.eqb 2 [1; 2; 3; 2] = Ret [1; 3; 2].
Proof.
  split.
  - apply (proj1 (X2_Queue_spcl_remove Z.eqb 7 [1; 2; 3])).
    intros x Hx.
    repeat (apply elem_of_cons in Hx as [->|Hx]; [reflexivity|]).
    apply elem_of_nil in Hx. destruct Hx.
  - apply (proj2 (X2_Queue_spcl_remove Z.eqb 2 [1; 2; 3; 2]) [1] 2 [3; 2]).
    + reflexivity.
    + intros y Hy. apply list_elem_of_singleton in Hy. subst. reflexivity.
    + reflexivity.
Defined.

Section PriorityQueueSorts.
Context {A : Type}.
Variable le : A -> A -> bool.
Hypothesis le_total : forall a b, le a b = true \/ le b a = true.
Hypothesis le_trans :
  forall a b c, le a b = true -> le b c = true -> le a c = true.

Lemma add_all_sorted (xs items : list A) :
  sorted_by le items = true ->
  sorted_by le (PriorityQueue_add_all le xs items) = true.
Proof.
  unfold PriorityQueue_add_all. revert items.
  induction xs as [|x xs IH]; intros items Hs; simpl; [exact Hs|].
  apply IH. apply add_sorted; assumption.
Qed.

Lemma add_all_Permutation (xs items : list A) :
  PriorityQueue_add_all le xs items ≡ₚ items ++ xs.
Proof.
  unfold PriorityQueue_add_all. revert items.
  induction xs as [|x xs IH]; intros items; simpl.
  - rewrite app_nil_r. reflexivity.
  - rewrite IH, add_Permutation. apply Permutation_middle.
Qed.

(** X3: a [PriorityQueue] sorts.  After adding [xs] one by one to an empty
    queue, the [remove] calls return a rearrangement of [xs] in which every
    item is less than or equal to all items returned after it. *)
Theorem X3_PriorityQueue_sorts (xs : list A) :
  let out := removals (length xs) (PriorityQueue_add_all le xs []) in
  out ≡ₚ xs
  /\ length out = length xs
  /\ forall i j x y,
       out !! i = Some x -> out !! j = Some y -> (i < j)%nat ->
       le x y = true.
Proof.
  cbv zeta.
  pose proof (add_all_Permutation xs []) as Hperm. simpl in Hperm.
  assert (Hlen : length xs = length (PriorityQueue_add_all le xs []))
    by (rewrite Hperm; reflexivity).
  assert (Hout : removals (length xs) (PriorityQueue_add_all le xs [])
                 = PriorityQueue_add_all le xs [])
    by (rewrite Hlen at 1; apply removals_all).
  rewrite Hout.
  split; [exact Hperm|]. split; [symmetry; exact Hlen|].
  intros i j x y Hi Hj Hlt.
  eapply (sorted_by_lookup le); [|exact Hi|exact Hj|exact Hlt].
  apply add_all_sorted. reflexivity.
Qed.

Lemma filter_none (P : A -> bool) (items : list A) :
  (forall y, In y items -> P y = false) -> List.filter P items = [].
Proof.
  induction items as [|x rest IH]; intros H; simpl; [reflexivity|].
  rewrite (H x) by (left; reflexivity).
  apply IH. intros y Hy. apply H. right. exact Hy.
Qed.

Lemma filter_add (P : A -> bool) (item : A) (items : list A) :
  (forall y, P item = true -> P y = true -> le y item = true) ->
  sorted_by le items = true ->
  List.filter P (PriorityQueue.add le item items)
  = List.filter P (items ++ [item]).
Proof.
  intros HP. induction items as [|x rest IH]; intros Hs.
  - reflexivity.
  - simpl in Hs. apply andb_prop in Hs as [Hall Hs]. rewrite add_cons.
    destruct (le x item) eqn:Hx.
    + simpl. rewrite IH by assumption. reflexivity.
    + rewrite List.filter_app. simpl.
      destruct (P item) eqn:Hitem.
      * assert (Hx' : P x = false).
        { destruct (P x) eqn:HPx; [|reflexivity].
          rewrite (HP x) in Hx by auto. discriminate. }
        rewrite Hx'.
        assert (Hrest : List.filter P rest = []).
        { apply filter_none. intros y Hy.
          destruct (P y) eqn:HPy; [|reflexivity]. exfalso.
          rewrite forallb_forall in Hall.
          rewrite (le_trans x y item) in Hx;
            [discriminate|apply Hall; exact Hy|apply HP; auto]. }
        rewrite Hrest. reflexivity.
      * rewrite app_nil_r. reflexivity.
Qed.

(** X4: the sort is stable.  Among the items that compare equal to any given
    [x], the [remove] calls keep the order in which they were added. *)
Theorem X4_PriorityQueue_stable (xs : list A) (x : A) :
  let same y := le x y && le y x in
  List.filter same (removals (length xs) (PriorityQueue_add_all le xs []))
  = List.filter same xs.
Proof.
  cbv zeta.
  pose proof (add_all_Permutation xs []) as Hperm. simpl in Hperm.
  assert (Hlen : length xs = length (PriorityQueue_add_all le xs []))
    by (rewrite Hperm; reflexivity).
  assert (Hout : removals (length xs) (PriorityQueue_add_all le xs [])
                 = PriorityQueue_add_all le xs [])
    by (rewrite Hlen at 1; apply removals_all).
  rewrite Hout. clear Hperm Hlen Hout.
  change (List.filter (fun y => le x y && le y x) xs)
    with (List.filter (fun y => le x y && le y x) ([] ++ xs)).
  assert (Hs : sorted_by le (@nil A) = true) by reflexivity.
  revert Hs. generalize (@nil A). unfold PriorityQueue_add_all.
  induction xs as [|z xs IH]; intros items Hs; simpl.
  - rewrite app_nil_r. reflexivity.
  - rewrite IH by (apply add_sorted; assumption).
    rewrite List.filter_app, filter_add, <- List.filter_app; [| |exact Hs].
    + rewrite <- app_assoc. reflexivity.
    + intros y Hz Hy. apply andb_prop in Hz as [Hxz _].
      apply andb_prop in Hy as [_ Hyx]. eapply le_trans; eassumption.
Qed.

End PriorityQueueSorts.

Lemma X3_witness :
  let out := removals 5 (PriorityQueue_add_all Z.leb [3; 1; 2; 3; 0] []) in
  out ≡ₚ [3; 1; 2; 3; 0]
  /\ length out = 5%nat
  /\ forall i j x y,
       out !! i = Some x -> out !! j = Some y -> (i < j)%nat ->
       (x <=? y) = true.
Proof.
  assert (Htotal : forall a b : Z, (a <=? b) = true \/ (b <=? a) = true)
    by (intros a b; lia).
  assert (Htrans : forall a b c : Z,
            (a <=? b) = true -> (b <=? c) = true -> (a <=? c) = true)
    by (intros a b c; lia).
  exact (X3_PriorityQueue_sorts Z.leb Htotal Htrans [3; 1; 2; 3; 0]).
Defined.

Lemma X4_witness :
  let le := fun a b : Z * string => a.1 <=? b.1 in
  let xs := [(2, "a"); (1, "b"); (2, "c"); (1, "d")] in
  List.filter (fun y => le (2, "a") y && le y (2, "a"))
    (removals 4 (PriorityQueue_add_all le xs []))
  = [(2, "a"); (2, "c")].
Proof.
  assert (Htotal : forall a b : Z * string,
            (a.1 <=? b.1) = true \/ (b.1 <=? a.1) = true)
    by (intros a b; lia).
  assert (Htrans : forall a b c : Z * string,
            (a.1 <=? b.1) = true -> (b.1 <=? c.1) = true ->
            (a.1 <=? c.1) = true)
    by (intros a b c; lia).
  intros le xs.
  exact (X4_PriorityQueue_stable le Htotal Htrans xs (2, "a")).
Defined.

(** * Distances and travel times *)

(** X5: [manhattan_distance] is symmetric, exceptions included, and the
    distance from a location to itself is 0. *)
Theorem X5_manhattan_distance_symmetric (a b : Location) :
  manhattan_distance a b = manhattan_distance b a
  /\ manhattan_distance a a = Ret 0.
Proof.
  unfold manhattan_distance. split.
  - replace ((row b - row a) ^ 2) with ((row a - row b) ^ 2) by ring.
    replace ((column b - column a) ^ 2) with ((column a - column b) ^ 2)
      by ring.
    reflexivity.
  - rewrite !Z.sub_diag. reflexivity.
Qed.

Lemma binary_round_aux_not_negative (mx ex : Z) (lx : SpecFloat.location) :
  float_not_negative (binary_round_aux prec64 emax64 false mx ex lx).
Proof.
  unfold binary_round_aux.
  destruct (shr_fexp prec64 emax64 mx ex lx) as [mrs' e'].
  destruct (shr_fexp prec64 emax64 _ e' loc_Exact) as [mrs'' e''].
  destruct (shr_m mrs''); simpl; [exact I| |exact I].
  destruct (e'' <=? emax64 - prec64); exact I.
Qed.

Lemma float_pow_half_not_negative (x : spec_float) :
  float_not_negative (float_pow_half x).
Proof.
  unfold float_pow_half, SFsqrt.
  destruct x as [s|[|]| |[|] m e]; try exact I.
  destruct (SFsqrt_core_binary prec64 emax64 (Z.pos m) e) as [[mz ez] lz].
  apply binary_round_aux_not_negative.
Qed.

Lemma float_add_not_negative (x y : spec_float) :
  float_not_negative x -> float_not_negative y ->
  float_not_negative (float_add x y).
Proof.
  unfold float_add, SFadd.
  destruct x as [sx|sx| |[|] mx ex]; destruct y as [sy|sy| |[|] my ey];
    simpl; try (intros [] _; fail); try (intros _ []; fail);
    intros _ _; try exact I.
  - destruct sx, sy; exact I.
  - destruct sx, sy; exact I.
  - unfold binary_normalize, binary_round.
    destruct (shl_align _ _ _) as [mz ez].
    apply binary_round_aux_not_negative.
Qed.

Lemma int_of_float_not_negative (x : spec_float) (n : Z) :
  float_not_negative x -> int_of_float x = Ret n -> 0 <= n.
Proof.
  destruct x as [s|s| |s m e]; simpl; try discriminate.
  - intros _ H. inversion H. lia.
  - destruct s; [intros []|]. intros _ H. inversion H; subst.
    destruct (0 <=? e) eqn:He.
    + apply Z.mul_nonneg_nonneg; [lia|]. apply Z.pow_nonneg. lia.
    + apply Z.leb_gt in He. apply Z.div_pos; [lia|].
      apply Z.pow_pos_nonneg; lia.
Qed.

Lemma py_round_not_negative (x : spec_float) (n : Z) :
  float_not_negative x -> py_round x = Ret n -> 0 <= n.
Proof.
  destruct x as [s|s| |s m e]; simpl; try discriminate.
  - intros _ H. inversion H. lia.
  - destruct s; [intros []|]. intros _ H. inversion H; subst.
    destruct (0 <=? e) eqn:He.
    + apply Z.mul_nonneg_nonneg; [lia|]. apply Z.pow_nonneg. lia.
    + apply Z.leb_gt in He.
      assert (0 < 2 ^ (- e)) by (apply Z.pow_pos_nonneg; lia).
      assert (0 <= Z.pos m / 2 ^ (- e)) by (apply Z.div_pos; lia).
      destruct (_ ?= _); [destruct (Z.even _)| |]; lia.
Qed.

Lemma manhattan_distance_nonneg (a b : Location) (n : Z) :
  manhattan_distance a b = Ret n -> 0 <= n.
Proof.
  unfold manhattan_distance, int_pow_half.
  destruct (float_of_int ((row b - row a) ^ 2)) as [fr|x]; [|discriminate].
  destruct (float_of_int ((column b - column a) ^ 2)) as [fc|x];
    [|discriminate].
  simpl. apply int_of_float_not_negative.
  apply float_add_not_negative; apply float_pow_half_not_negative.
Qed.

(** X6: [manhattan_distance] never returns a negative number. *)
Theorem X6_manhattan_distance_not_negative (a b : Location) (n : Z) :
  manhattan_distance a b = Ret n -> 0 <= n.
Proof.
  unfold manhattan_distance, int_pow_half.
  destruct (float_of_int ((row b - row a) ^ 2)) as [fr|x]; [|discriminate].
  destruct (float_of_int ((column b - column a) ^ 2)) as [fc|x];
    [|discriminate].
  simpl. apply int_of_float_not_negative.
  apply float_add_not_negative; apply float_pow_half_not_negative.
Qed.

Lemma X6_witness :
  manhattan_distance (mkLocation 3 7) (mkLocation (-2) 9) = Ret 7 /\ 0 <= 7.
Proof.
  assert (H : manhattan_distance (mkLocation 3 7) (mkLocation (-2) 9) = Ret 7)
    by (vm_compute; reflexivity).
  split; [exact H|].
  exact (X6_manhattan_distance_not_negative _ _ _ H).
Defined.

Lemma int_true_divide_not_negative (a b : Z) (x : spec_float) :
  0 <= a -> 0 < b -> int_true_divide a b = Ret x -> float_not_negative x.
Proof.
  intros Ha Hb. unfold int_true_divide.
  destruct (b =? 0) eqn:Hb0; [discriminate|].
  destruct (a =? 0) eqn:Ha0; [intros H; inversion H; exact I|].
  replace (a <? 0) with false by (symmetry; apply Z.ltb_ge; lia).
  replace (b <? 0) with false by (symmetry; apply Z.ltb_ge; lia).
  simpl xorb.
  destruct (SFdiv_core_binary _ _ _ _ _ _) as [[mz ez] lz].
  pose proof (binary_round_aux_not_negative mz ez lz) as Hnn.
  destruct (binary_round_aux prec64 emax64 false mz ez lz);
    try discriminate; intros H; inversion H; subst; exact Hnn.
Qed.

Lemma travel_time_nonneg (d : Driver)
    (destination : option Location) (t : Z) :
  0 < dr_speed d -> get_travel_time d destination = Ret t -> 0 <= t.
Proof.
  intros Hspeed. unfold get_travel_time.
  destruct (dr_location d) as [l|]; [|discriminate].
  destruct destination as [dest|]; [|discriminate].
  destruct (manhattan_distance l dest) as [dist|x] eqn:Hdist; [|discriminate].
  simpl.
  destruct (int_true_divide dist (dr_speed d)) as [q|x] eqn:Hq;
    [|discriminate].
  simpl. apply py_round_not_negative.
  eapply int_true_divide_not_negative; [|exact Hspeed|exact Hq].
  eapply manhattan_distance_nonneg. exact Hdist.
Qed.

(** X7: for a driver of positive speed, [get_travel_time] never returns a
    negative time. *)
Theorem X7_travel_time_not_negative (d : Driver)
    (destination : option Location) (t : Z) :
  0 < dr_speed d -> get_travel_time d destination = Ret t -> 0 <= t.
Proof.
  intros Hspeed. unfold get_travel_time.
  destruct (dr_location d) as [l|]; [|discriminate].
  destruct destination as [dest|]; [|discriminate].
  destruct (manhattan_distance l dest) as [dist|x] eqn:Hdist; [|discriminate].
  simpl.
  destruct (int_true_divide dist (dr_speed d)) as [q|x] eqn:Hq;
    [|discriminate].
  simpl. apply py_round_not_negative.
  eapply int_true_divide_not_negative; [|exact Hspeed|exact Hq].
  eapply manhattan_distance_nonneg. exact Hdist.
Qed.

Lemma X7_witness :
  0 < dr_speed charles
  /\ get_travel_time charles (Some (mkLocation 5 6)) = Ret 4
  /\ 0 <= 4.
Proof.
  assert (Hs : 0 < dr_speed charles) by (simpl; lia).
  assert (Ht : get_travel_time charles (Some (mkLocation 5 6)) = Ret 4)
    by (vm_compute; reflexivity).
  split; [exact Hs|]. split; [exact Ht|].
  exact (X7_travel_time_not_negative _ _ _ Hs Ht).
Defined.

Lemma manhattan_distance_same (l : Location) : manhattan_distance l l = Ret 0.
Proof. unfold manhattan_distance. rewrite !Z.sub_diag. reflexivity. Qed.

(** X8: the failures of [get_travel_time].  Without a location of the driver
    or without a destination it raises [AttributeError]; an exception of the
    distance computation is passed on; with a computed distance and speed 0
    it raises [ZeroDivisionError]; and to the driver's own location the time
    is 0 for every non-zero speed. *)
Theorem X8_travel_time_edges (identifier : string) (l : Location)
    (speed : Z) (idle : bool) (dst dest : option Location) :
  get_travel_time (mkDriver identifier None speed idle dst) dest
  = Raise AttributeError
  /\ get_travel_time (mkDriver identifier (Some l) speed idle dst) None
     = Raise AttributeError
  /\ (forall x e, manhattan_distance l x = Raise e ->
        get_travel_time (mkDriver identifier (Some l) speed idle dst) (Some x)
        = Raise e)
  /\ (forall x n, manhattan_distance l x = Ret n ->
        get_travel_time (mkDriver identifier (Some l) 0 idle dst) (Some x)
        = Raise ZeroDivisionError)
  /\ (speed <> 0 ->
      get_travel_time (mkDriver identifier (Some l) speed idle dst) (Some l)
      = Ret 0).
Proof.
  unfold get_travel_time. simpl.
  split; [reflexivity|]. split; [reflexivity|].
  split; [|split].
  - intros x e H. rewrite H. reflexivity.
  - intros x n H. rewrite H. reflexivity.
  - intros Hs. rewrite manhattan_distance_same. simpl.
    unfold int_true_divide. apply Z.eqb_neq in Hs. rewrite Hs. reflexivity.
Qed.

Lemma X8_witness :
  get_travel_time (mkDriver "Charles" (Some (mkLocation 0 0)) 0 true None)
    (Some (mkLocation 5 6)) = Raise ZeroDivisionError
  /\ get_travel_time (mkDriver "Charles" (Some (mkLocation 0 0)) 3 true None)
       (Some (mkLocation 0 0)) = Ret 0.
Proof.
  pose proof (X8_travel_time_edges "Charles" (mkLocation 0 0) 3 true None
                None) as (_ & _ & _ & Hzero & Hsame).
  split.
  - apply (Hzero (mkLocation 5 6) 11). vm_compute. reflexivity.
  - apply Hsame. lia.
Defined.

(** * Driving and arriving *)

(** X9: a drive from start to end.  [start_drive] marks the driver busy and
    [end_drive] then leaves the driver at the location driven to, idle and
    without destination, with the identifier and speed it had; no other
    driver, no rider, nor the dispatcher or the monitor is changed.  This
    holds also when the travel time of [start_drive] raises. *)
Theorem X9_start_drive_end_drive (self : nat) (loc : Location) (w : World) :
  let d := drivers w !!! self in
  let w1 := snd (start_drive self loc w) in
  let w2 := snd (end_drive self w1) in
  is_idle (drivers w1 !!! self) = false
  /\ fst (end_drive self w1) = Ret tt
  /\ drivers w2 !!! self
     = mkDriver (dr_identifier d) (Some loc) (dr_speed d) true None
  /\ (forall other, other <> self ->
        drivers w2 !!! other = drivers w !!! other)
  /\ riders w2 = riders w
  /\ dispatcher w2 = dispatcher w
  /\ monitor w2 = monitor w.
Proof.
  cbv zeta. rewrite start_drive_eq. cbv zeta. cbn [fst snd].
  rewrite end_drive_eq. cbv zeta. cbn [fst snd]. simpl.
  rewrite !lookup_total_insert_eq. simpl.
  repeat split; try reflexivity.
  intros other Hne. rewrite !lookup_total_insert_ne by congruence.
  reflexivity.
Qed.

(** X10: [end_drive] without a destination, against its precondition, does
    not raise: it sets the driver's location to [None].  Every later travel
    time of that driver, and so its next [start_drive], raises
    [AttributeError].  A second [end_drive] in a row does this in every
    state. *)
Theorem X10_end_drive_without_destination (self : nat) (w : World) :
  (dr_destination (drivers w !!! self) = None ->
   let w' := snd (end_drive self w) in
   fst (end_drive self w) = Ret tt
   /\ dr_location (drivers w' !!! self) = None
   /\ (forall dest, get_travel_time (drivers w' !!! self) dest
                    = Raise AttributeError)
   /\ (forall loc, fst (start_drive self loc w') = Raise AttributeError))
  /\ dr_location
       (drivers (snd (end_drive self (snd (end_drive self w)))) !!! self)
     = None.
Proof.
  split.
  - intros Hdest. cbv zeta. rewrite end_drive_eq. cbv zeta. cbn [fst snd].
    set (w' := set_drivers _ w).
    assert (Hd : drivers w' !!! self
                 = mkDriver (dr_identifier (drivers w !!! self)) None
                     (dr_speed (drivers w !!! self)) true None).
    { subst w'. simpl drivers. rewrite lookup_total_insert_eq.
      unfold set_destination, set_location, set_is_idle. simpl.
      rewrite Hdest. reflexivity. }
    split; [reflexivity|]. split; [rewrite Hd; reflexivity|]. split.
    + intros dest. rewrite Hd. reflexivity.
    + intros loc. rewrite start_drive_eq. cbv zeta. cbn [fst]. rewrite Hd.
      reflexivity.
  - rewrite (end_drive_eq self w). cbv zeta. cbn [snd].
    rewrite end_drive_eq. cbv zeta. cbn [snd]. simpl drivers.
    rewrite !lookup_total_insert_eq. reflexivity.
Qed.

Lemma X10_witness :
  dr_destination (drivers (doctest_world [] []) !!! 0%nat) = None
  /\ dr_location
       (drivers (snd (end_drive 0%nat (doctest_world [] []))) !!! 0%nat)
     = None
  /\ fst (start_drive 0%nat (mkLocation 5 4)
            (snd (end_drive 0%nat (doctest_world [] []))))
     = Raise AttributeError.
Proof.
  assert (H : dr_destination (drivers (doctest_world [] []) !!! 0%nat) = None)
    by (vm_compute; reflexivity).
  split; [exact H|].
  pose proof (proj1 (X10_end_drive_without_destination 0%nat
                       (doctest_world [] [])) H) as (_ & Hloc & _ & Hstart).
  split; [exact Hloc|apply Hstart].
Defined.

(** * Further properties of the dispatcher *)

Lemma cancel_ride_eq (rider : nat) (w : World) :
  cancel_ride rider w
  = match Queue.spcl_remove (rider_ref_eq w) rider (wait_rd (dispatcher w))
    with
    | Ret rest => (Ret tt, set_wait_rd rest w)
    | Raise e => (Raise e, w)
    end.
Proof.
  unfold cancel_ride, bind, lift.
  destruct (Queue.spcl_remove _ _ _); reflexivity.
Qed.

Lemma request_driver_exclusive (rider : nat) (w : World) :
  pools_exclusive (dispatcher w) ->
  pools_exclusive (dispatcher (snd (request_driver rider w))).
Proof.
  intros Hex. pose proof (request_driver_cases rider w) as H.
  destruct (request_driver rider w) as [[[d|]|e] w']; simpl.
  - destruct H as (i & Hi & ->). simpl.
    destruct Hex as [Ha|Hw]; [rewrite Ha in Hi; discriminate|].
    right. exact Hw.
  - destruct H as (Ha & ->). left. exact Ha.
  - subst. exact Hex.
Qed.

Lemma request_rider_exclusive (driver : nat) (w : World) :
  pools_exclusive (dispatcher w) ->
  pools_exclusive (dispatcher (snd (request_rider driver w))).
Proof.
  intros Hex. rewrite request_rider_eq.
  destruct (wait_rd (dispatcher w)) as [|r rest] eqn:Hw; simpl.
  - right. exact Hw.
  - destruct Hex as [Ha|Hw']; [left; exact Ha|congruence].
Qed.

Lemma cancel_ride_exclusive (rider : nat) (w : World) :
  pools_exclusive (dispatcher w) ->
  pools_exclusive (dispatcher (snd (cancel_ride rider w))).
Proof.
  intros Hex. rewrite cancel_ride_eq.
  destruct (Queue.spcl_remove _ _ _) as [rest|e] eqn:Hrem; simpl;
    [|exact Hex].
  destruct Hex as [Ha|Hw]; [left; exact Ha|].
  rewrite Hw in Hrem. discriminate.
Qed.

Lemma start_drive_dispatcher (self : nat) (loc : Location) (w : World) :
  dispatcher (snd (start_drive self loc w)) = dispatcher w.
Proof. rewrite start_drive_eq. reflexivity. Qed.

Lemma do_exclusive (e : Event) (w : World) :
  pools_exclusive (dispatcher w) ->
  pools_exclusive (dispatcher (snd (do e w))).
Proof.
  intros Hex.
  destruct e as [t rider|t driver|t rider|t rider driver|t rider driver];
    unfold do.
  - rewrite RiderRequest_do_eq. cbv zeta. set (w1 := set_monitor _ w).
    pose proof (request_driver_exclusive rider w1 Hex) as H.
    destruct (request_driver rider w1) as [[[d|]|x] w2]; simpl in H;
      [|exact H|exact H].
    pose proof (start_drive_dispatcher d (rd_origin (riders w2 !!! rider)) w2)
      as Hd.
    destruct (start_drive d _ w2) as [[tt|x] w3]; simpl in Hd; simpl;
      rewrite Hd; exact H.
  - rewrite DriverRequest_do_eq. cbv zeta.
    destruct (wait_rd (dispatcher w)) as [|r rest] eqn:Hw.
    + right. simpl. exact Hw.
    + destruct Hex as [Ha|Hw']; [|congruence].
      rewrite start_drive_eq. cbv zeta.
      destruct (get_travel_time _ _); left; exact Ha.
  - rewrite Cancellation_do_eq. simpl.
    destruct (rd_status _); exact Hex.
  - rewrite Pickup_do_eq. cbv zeta.
    destruct (rd_status _); [|exact Hex..].
    rewrite start_ride_eq. cbv zeta.
    destruct (get_travel_time _ _); exact Hex.
  - rewrite Dropoff_do_eq. exact Hex.
Qed.

(** X11: the dispatcher never holds an idle driver and a waiting rider at
    the same time.  If one of the two pools is empty, it is so again after
    [request_driver], [request_rider] and [cancel_ride], whatever they
    return or raise, and after the [do] of every event. *)
Theorem X11_pools_never_both_nonempty (w : World) :
  pools_exclusive (dispatcher w) ->
  (forall rider, pools_exclusive (dispatcher (snd (request_driver rider w))))
  /\ (forall driver,
        pools_exclusive (dispatcher (snd (request_rider driver w))))
  /\ (forall rider, pools_exclusive (dispatcher (snd (cancel_ride rider w))))
  /\ (forall e : Event, pools_exclusive (dispatcher (snd (do e w)))).
Proof.
  intros Hex. split; [|split; [|split]].
  - intros rider. apply request_driver_exclusive. exact Hex.
  - intros driver. apply request_rider_exclusive. exact Hex.
  - intros rider. apply cancel_ride_exclusive. exact Hex.
  - intros e. apply do_exclusive. exact Hex.
Qed.

Lemma X11_witness :
  pools_exclusive (dispatcher (doctest_world [0%nat; 1%nat] []))
  /\ forall e : Event,
       pools_exclusive
         (dispatcher (snd (do e (doctest_world [0%nat; 1%nat] [])))).
Proof.
  assert (H : pools_exclusive (dispatcher (doctest_world [0%nat; 1%nat] [])))
    by (right; reflexivity).
  split; [exact H|].
  apply (X11_pools_never_both_nonempty _ H).
Defined.

(** X12: [request_driver] is exception safe and conserves the drivers.  It
    never modifies a driver, a rider or the monitor.  If a travel time
    raises, the exception is passed on and the dispatcher is unchanged.  A
    returned driver was in the idle pool, and the pool is afterwards the old
    pool without one occurrence of that driver, the waiting queue being
    untouched.  [None] is returned only when the pool is empty. *)
Theorem X12_request_driver_conserves (rider : nat) (w : World) :
  let res := fst (request_driver rider w) in
  let w' := snd (request_driver rider w) in
  drivers w' = drivers w /\ riders w' = riders w /\ monitor w' = monitor w
  /\ match res with
     | Raise _ => dispatcher w' = dispatcher w
     | Ret None =>
         avail_dr (dispatcher w) = []
         /\ avail_dr (dispatcher w') = []
         /\ wait_rd (dispatcher w') = wait_rd (dispatcher w) ++ [rider]
     | Ret (Some d) =>
         d ∈ avail_dr (dispatcher w)
         /\ avail_dr (dispatcher w) ≡ₚ d :: avail_dr (dispatcher w')
         /\ wait_rd (dispatcher w') = wait_rd (dispatcher w)
     end.
Proof.
  cbv zeta. pose proof (request_driver_cases rider w) as H.
  destruct (request_driver rider w) as [[[d|]|e] w']; simpl.
  - destruct H as (i & Hi & ->). simpl. repeat split.
    + eapply list_elem_of_lookup_2. exact Hi.
    + apply delete_Permutation. exact Hi.
  - destruct H as (Ha & ->). simpl. rewrite Ha. repeat split.
  - subst. repeat split.
Qed.

Lemma list_remove_absent {A} (eqb : A -> A -> bool) (item : A)
    (items : list A) :
  (forall x, x ∈ items -> eqb x item = false) ->
  Queue.list_remove eqb item items = Raise ValueError.
Proof.
  induction items as [|y rest IH]; intros Hno; simpl; [reflexivity|].
  rewrite (Hno y) by apply list_elem_of_here.
  rewrite IH; [reflexivity|].
  intros x Hx. apply Hno. apply list_elem_of_further. exact Hx.
Qed.

Lemma list_remove_middle {A} (eqb : A -> A -> bool) (item : A)
    (l1 : list A) (x : A) (l2 : list A) :
  (forall y, y ∈ l1 -> eqb y item = false) -> eqb x item = true ->
  Queue.list_remove eqb item (l1 ++ x :: l2) = Ret (l1 ++ l2).
Proof.
  intros Hl1 Hx.
  rewrite (list_remove_first eqb item _ (length l1) x).
  - rewrite delete_middle. reflexivity.
  - rewrite lookup_app_r by lia. rewrite Nat.sub_diag. reflexivity.
  - exact Hx.
  - intros j y Hj Hy. rewrite lookup_app_l in Hy by exact Hj.
    apply Hl1. eapply list_elem_of_lookup_2. exact Hy.
Qed.

Lemma rider_ref_eq_refl (w : World) (r : nat) : rider_ref_eq w r r = true.
Proof. unfold rider_ref_eq. rewrite Nat.eqb_refl. reflexivity. Qed.

Lemma set_wait_rd_same (w : World) : set_wait_rd (wait_rd (dispatcher w)) w = w.
Proof. destruct w as [ds rs [avail wait] mon]. reflexivity. Qed.

(** X13: [cancel_ride] removes from the waiting queue the first rider that
    is the given rider or equals it by [Rider.__eq__], and nothing else.
    Called for a rider that no waiting rider equals, against its
    precondition, it raises [ValueError] and changes nothing.  It undoes the
    enqueueing of [request_driver]: when no driver is idle and no waiting
    rider equals the new one, [request_driver] followed by [cancel_ride]
    restores the state. *)
Theorem X13_cancel_ride (rider : nat) (w : World) :
  ((forall r, r ∈ wait_rd (dispatcher w) -> rider_ref_eq w r rider = false) ->
   cancel_ride rider w = (Raise ValueError, w))
  /\ (forall l1 r0 l2,
        wait_rd (dispatcher w) = l1 ++ r0 :: l2 ->
        (forall y, y ∈ l1 -> rider_ref_eq w y rider = false) ->
        rider_ref_eq w r0 rider = true ->
        cancel_ride rider w = (Ret tt, set_wait_rd (l1 ++ l2) w))
  /\ (avail_dr (dispatcher w) = [] ->
      (forall r, r ∈ wait_rd (dispatcher w) ->
                 rider_ref_eq w r rider = false) ->
      fst (request_driver rider w) = Ret None
      /\ cancel_ride rider (snd (request_driver rider w)) = (Ret tt, w)).
Proof.
  split; [|split].
  - intros Hno. rewrite cancel_ride_eq. unfold Queue.spcl_remove.
    rewrite list_remove_absent by exact Hno. reflexivity.
  - intros l1 r0 l2 Hw Hl1 Hr0. rewrite cancel_ride_eq, Hw.
    unfold Queue.spcl_remove.
    rewrite list_remove_middle by assumption. reflexivity.
  - intros Ha Hno. rewrite request_driver_unfold, Ha. cbn [fst snd].
    split; [reflexivity|].
    rewrite cancel_ride_eq. unfold Queue.spcl_remove.
    change (wait_rd (dispatcher (set_wait_rd ?q w))) with q.
    change (rider_ref_eq (set_wait_rd ?q w)) with (rider_ref_eq w).
    rewrite list_remove_middle;
      [|exact Hno|apply rider_ref_eq_refl].
    rewrite app_nil_r.
    change (set_wait_rd ?q (set_wait_rd _ w)) with (set_wait_rd q w).
    rewrite set_wait_rd_same. reflexivity.
Qed.

Lemma X13_witness :
  cancel_ride 0%nat (doctest_world [] [1%nat]) 
  = (Raise ValueError, doctest_world [] [1%nat])
  /\ cancel_ride 1%nat (doctest_world [] [0%nat; 1%nat])
     = (Ret tt, set_wait_rd [0%nat] (doctest_world [] [0%nat; 1%nat]))
  /\ cancel_ride 0%nat (snd (request_driver 0%nat (doctest_world [] [1%nat])))
     = (Ret tt, doctest_world [] [1%nat]).
Proof.
  assert (Hno : forall r, r ∈ wait_rd (dispatcher (doctest_world [] [1%nat])) ->
                  rider_ref_eq (doctest_world [] [1%nat]) r 0%nat = false).
  { intros r Hr. apply list_elem_of_singleton in Hr. subst. reflexivity. }
  destruct (X13_cancel_ride 0%nat (doctest_world [] [1%nat]))
    as (Habsent & _ & Hround).
  destruct (X13_cancel_ride 1%nat (doctest_world [] [0%nat; 1%nat]))
    as (_ & Hmid & _).
  split; [exact (Habsent Hno)|]. split.
  - apply (Hmid [0%nat] 1%nat []); [reflexivity| |reflexivity].
    intros y Hy. apply list_elem_of_singleton in Hy. subst. reflexivity.
  - apply Hround; [reflexivity|exact Hno].
Defined.

(** X14: matching is a round trip on empty pools.  A driver that registers
    with [request_rider] is the driver the next [request_driver] returns, and
    a rider that [request_driver] enqueues is the rider the next
    [request_rider] returns; either way both pools are empty again and
    nothing else has changed. *)
Theorem X14_matching_round_trip (ds : gmap nat Driver) (rs : gmap nat Rider)
    (mon : Monitor) (driver rider : nat) :
  let w := mkWorld ds rs (mkDispatcher [] []) mon in
  fst (request_rider driver w) = Ret None
  /\ request_driver rider (snd (request_rider driver w)) = (Ret (Some driver), w)
  /\ fst (request_driver rider w) = Ret None
  /\ request_rider driver (snd (request_driver rider w)) = (Ret (Some rider), w).
Proof.
  cbv zeta. rewrite request_rider_eq. cbn [fst snd wait_rd dispatcher].
  split; [reflexivity|]. split.
  - rewrite request_driver_unfold. reflexivity.
  - rewrite (request_driver_unfold rider). cbn [fst snd avail_dr dispatcher].
    split; [reflexivity|]. rewrite request_rider_eq. reflexivity.
Qed.

(** * Further properties of the events *)

(** X15: the six comparison methods of [Event] agree with one another.  Of
    [a < b], [a == b] and [a > b] exactly one holds; [<=] is [<] or [==];
    [>] and [>=] are [<] and [<=] with the operands exchanged; [!=] is the
    negation of [==]; [<] is transitive.  Equality looks at the timestamp
    only, so events of different kinds and actors are equal when their
    timestamps are. *)
Theorem X15_Event_comparisons (a b c : Event) :
  (Event_lt a b = true /\ Event_eq a b = false /\ Event_gt a b = false
   \/ Event_lt a b = false /\ Event_eq a b = true /\ Event_gt a b = false
   \/ Event_lt a b = false /\ Event_eq a b = false /\ Event_gt a b = true)
  /\ Event_le a b = Event_lt a b || Event_eq a b
  /\ Event_gt a b = Event_lt b a
  /\ Event_ge a b = Event_le b a
  /\ Event_ne a b = negb (Event_eq a b)
  /\ (Event_lt a b = true -> Event_lt b c = true -> Event_lt a c = true)
  /\ (Event_eq a b = true <-> timestamp a = timestamp b)
  /\ (forall t r r' d,
        Event_eq (RiderRequest t r) (Dropoff t r' d) = true).
Proof.
  unfold Event_gt, Event_ge, Event_ne. unfold Event_lt, Event_eq, Event_le.
  generalize (timestamp a) (timestamp b) (timestamp c). intros ta tb tc.
  split; [|split; [|split; [|split; [|split; [|split; [|split]]]]]].
  - destruct (Z.ltb_spec ta tb), (Z.eqb_spec ta tb), (Z.leb_spec ta tb);
      try lia; simpl;
      first [left; repeat split; reflexivity
            |right; left; repeat split; reflexivity
            |right; right; repeat split; reflexivity].
  - destruct (Z.ltb_spec ta tb), (Z.eqb_spec ta tb), (Z.leb_spec ta tb);
      try lia; reflexivity.
  - destruct (Z.leb_spec ta tb), (Z.ltb_spec tb ta); try lia; reflexivity.
  - destruct (Z.ltb_spec ta tb), (Z.leb_spec tb ta); try lia; reflexivity.
  - reflexivity.
  - intros Hab Hbc. apply Z.ltb_lt in Hab, Hbc. apply Z.ltb_lt. lia.
  - apply Z.eqb_eq.
  - intros t r r' d. simpl. apply Z.eqb_refl.
Qed.

Ltac lookup_cases :=
  repeat match goal with
         | |- context [<[?k := _]> _ !!! ?k] =>
             rewrite lookup_total_insert_eq
         | H : ?k <> ?k' |- context [<[?k := _]> _ !!! ?k'] =>
             rewrite (lookup_total_insert_ne _ k k') by exact H
         | |- context [<[?k := _]> _ !!! ?k'] =>
             destruct (decide (k = k')) as [->|?]
         end.

(** An event leaves the identifier and the speed of every driver and the
    identifier, origin, destination and patience of every rider as they
    are. *)
Lemma do_keeps_actor_fields (e : Event) (w : World) :
  (forall d,
     dr_identifier (drivers (snd (do e w)) !!! d)
     = dr_identifier (drivers w !!! d)
     /\ dr_speed (drivers (snd (do e w)) !!! d) = dr_speed (drivers w !!! d))
  /\ (forall r,
        rd_identifier (riders (snd (do e w)) !!! r)
        = rd_identifier (riders w !!! r)
        /\ rd_origin (riders (snd (do e w)) !!! r) = rd_origin (riders w !!! r)
        /\ rd_destination (riders (snd (do e w)) !!! r)
           = rd_destination (riders w !!! r)
        /\ rd_patience (riders (snd (do e w)) !!! r)
           = rd_patience (riders w !!! r)).
Proof.
  destruct e as [t rider|t driver|t rider|t rider driver|t rider driver];
    unfold do.
  - rewrite RiderRequest_do_eq. cbv zeta.
    pose proof (request_driver_cases rider
                  (set_monitor
                     (Monitor_notify t RIDER REQUEST
                        (rd_identifier (riders w !!! rider))
                        (Some (rd_origin (riders w !!! rider))) (monitor w))
                     w)) as Hcases.
    destruct (request_driver rider _) as [[[d|]|x] w2].
    + destruct Hcases as (i & Hi & ->). rewrite start_drive_eq. cbv zeta.
      destruct (get_travel_time _ _); simpl;
        (split; [intros d'; lookup_cases|intros r]; simpl; repeat split).
    + destruct Hcases as (_ & ->). simpl. repeat split.
    + cbv beta iota in Hcases. subst w2. simpl. repeat split.
  - rewrite DriverRequest_do_eq. cbv zeta.
    destruct (wait_rd (dispatcher w)) as [|r rest]; [simpl; repeat split|].
    rewrite start_drive_eq. cbv zeta.
    destruct (get_travel_time _ _); simpl;
      (split; [intros d'; lookup_cases|intros r']; simpl; repeat split).
  - rewrite Cancellation_do_eq. cbv zeta.
    destruct (rd_status (riders w !!! rider)); simpl;
      (split; [intros d'|intros r; lookup_cases]; simpl; repeat split).
  - rewrite Pickup_do_eq. cbv zeta.
    destruct (rd_status (riders w !!! rider)).
    + rewrite start_ride_eq. cbv zeta.
      destruct (get_travel_time _ _); simpl;
        (split; [intros d'; lookup_cases|intros r; lookup_cases];
         simpl; repeat split).
    + simpl. split; [intros d'; lookup_cases|intros r]; simpl; repeat split.
    + simpl. split; [intros d'; lookup_cases|intros r]; simpl; repeat split.
  - rewrite Dropoff_do_eq. simpl.
    split; [intros d'; lookup_cases|intros r]; simpl; repeat split.
Qed.

(** X16: what an event never changes.  The [do] of every event, whether it
    returns or raises, leaves the identifier and the speed of every driver
    and the identifier, origin, destination and patience of every rider as
    they are: events write only a driver's [location], [is_idle] and
    [destination] and a rider's [status]. *)
Theorem X16_events_keep_actor_fields (e : Event) (w : World) :
  let w' := snd (do e w) in
  (forall d,
     dr_identifier (drivers w' !!! d) = dr_identifier (drivers w !!! d)
     /\ dr_speed (drivers w' !!! d) = dr_speed (drivers w !!! d))
  /\ (forall r,
        rd_identifier (riders w' !!! r) = rd_identifier (riders w !!! r)
        /\ rd_origin (riders w' !!! r) = rd_origin (riders w !!! r)
        /\ rd_destination (riders w' !!! r) = rd_destination (riders w !!! r)
        /\ rd_patience (riders w' !!! r) = rd_patience (riders w !!! r)).
Proof.
  cbv zeta. split.
  - intros d. apply (proj1 (do_keeps_actor_fields e w) d).
  - intros r. apply (proj2 (do_keeps_actor_fields e w) r).
Qed.

(** X17: no event is scheduled in the past.  When every driver has a
    positive speed and every rider a non-negative patience, each event that
    a [do] returns has a timestamp greater than or equal to the timestamp of
    the event that was executed. *)
Theorem X17_no_event_in_the_past (e : Event) (w : World) :
  (forall d, 0 < dr_speed (drivers w !!! d)) ->
  (forall r, 0 <= rd_patience (riders w !!! r)) ->
  forall evs, fst (do e w) = Ret (Some evs) ->
  forall e', e' ∈ evs -> timestamp e <= timestamp e'.
Proof.
  intros Hspeed Hpatience evs.
  destruct e as [t rider|t driver|t rider|t rider driver|t rider driver];
    unfold do.
  - rewrite RiderRequest_do_eq. cbv zeta.
    pose proof (request_driver_cases rider
                  (set_monitor
                     (Monitor_notify t RIDER REQUEST
                        (rd_identifier (riders w !!! rider))
                        (Some (rd_origin (riders w !!! rider))) (monitor w))
                     w)) as Hcases.
    destruct (request_driver rider _) as [[[d|]|x] w2]; [| |discriminate].
    + destruct Hcases as (i & Hi & ->). rewrite start_drive_eq. cbv zeta.
      destruct (get_travel_time _ _) as [tt|x] eqn:Htt; [|discriminate].
      apply travel_time_nonneg in Htt;
        [|simpl; rewrite ?lookup_total_insert_eq; simpl; apply Hspeed].
      intros H e' He'. inversion H; subst; clear H. simpl in He'.
      specialize (Hpatience rider).
      apply elem_of_cons in He' as [->|He']; [simpl; lia|].
      apply list_elem_of_singleton in He'. subst. simpl. lia.
    + destruct Hcases as (_ & ->).
      intros H e' He'. inversion H; subst; clear H. simpl in He'.
      specialize (Hpatience rider).
      apply list_elem_of_singleton in He'. subst. simpl. lia.
  - rewrite DriverRequest_do_eq. cbv zeta.
    destruct (wait_rd (dispatcher w)) as [|r rest].
    + intros H e' He'. inversion H; subst. apply elem_of_nil in He'.
      destruct He'.
    + rewrite start_drive_eq. cbv zeta.
      destruct (get_travel_time _ _) as [tt|x] eqn:Htt; [|discriminate].
      apply travel_time_nonneg in Htt;
        [|simpl; rewrite ?lookup_total_insert_eq; simpl; apply Hspeed].
      intros H e' He'. inversion H; subst; clear H.
      apply list_elem_of_singleton in He'. subst. simpl. lia.
  - rewrite Cancellation_do_eq. discriminate.
  - rewrite Pickup_do_eq. cbv zeta.
    destruct (rd_status (riders w !!! rider)).
    + rewrite start_ride_eq. cbv zeta.
      destruct (get_travel_time _ _) as [tt|x] eqn:Htt; [|discriminate].
      apply travel_time_nonneg in Htt;
        [|simpl; rewrite ?lookup_total_insert_eq; simpl; apply Hspeed].
      intros H e' He'. inversion H; subst; clear H.
      apply list_elem_of_singleton in He'. subst. simpl. lia.
    + intros H e' He'. inversion H; subst; clear H.
      apply list_elem_of_singleton in He'. subst. simpl. lia.
    + intros H e' He'. inversion H; subst. apply elem_of_nil in He'.
      destruct He'.
  - rewrite Dropoff_do_eq.
    intros H e' He'. inversion H; subst; clear H.
    apply list_elem_of_singleton in He'. subst. simpl. lia.
Qed.

Lemma doctest_speeds_positive (avail wait : list nat) (d : nat) :
  0 < dr_speed (drivers (doctest_world avail wait) !!! d).
Proof.
  simpl. unfold doctest_drivers.
  destruct (decide (0%nat = d)) as [<-|H0];
    [rewrite lookup_total_insert_eq; simpl; lia|].
  rewrite lookup_total_insert_ne by exact H0.
  destruct (decide (1%nat = d)) as [<-|H1];
    [rewrite lookup_total_insert_eq; simpl; lia|].
  rewrite lookup_total_insert_ne by exact H1.
  rewrite lookup_total_empty. simpl. lia.
Qed.

Lemma doctest_patience_not_negative (avail wait : list nat) (r : nat) :
  0 <= rd_patience (riders (doctest_world avail wait) !!! r).
Proof.
  simpl. unfold doctest_riders.
  destruct (decide (0%nat = r)) as [<-|H0];
    [rewrite lookup_total_insert_eq; simpl; lia|].
  rewrite lookup_total_insert_ne by exact H0.
  destruct (decide (1%nat = r)) as [<-|H1];
    [rewrite lookup_total_insert_eq; simpl; lia|].
  rewrite lookup_total_insert_ne by exact H1.
  rewrite lookup_total_empty. simpl. lia.
Qed.

Lemma X17_witness :
  fst (do (RiderRequest 0 0%nat) (doctest_world [1%nat] []))
  = Ret (Some [Pickup 10 0%nat 1%nat; Cancellation 100 0%nat])
  /\ forall e', e' ∈ [Pickup 10 0%nat 1%nat; Cancellation 100 0%nat] ->
                timestamp (RiderRequest 0 0%nat) <= timestamp e'.
Proof.
  assert (H : fst (do (RiderRequest 0 0%nat) (doctest_world [1%nat] []))
              = Ret (Some [Pickup 10 0%nat 1%nat; Cancellation 100 0%nat]))
    by (vm_compute; reflexivity).
  split; [exact H|].
  exact (X17_no_event_in_the_past (RiderRequest 0 0%nat)
           (doctest_world [1%nat] [])
           (doctest_speeds_positive [1%nat] [])
           (doctest_patience_not_negative [1%nat] []) _ H).
Defined.

(** * The monitor *)

Lemma log_of_notify_same (t : Z) (c : category) (d : description)
    (identifier : string) (loc : option Location) (m : Monitor) :
  log_of c identifier (Monitor_notify t c d identifier loc m)
  = log_of c identifier m ++ [mkActivity d t identifier loc].
Proof.
  unfold log_of, Monitor_notify, record_activity.
  destruct c; cbn [activities_of rider_activities driver_activities act_id];
    rewrite lookup_insert_eq; reflexivity.
Qed.

Lemma activities_of_notify_other (t : Z) (c : category) (d : description)
    (identifier : string) (loc : option Location) (m : Monitor)
    (c' : category) (identifier' : string) :
  c' <> c \/ identifier' <> identifier ->
  activities_of c' (Monitor_notify t c d identifier loc m) !! identifier'
  = activities_of c' m !! identifier'.
Proof.
  intros Hne. unfold Monitor_notify, record_activity.
  destruct c, c';
    cbn [activities_of rider_activities driver_activities act_id];
    try reflexivity;
    (destruct Hne as [Hne|Hne]; [congruence|]);
    rewrite lookup_insert_ne by congruence; reflexivity.
Qed.

(** X18: [Monitor.notify] appends the activity to the end of the record of
    the actor in the given category and leaves every other record as it is;
    the number of actors with a record in that category grows by one exactly
    when the identifier had none, and the other category's number stays. *)
Theorem X18_Monitor_notify (t : Z) (c : category) (d : description)
    (identifier : string) (loc : option Location) (m : Monitor) :
  let m' := Monitor_notify t c d identifier loc m in
  let known := bool_decide (is_Some (activities_of c m !! identifier)) in
  log_of c identifier m'
  = log_of c identifier m ++ [mkActivity d t identifier loc]
  /\ (forall c' identifier',
        c' <> c \/ identifier' <> identifier ->
        activities_of c' m' !! identifier' = activities_of c' m !! identifier')
  /\ size (activities_of c m')
     = (if known then size (activities_of c m)
        else S (size (activities_of c m)))
  /\ Monitor_counts m'
     = match c, known with
       | _, true => Monitor_counts m
       | DRIVER, false => (S (fst (Monitor_counts m)), snd (Monitor_counts m))
       | RIDER, false => (fst (Monitor_counts m), S (snd (Monitor_counts m)))
       end.
Proof.
  cbv zeta.
  assert (Hsize : forall (g : gmap string (list Activity)) a,
            size (record_activity a g)
            = if bool_decide (is_Some (g !! act_id a)) then size g
              else S (size g)).
  { intros g a. unfold record_activity.
    destruct (g !! act_id a) as [l|] eqn:Hl.
    - rewrite bool_decide_eq_true_2 by eauto.
      apply map_size_insert_Some. rewrite Hl. eauto.
    - rewrite bool_decide_eq_false_2 by (intros [? ?]; discriminate).
      apply map_size_insert_None. exact Hl. }
  split; [|split; [|split]].
  - apply log_of_notify_same.
  - intros c' identifier' Hne. apply activities_of_notify_other. exact Hne.
  - unfold Monitor_notify. destruct c; simpl; rewrite Hsize; reflexivity.
  - unfold Monitor_counts, Monitor_notify.
    destruct c; simpl; rewrite Hsize; simpl;
      destruct (bool_decide _); reflexivity.
Qed.

Lemma log_of_notify_extends (t : Z) (c : category) (d : description)
    (identifier : string) (loc : option Location) (m : Monitor)
    (c' : category) (identifier' : string) :
  exists l',
    log_of c' identifier' (Monitor_notify t c d identifier loc m)
    = log_of c' identifier' m ++ l'
    /\ Forall (fun a => act_time a = t /\ act_id a = identifier') l'.
Proof.
  destruct (decide (c' = c)) as [->|Hc].
  - destruct (decide (identifier' = identifier)) as [->|Hi].
    + exists [mkActivity d t identifier loc].
      split; [apply log_of_notify_same|]. repeat constructor.
    + exists []. rewrite app_nil_r. split; [|constructor].
      unfold log_of. rewrite activities_of_notify_other by auto. reflexivity.
  - exists []. rewrite app_nil_r. split; [|constructor].
    unfold log_of. rewrite activities_of_notify_other by auto. reflexivity.
Qed.

(** The monitor after an event: the notifications of the event applied to
    the monitor before it, on every path through [do]. *)
Lemma monitor_of_do (e : Event) (w : World) :
  monitor (snd (do e w))
  = match e with
    | RiderRequest t r =>
        Monitor_notify t RIDER REQUEST (rd_identifier (riders w !!! r))
          (Some (rd_origin (riders w !!! r))) (monitor w)
    | DriverRequest t d =>
        Monitor_notify t DRIVER REQUEST (dr_identifier (drivers w !!! d))
          (dr_location (drivers w !!! d)) (monitor w)
    | Cancellation t r =>
        Monitor_notify t RIDER CANCEL (rd_identifier (riders w !!! r))
          (Some (rd_origin (riders w !!! r))) (monitor w)
    | Pickup t r d =>
        Monitor_notify t RIDER PICKUP (rd_identifier (riders w !!! r))
          (Some (rd_origin (riders w !!! r)))
          (Monitor_notify t DRIVER PICKUP (dr_identifier (drivers w !!! d))
             (dr_destination (drivers w !!! d)) (monitor w))
    | Dropoff t r d =>
        Monitor_notify t DRIVER DROPOFF (dr_identifier (drivers w !!! d))
          (dr_destination (drivers w !!! d)) (monitor w)
    end.
Proof.
  destruct e as [t rider|t driver|t rider|t rider driver|t rider driver];
    unfold do.
  - rewrite RiderRequest_do_eq. cbv zeta.
    pose proof (request_driver_cases rider
                  (set_monitor
                     (Monitor_notify t RIDER REQUEST
                        (rd_identifier (riders w !!! rider))
                        (Some (rd_origin (riders w !!! rider))) (monitor w))
                     w)) as Hcases.
    destruct (request_driver rider _) as [[[d|]|x] w2].
    + destruct Hcases as (i & Hi & ->). rewrite start_drive_eq. cbv zeta.
      destruct (get_travel_time _ _); reflexivity.
    + destruct Hcases as (_ & ->). reflexivity.
    + cbv beta iota in Hcases. subst w2. reflexivity.
  - rewrite DriverRequest_do_eq. cbv zeta.
    destruct (wait_rd (dispatcher w)) as [|r rest]; [reflexivity|].
    rewrite start_drive_eq. cbv zeta.
    destruct (get_travel_time _ _); reflexivity.
  - rewrite Cancellation_do_eq. cbv zeta.
    destruct (rd_status (riders w !!! rider)); reflexivity.
  - rewrite Pickup_do_eq. cbv zeta.
    destruct (rd_status (riders w !!! rider)); [|reflexivity..].
    rewrite start_ride_eq. cbv zeta.
    destruct (get_travel_time _ _); reflexivity.
  - rewrite Dropoff_do_eq. reflexivity.
Qed.

(** X19: every event is reported, and the record only grows.  Whether its
    [do] returns or raises, a request, cancellation or dropoff adds exactly
    one activity for its actor and a pickup one for the driver and then one
    for the rider.  In consequence every actor's record after an event is the
    record before it followed by activities that carry the event's timestamp
    and the actor's identifier. *)
Theorem X19_events_are_reported (e : Event) (w : World) :
  let m := monitor w in
  let m' := monitor (snd (do e w)) in
  m' = match e with
       | RiderRequest t r =>
           Monitor_notify t RIDER REQUEST (rd_identifier (riders w !!! r))
             (Some (rd_origin (riders w !!! r))) m
       | DriverRequest t d =>
           Monitor_notify t DRIVER REQUEST (dr_identifier (drivers w !!! d))
             (dr_location (drivers w !!! d)) m
       | Cancellation t r =>
           Monitor_notify t RIDER CANCEL (rd_identifier (riders w !!! r))
             (Some (rd_origin (riders w !!! r))) m
       | Pickup t r d =>
           Monitor_notify t RIDER PICKUP (rd_identifier (riders w !!! r))
             (Some (rd_origin (riders w !!! r)))
             (Monitor_notify t DRIVER PICKUP
                (dr_identifier (drivers w !!! d))
                (dr_destination (drivers w !!! d)) m)
       | Dropoff t r d =>
           Monitor_notify t DRIVER DROPOFF (dr_identifier (drivers w !!! d))
             (dr_destination (drivers w !!! d)) m
       end
  /\ forall c identifier,
       exists l',
         log_of c identifier m' = log_of c identifier m ++ l'
         /\ Forall (fun a => act_time a = timestamp e
                             /\ act_id a = identifier) l'.
Proof.
  cbv zeta. split; [apply monitor_of_do|].
  intros c identifier. rewrite monitor_of_do.
  destruct e as [t r|t d|t r|t r d|t r d]; simpl timestamp;
    try apply log_of_notify_extends.
  destruct (log_of_notify_extends t DRIVER PICKUP
              (dr_identifier (drivers w !!! d))
              (dr_destination (drivers w !!! d)) (monitor w) c identifier)
    as (l1 & H1 & HF1).
  destruct (log_of_notify_extends t RIDER PICKUP
              (rd_identifier (riders w !!! r))
              (Some (rd_origin (riders w !!! r)))
              (Monitor_notify t DRIVER PICKUP
                 (dr_identifier (drivers w !!! d))
                 (dr_destination (drivers w !!! d)) (monitor w))
              c identifier) as (l2 & H2 & HF2).
  exists (l1 ++ l2). rewrite H2, H1, app_assoc.
  split; [reflexivity|]. apply Forall_app. auto.
Qed.

Example average_wait_time_doctest :
  let m1 := Monitor_notify 101 RIDER CANCEL "Lola" (Some (mkLocation 0 0))
              (Monitor_notify 1 RIDER REQUEST "Lola" (Some (mkLocation 0 0))
                 new_Monitor) in
  let m2 := Monitor_notify 5 RIDER PICKUP "Godzilla" (Some (mkLocation 10 10))
              (Monitor_notify 1 RIDER REQUEST "Godzilla"
                 (Some (mkLocation 10 10)) m1) in
  Monitor_average_wait_time m1 = float_of_int 100
  /\ Monitor_average_wait_time m2 = float_of_int 52.
Proof. split; vm_compute; reflexivity. Qed.

Lemma int_true_divide_ZeroDivisionError (a b : Z) :
  int_true_divide a b = Raise ZeroDivisionError <-> b = 0.
Proof.
  unfold int_true_divide. destruct (Z.eqb_spec b 0) as [->|Hb].
  - split; reflexivity.
  - split; [|contradiction]. intros H. exfalso.
    destruct (a =? 0); [discriminate|].
    destruct (SFdiv_core_binary _ _ _ _ _ _) as [[mz ez] lz].
    destruct (binary_round_aux _ _ _ _ _ _); discriminate.
Qed.

Lemma wait_of_None (activities : list Activity) :
  wait_of activities = None <-> (length activities < 2)%nat.
Proof.
  destruct activities as [|a0 [|a1 rest]]; simpl; split; intros H;
    try reflexivity; try lia; discriminate.
Qed.

(** X20: [_average_wait_time] raises [ZeroDivisionError] exactly when no
    rider has two or more recorded activities, as on a new monitor or while
    every rider has only requested; the driver records play no part. *)
Theorem X20_average_wait_time_ZeroDivisionError (m : Monitor) :
  (Monitor_average_wait_time m = Raise ZeroDivisionError
   <-> forall identifier activities,
         rider_activities m !! identifier = Some activities ->
         (length activities < 2)%nat)
  /\ Monitor_average_wait_time new_Monitor = Raise ZeroDivisionError
  /\ forall drs,
       Monitor_average_wait_time (mkMonitor (rider_activities m) drs)
       = Monitor_average_wait_time m.
Proof.
  split; [|split; [reflexivity|reflexivity]].
  unfold Monitor_average_wait_time. cbv zeta.
  rewrite int_true_divide_ZeroDivisionError.
  unfold finished_waits. split.
  - intros Hlen identifier activities Hin.
    apply wait_of_None.
    destruct (wait_of activities) as [z|] eqn:Hz; [exfalso|reflexivity].
    assert (Hel : z ∈ omap (fun entry : string * list Activity =>
                              wait_of (snd entry))
                         (map_to_list (rider_activities m))).
    { apply list_elem_of_omap. exists (identifier, activities).
      split; [apply elem_of_map_to_list; exact Hin|exact Hz]. }
    destruct (omap _ _) as [|y ys]; [apply elem_of_nil in Hel; exact Hel|].
    simpl in Hlen. lia.
  - intros Hall.
    destruct (omap _ _) as [|y ys] eqn:Hom; [reflexivity|exfalso].
    assert (Hel : y ∈ omap (fun entry : string * list Activity =>
                              wait_of (snd entry))
                         (map_to_list (rider_activities m)))
      by (rewrite Hom; apply list_elem_of_here).
    apply list_elem_of_omap in Hel as ([identifier activities] & Hin & Hy).
    apply elem_of_map_to_list in Hin. simpl in Hy.
    apply Hall in Hin. apply wait_of_None in Hin. congruence.
Qed.

(** * The events one by one *)

(** X21: [RiderRequest.do] never changes a rider.  With no idle driver it
    enqueues the rider and returns just the [Cancellation] at the request
    time plus the rider's patience.  With idle drivers, whenever it returns,
    it returns a [Pickup] for a driver taken out of the idle pool, at the
    request time plus that driver's travel time to the rider's origin,
    followed by the same [Cancellation]; that driver is then not idle and
    headed for the origin, and no other driver is changed. *)
Theorem X21_RiderRequest_do (t : Z) (rider : nat) (w : World) :
  let r := riders w !!! rider in
  let res := fst (do (RiderRequest t rider) w) in
  let w' := snd (do (RiderRequest t rider) w) in
  let cancellation := Cancellation (t + rd_patience r) rider in
  riders w' = riders w
  /\ match avail_dr (dispatcher w) with
     | [] =>
         res = Ret (Some [cancellation])
         /\ drivers w' = drivers w
         /\ dispatcher w'
            = mkDispatcher [] (wait_rd (dispatcher w) ++ [rider])
     | _ :: _ =>
         forall evs, res = Ret (Some evs) ->
         exists d travel_time,
           evs = [Pickup (t + travel_time) rider d; cancellation]
           /\ d ∈ avail_dr (dispatcher w)
           /\ avail_dr (dispatcher w) ≡ₚ d :: avail_dr (dispatcher w')
           /\ wait_rd (dispatcher w') = wait_rd (dispatcher w)
           /\ get_travel_time (drivers w !!! d) (Some (rd_origin r))
              = Ret travel_time
           /\ drivers w' !!! d
              = set_destination (Some (rd_origin r))
                  (set_is_idle false (drivers w !!! d))
           /\ forall other, other <> d ->
                drivers w' !!! other = drivers w !!! other
     end.
Proof.
  cbv zeta. unfold do. rewrite RiderRequest_do_eq. cbv zeta.
  pose proof (request_driver_cases rider
                (set_monitor
                   (Monitor_notify t RIDER REQUEST
                      (rd_identifier (riders w !!! rider))
                      (Some (rd_origin (riders w !!! rider))) (monitor w))
                   w)) as Hcases.
  destruct (request_driver rider _) as [[[d|]|x] w2] eqn:Hrd.
  - destruct Hcases as (i & Hi & ->). simpl in Hi.
    rewrite start_drive_eq. cbv zeta.
    split; [destruct (get_travel_time _ _); reflexivity|].
    destruct (avail_dr (dispatcher w)) as [|d0 avail] eqn:Hav;
      [discriminate|].
    intros evs.
    destruct (get_travel_time _ _) as [tt|x] eqn:Htt; [|discriminate].
    intros H. inversion H; subst; clear H.
    exists d, tt. simpl. rewrite Hav.
    split; [reflexivity|].
    split; [eapply list_elem_of_lookup_2; exact Hi|].
    split; [apply delete_Permutation; exact Hi|].
    split; [reflexivity|].
    split; [exact Htt|].
    split; [apply lookup_total_insert_eq|].
    intros other Hne. apply lookup_total_insert_ne. congruence.
  - destruct Hcases as (Hav & ->). simpl in Hav. rewrite Hav. simpl.
    rewrite Hav. repeat split.
  - cbv beta iota in Hcases. subst w2. split; [reflexivity|].
    destruct (avail_dr (dispatcher w)) as [|d0 avail] eqn:Hav.
    + exfalso. rewrite request_driver_unfold in Hrd.
      simpl avail_dr in Hrd. rewrite Hav in Hrd. discriminate Hrd.
    + intros evs H. discriminate H.
Qed.

(** X22: [DriverRequest.do] with no waiting rider registers the driver at the
    end of the idle pool, returns no event and changes nothing else but the
    monitor.  With waiting riders it takes the front one, whatever its
    status, the driver becomes not idle and headed for that rider's origin,
    and the result is the [Pickup] at the request time plus the travel time,
    or the exception of the travel time; no rider and no other driver is
    changed, and the idle pool is untouched. *)
Theorem X22_DriverRequest_do (t : Z) (driver : nat) (w : World) :
  let d := drivers w !!! driver in
  let res := fst (do (DriverRequest t driver) w) in
  let w' := snd (do (DriverRequest t driver) w) in
  riders w' = riders w
  /\ (forall other, other <> driver ->
        drivers w' !!! other = drivers w !!! other)
  /\ match wait_rd (dispatcher w) with
     | [] =>
         res = Ret (Some [])
         /\ drivers w' = drivers w
         /\ dispatcher w'
            = mkDispatcher (avail_dr (dispatcher w) ++ [driver]) []
     | r :: rest =>
         let origin := rd_origin (riders w !!! r) in
         let driving := set_destination (Some origin) (set_is_idle false d) in
         drivers w' !!! driver = driving
         /\ dispatcher w' = mkDispatcher (avail_dr (dispatcher w)) rest
         /\ res = obind (get_travel_time driving (Some origin))
                    (fun travel_time =>
                       Ret (Some [Pickup (t + travel_time) r driver]))
     end.
Proof.
  cbv zeta. unfold do. rewrite DriverRequest_do_eq. cbv zeta.
  destruct (wait_rd (dispatcher w)) as [|r rest] eqn:Hw.
  - simpl. rewrite Hw. repeat split.
  - rewrite start_drive_eq. cbv zeta.
    destruct (get_travel_time _ _) as [tt|x] eqn:Htt; simpl;
      rewrite lookup_total_insert_eq;
      (split; [reflexivity|]);
      (split; [intros other Hne; apply lookup_total_insert_ne; congruence|]);
      repeat split.
Qed.

(** X23: [Dropoff.do] never raises and never looks at its rider.  It returns
    exactly one [DriverRequest] for the driver at the same timestamp and
    leaves the driver at its former destination, idle and without
    destination; riders, dispatcher and all other drivers are unchanged. *)
Theorem X23_Dropoff_do (t : Z) (rider driver : nat) (w : World) :
  let d := drivers w !!! driver in
  let w' := snd (do (Dropoff t rider driver) w) in
  fst (do (Dropoff t rider driver) w) = Ret (Some [DriverRequest t driver])
  /\ drivers w' !!! driver
     = mkDriver (dr_identifier d) (dr_destination d) (dr_speed d) true None
  /\ (forall other, other <> driver ->
        drivers w' !!! other = drivers w !!! other)
  /\ riders w' = riders w
  /\ dispatcher w' = dispatcher w
  /\ forall rider', snd (do (Dropoff t rider' driver) w) = w'.
Proof.
  cbv zeta. unfold do. rewrite (Dropoff_do_eq t rider). cbv zeta.
  cbn [fst snd].
  split; [reflexivity|].
  split; [simpl; rewrite lookup_total_insert_eq; reflexivity|].
  split; [intros other Hne; simpl; apply lookup_total_insert_ne; congruence|].
  split; [reflexivity|]. split; [reflexivity|].
  intros rider'. rewrite Dropoff_do_eq. reflexivity.
Qed.

(** * A whole ride *)

Ltac world_simpl :=
  unfold set_monitor, set_drivers, set_riders, set_avail_dr, set_wait_rd;
  cbn [drivers riders dispatcher monitor avail_dr wait_rd fst snd].

Lemma get_travel_time_fields (a b : Driver) (dest : option Location) :
  dr_location a = dr_location b -> dr_speed a = dr_speed b ->
  get_travel_time a dest = get_travel_time b dest.
Proof. unfold get_travel_time. intros -> ->. reflexivity. Qed.

(** X24: one ride from request to the next registration.  Starting with one
    idle driver, no waiting rider and a rider that is [WAITING], the request
    of the rider, the pickup it schedules, the dropoff and the driver's new
    request return in turn the [Pickup] and [Cancellation], the [Dropoff],
    the [DriverRequest] and no event, at the request time plus the two travel
    times.  Afterwards the dispatcher is as before, with the driver idle in
    the pool, the driver is at the rider's destination, the rider is
    [SATISFIED], and no other driver or rider has changed. *)
Theorem X24_ride_cycle (t : Z) (rider driver : nat) (w : World)
    (to_origin to_destination : Z) :
  let r := riders w !!! rider in
  let d := drivers w !!! driver in
  let t1 := t + to_origin in
  let t2 := t1 + to_destination in
  let s1 := do (RiderRequest t rider) w in
  let s2 := do (Pickup t1 rider driver) (snd s1) in
  let s3 := do (Dropoff t2 rider driver) (snd s2) in
  let s4 := do (DriverRequest t2 driver) (snd s3) in
  dispatcher w = mkDispatcher [driver] [] ->
  rd_status r = WAITING ->
  get_travel_time d (Some (rd_origin r)) = Ret to_origin ->
  get_travel_time (set_location (Some (rd_origin r)) d)
    (Some (rd_destination r)) = Ret to_destination ->
  fst s1 = Ret (Some [Pickup t1 rider driver;
                      Cancellation (t + rd_patience r) rider])
  /\ fst s2 = Ret (Some [Dropoff t2 rider driver])
  /\ fst s3 = Ret (Some [DriverRequest t2 driver])
  /\ fst s4 = Ret (Some [])
  /\ dispatcher (snd s4) = dispatcher w
  /\ drivers (snd s4) !!! driver
     = mkDriver (dr_identifier d) (Some (rd_destination r)) (dr_speed d)
         true None
  /\ riders (snd s4) !!! rider = set_status SATISFIED r
  /\ (forall other, other <> driver ->
        drivers (snd s4) !!! other = drivers w !!! other)
  /\ (forall other, other <> rider ->
        riders (snd s4) !!! other = riders w !!! other).
Proof.
  destruct w as [ds rs dis mon]. cbv zeta. cbn [dispatcher drivers riders].
  intros -> Hst Htt1 Htt2.
  (* the request *)
  assert (H1 : exists mon1,
            do (RiderRequest t rider)
              (mkWorld ds rs (mkDispatcher [driver] []) mon)
            = (Ret (Some [Pickup (t + to_origin) rider driver;
                          Cancellation (t + rd_patience (rs !!! rider)) rider]),
               mkWorld
                 (<[driver := set_destination (Some (rd_origin (rs !!! rider)))
                                (set_is_idle false (ds !!! driver))]> ds)
                 rs (mkDispatcher [] []) mon1)).
  { eexists. unfold do. rewrite RiderRequest_do_eq. cbv zeta.
    rewrite request_driver_unfold.
    world_simpl. rewrite start_drive_eq. cbv zeta. world_simpl.
    rewrite (get_travel_time_fields _ (ds !!! driver)) by reflexivity.
    rewrite Htt1. reflexivity. }
  destruct H1 as [mon1 H1]. rewrite H1. cbn [fst snd].
  (* the pickup *)
  assert (H2 : exists mon2,
            do (Pickup (t + to_origin) rider driver)
              (mkWorld
                 (<[driver := set_destination (Some (rd_origin (rs !!! rider)))
                                (set_is_idle false (ds !!! driver))]> ds)
                 rs (mkDispatcher [] []) mon1)
            = (Ret (Some [Dropoff (t + to_origin + to_destination)
                            rider driver]),
               mkWorld
                 (<[driver := mkDriver (dr_identifier (ds !!! driver))
                                (Some (rd_origin (rs !!! rider)))
                                (dr_speed (ds !!! driver)) true
                                (Some (rd_destination (rs !!! rider)))]> ds)
                 (<[rider := set_status SATISFIED (rs !!! rider)]> rs)
                 (mkDispatcher [] []) mon2)).
  { eexists. unfold do. rewrite Pickup_do_eq. cbv zeta.
    world_simpl. rewrite Hst. rewrite start_ride_eq. cbv zeta. world_simpl.
    rewrite !lookup_total_insert_eq, !insert_insert_eq.
    rewrite (get_travel_time_fields _
               (set_location (Some (rd_origin (rs !!! rider)))
                  (ds !!! driver))) by reflexivity.
    rewrite Htt2. reflexivity. }
  destruct H2 as [mon2 H2]. rewrite H2. cbn [fst snd].
  (* the dropoff *)
  assert (H3 : exists mon3,
            do (Dropoff (t + to_origin + to_destination) rider driver)
              (mkWorld
                 (<[driver := mkDriver (dr_identifier (ds !!! driver))
                                (Some (rd_origin (rs !!! rider)))
                                (dr_speed (ds !!! driver)) true
                                (Some (rd_destination (rs !!! rider)))]> ds)
                 (<[rider := set_status SATISFIED (rs !!! rider)]> rs)
                 (mkDispatcher [] []) mon2)
            = (Ret (Some [DriverRequest (t + to_origin + to_destination)
                            driver]),
               mkWorld
                 (<[driver := mkDriver (dr_identifier (ds !!! driver))
                                (Some (rd_destination (rs !!! rider)))
                                (dr_speed (ds !!! driver)) true None]> ds)
                 (<[rider := set_status SATISFIED (rs !!! rider)]> rs)
                 (mkDispatcher [] []) mon3)).
  { eexists. unfold do. rewrite Dropoff_do_eq. cbv zeta. world_simpl.
    rewrite !lookup_total_insert_eq, !insert_insert_eq. reflexivity. }
  destruct H3 as [mon3 H3]. rewrite H3. cbn [fst snd].
  (* the new request of the driver *)
  assert (H4 : exists mon4,
            do (DriverRequest (t + to_origin + to_destination) driver)
              (mkWorld
                 (<[driver := mkDriver (dr_identifier (ds !!! driver))
                                (Some (rd_destination (rs !!! rider)))
                                (dr_speed (ds !!! driver)) true None]> ds)
                 (<[rider := set_status SATISFIED (rs !!! rider)]> rs)
                 (mkDispatcher [] []) mon3)
            = (Ret (Some []),
               mkWorld
                 (<[driver := mkDriver (dr_identifier (ds !!! driver))
                                (Some (rd_destination (rs !!! rider)))
                                (dr_speed (ds !!! driver)) true None]> ds)
                 (<[rider := set_status SATISFIED (rs !!! rider)]> rs)
                 (mkDispatcher [driver] []) mon4)).
  { eexists. unfold do. rewrite DriverRequest_do_eq. cbv zeta. world_simpl.
    reflexivity. }
  destruct H4 as [mon4 H4]. rewrite H4. cbn [fst snd drivers riders dispatcher].
  rewrite !lookup_total_insert_eq.
  split; [reflexivity|]. split; [reflexivity|]. split; [reflexivity|].
  split; [reflexivity|]. split; [reflexivity|]. split; [reflexivity|].
  split; [reflexivity|]. split.
  - intros other Hne. apply lookup_total_insert_ne. congruence.
  - intros other Hne. apply lookup_total_insert_ne. congruence.
Qed.

Lemma X24_witness :
  let w := doctest_world [0%nat] [] in
  let s1 := do (RiderRequest 0 0%nat) w in
  let s2 := do (Pickup 0 0%nat 0%nat) (snd s1) in
  let s3 := do (Dropoff 3 0%nat 0%nat) (snd s2) in
  let s4 := do (DriverRequest 3 0%nat) (snd s3) in
  fst s1 = Ret (Some [Pickup 0 0%nat 0%nat; Cancellation 100 0%nat])
  /\ fst s2 = Ret (Some [Dropoff 3 0%nat 0%nat])
  /\ fst s3 = Ret (Some [DriverRequest 3 0%nat])
  /\ fst s4 = Ret (Some [])
  /\ dispatcher (snd s4) = dispatcher w
  /\ drivers (snd s4) !!! 0%nat
     = mkDriver "Charles" (Some (mkLocation 5 4)) 3 true None
  /\ riders (snd s4) !!! 0%nat = set_status SATISFIED lola.
Proof.
  cbv zeta.
  destruct (X24_ride_cycle 0 0%nat 0%nat (doctest_world [0%nat] []) 0 3)
    as (H1 & H2 & H3 & H4 & H5 & H6 & H7 & _).
  - reflexivity.
  - reflexivity.
  - vm_compute. reflexivity.
  - vm_compute. reflexivity.
  - repeat split; assumption.
Defined.

(** * The equality methods *)

Lemma Location_eq_iff (a b : Location) : Location_eq a b = true <-> a = b.
Proof.
  split; [apply Location_eq_true|]. intros ->.
  unfold Location_eq. rewrite !Z.eqb_refl. reflexivity.
Qed.

Lemma opt_Location_eq_iff (a b : option Location) :
  opt_Location_eq a b = true <-> a = b.
Proof.
  destruct a as [x|], b as [y|]; simpl; try (split; congruence).
  rewrite Location_eq_iff. split; congruence.
Qed.

(** X25: what the [__eq__] methods compare.  Two locations are equal exactly
    when their rows and columns are, two riders exactly when all five fields
    are, the status included.  Two drivers are equal exactly when identifier,
    location, speed and [is_idle] agree: the destination is not compared, so
    a driver stays equal to itself when only its destination changes, and
    stops being equal to its former self when [is_idle] flips. *)
Theorem X25_equality_methods :
  (forall a b : Location, Location_eq a b = true <-> a = b)
  /\ (forall a b : Rider, Rider_eq a b = true <-> a = b)
  /\ (forall a b : Driver,
        Driver_eq a b = true
        <-> dr_identifier a = dr_identifier b
            /\ dr_location a = dr_location b
            /\ dr_speed a = dr_speed b
            /\ is_idle a = is_idle b)
  /\ (forall (d : Driver) (x : option Location),
        Driver_eq d (set_destination x d) = true)
  /\ (forall d : Driver,
        Driver_eq d (set_is_idle (negb (is_idle d)) d) = false)
  /\ (forall (r : Rider) (s : status),
        Rider_eq r (set_status s r) = bool_decide (rd_status r = s)).
Proof.
  assert (HD : forall a b : Driver,
            Driver_eq a b = true
            <-> dr_identifier a = dr_identifier b
                /\ dr_location a = dr_location b
                /\ dr_speed a = dr_speed b
                /\ is_idle a = is_idle b).
  { intros a b. unfold Driver_eq.
    rewrite !andb_true_iff, String.eqb_eq, opt_Location_eq_iff, Z.eqb_eq,
      Bool.eqb_true_iff. tauto. }
  assert (HR : forall a b : Rider, Rider_eq a b = true <-> a = b).
  { intros a b. unfold Rider_eq.
    rewrite !andb_true_iff, String.eqb_eq, !Location_eq_iff, Z.eqb_eq,
      bool_decide_eq_true.
    destruct a, b; simpl. split.
    - intros ((((-> & ->) & ->) & ->) & ->). reflexivity.
    - intros H. inversion H. auto. }
  split; [apply Location_eq_iff|]. split; [exact HR|]. split; [exact HD|].
  split; [|split].
  - intros d x. apply HD. repeat split.
  - intros d. destruct (Driver_eq d _) eqn:H; [|reflexivity].
    apply HD in H as (_ & _ & _ & H). simpl in H. destruct (is_idle d);
      discriminate.
  - intros r s. destruct (decide (rd_status r = s)) as [<-|Hne].
    + rewrite bool_decide_eq_true_2 by reflexivity.
      apply HR. destruct r. reflexivity.
    + rewrite bool_decide_eq_false_2 by exact Hne.
      destruct (Rider_eq r _) eqn:H; [|reflexivity].
      apply HR in H. rewrite H in Hne. destruct r. simpl in Hne. congruence.
Qed.

(** * Exact float arithmetic on small integers *)

Lemma pos_ge_pow2_digits (m : positive) :
  2 ^ (Z.pos (digits2_pos m) - 1) <= Z.pos m.
Proof.
  rewrite digits2_pos_size.
  pose proof (Pos.size_le m) as H.
  apply Pos2Z.pos_le_pos in H. rewrite Pos2Z.inj_pow in H.
  change (Z.pos m~0) with (2 * Z.pos m) in H. change (Z.pos 2) with 2 in H.
  assert (Hs : 0 < Z.pos (Pos.size m)) by lia.
  replace (Z.pos (Pos.size m)) with (Z.succ (Z.pos (Pos.size m) - 1)) in H
    by lia.
  rewrite Z.pow_succ_r in H by lia. lia.
Qed.

Lemma digits2_pos_eq (m : positive) (d : Z) :
  2 ^ (d - 1) <= Z.pos m < 2 ^ d -> Z.pos (digits2_pos m) = d.
Proof.
  intros [Hlo Hhi].
  pose proof (pos_lt_pow2_digits m) as H1.
  pose proof (pos_ge_pow2_digits m) as H2.
  set (d0 := Z.pos (digits2_pos m)) in *.
  destruct (Z.lt_trichotomy d0 d) as [Hlt|[Heq|Hgt]]; [exfalso|exact Heq|exfalso].
  - assert (2 ^ d0 <= 2 ^ (d - 1)) by (apply Z.pow_le_mono_r; lia). lia.
  - destruct (Z.le_gt_cases 0 d) as [Hd|Hd].
    + assert (2 ^ d <= 2 ^ (d0 - 1)) by (apply Z.pow_le_mono_r; lia). lia.
    + rewrite (Z.pow_neg_r 2 d) in Hhi by lia. lia.
Qed.

Lemma binary_round_aux_exact (s : bool) (m : positive) (e : Z) :
  Z.pos (digits2_pos m) = 53 -> -1074 <= e <= 971 ->
  binary_round_aux prec64 emax64 s (Z.pos m) e loc_Exact = S754_finite s m e.
Proof.
  intros Hd He.
  assert (Hshift : fexp prec64 emax64 (Z.pos (digits2_pos m) + e) - e = 0).
  { rewrite Hd. unfold fexp, emin, prec64, emax64. lia. }
  unfold binary_round_aux, shr_fexp, Zdigits2.
  unfold shr_record_of_loc. rewrite Hshift. cbn [shr shr_m loc_of_shr_record round_nearest_even].
  rewrite Hshift. cbn [shr shr_m].
  replace (e <=? emax64 - prec64) with true; [reflexivity|].
  symmetry. apply Z.leb_le. unfold emax64, prec64. lia.
Qed.

Lemma iter_xO_pow (m d : positive) :
  Z.pos (Pos.iter xO m d) = Z.pos m * 2 ^ Z.pos d.
Proof.
  induction d as [|d IH] using Pos.peano_ind.
  - simpl. lia.
  - rewrite Pos.iter_succ, Pos2Z.inj_xO, IH, Pos2Z.inj_succ.
    rewrite Z.pow_succ_r by lia. lia.
Qed.

Lemma shl_align_spec (mx : positive) (ex ex' : Z) :
  snd (shl_align mx ex ex') = Z.min ex ex'
  /\ Z.pos (fst (shl_align mx ex ex'))
     = Z.pos mx * 2 ^ (ex - Z.min ex ex').
Proof.
  unfold shl_align. destruct (ex' - ex) as [|d|d] eqn:Hd; cbn [fst snd].
  - replace (Z.min ex ex') with ex by lia. rewrite Z.sub_diag. simpl. lia.
  - replace (Z.min ex ex') with ex by lia. rewrite Z.sub_diag. simpl. lia.
  - replace (Z.min ex ex') with ex' by lia. split; [reflexivity|].
    rewrite iter_xO_pow. f_equal. f_equal. lia.
Qed.

Lemma pow2_pos (k : Z) : 0 <= k -> 0 < 2 ^ k.
Proof. intros. apply Z.pow_pos_nonneg; lia. Qed.

Lemma scale_bounds (lo hi x k : Z) :
  lo <= x < hi -> 0 < k -> lo * k <= x * k < hi * k.
Proof.
  intros [H1 H2] Hk. split.
  - apply Z.mul_le_mono_nonneg_r; lia.
  - apply Z.mul_lt_mono_pos_r; lia.
Qed.

Lemma float_of_int_exact (n : Z) :
  0 <= n < 2 ^ 53 ->
  exists f, float_of_int n = Ret f /\ float_is_int f n.
Proof.
  intros [Hlo Hhi]. destruct n as [|p|p]; [| |lia].
  - exists (S754_zero false). split; [reflexivity|]. left. auto.
  - unfold float_of_int, binary_normalize, binary_round.
    set (d := Z.pos (digits2_pos p)).
    assert (Hd : 1 <= d <= 53).
    { split; [subst d; lia|].
      pose proof (pos_ge_pow2_digits p) as H. fold d in H.
      destruct (Z.le_gt_cases d 53) as [|Hgt]; [assumption|exfalso].
      assert (2 ^ 53 <= 2 ^ (d - 1)) by (apply Z.pow_le_mono_r; lia). lia. }
    assert (Hf : fexp prec64 emax64 (d + 0) = d - 53).
    { unfold fexp, emin, prec64, emax64. lia. }
    rewrite Hf.
    destruct (shl_align_spec p 0 (d - 53)) as [He Hm].
    destruct (shl_align p 0 (d - 53)) as [mz ez]. cbn [fst snd] in He, Hm.
    replace (Z.min 0 (d - 53)) with (d - 53) in He, Hm by lia. subst ez.
    replace (0 - (d - 53)) with (53 - d) in Hm by lia.
    assert (Hdig : Z.pos (digits2_pos mz) = 53).
    { apply digits2_pos_eq. rewrite Hm.
      pose proof (pos_lt_pow2_digits p) as H1.
      pose proof (pos_ge_pow2_digits p) as H2. fold d in H1, H2.
      pose proof (pow2_pos (53 - d) ltac:(lia)) as Hp.
      assert (E1 : 2 ^ (53 - 1) = 2 ^ (d - 1) * 2 ^ (53 - d)).
      { rewrite <- Z.pow_add_r by lia. f_equal. lia. }
      assert (E2 : 2 ^ 53 = 2 ^ d * 2 ^ (53 - d)).
      { rewrite <- Z.pow_add_r by lia. f_equal. lia. }
      rewrite E1, E2. split; nia. }
    rewrite binary_round_aux_exact by (assumption || lia).
    eexists. split; [reflexivity|]. right. split; [lia|].
    exists mz, (d - 53). repeat split; try assumption; try lia.
    rewrite Hm. f_equal. f_equal. lia.
Qed.

Lemma int_of_float_exact (f : spec_float) (n : Z) :
  float_is_int f n -> int_of_float f = Ret n.
Proof.
  intros [[-> ->]|(Hn & m & e & -> & Hd & He & Hm)]; [reflexivity|].
  unfold int_of_float. rewrite Hm.
  destruct (0 <=? e) eqn:H0.
  - apply Z.leb_le in H0. assert (e = 0) by lia. subst e. simpl. f_equal. lia.
  - f_equal. apply Z.div_mul. pose proof (pow2_pos (- e)). lia.
Qed.

Lemma sqrtrem_square (a : Z) : 0 <= a -> Z.sqrtrem (a * a) = (a, 0).
Proof.
  intros Ha. pose proof (Z.sqrtrem_spec (a * a) ltac:(nia)) as H.
  destruct (Z.sqrtrem (a * a)) as [s r]. destruct H as [H1 H2].
  assert (s = a) by nia. subst s. f_equal. lia.
Qed.

Lemma digits2_pos_53 (m : positive) :
  Z.pos (digits2_pos m) = 53 -> 2 ^ 52 <= Z.pos m < 2 ^ 53.
Proof.
  intros H. pose proof (pos_lt_pow2_digits m) as H1.
  pose proof (pos_ge_pow2_digits m) as H2. rewrite H in H1, H2.
  change (53 - 1) with 52 in H2. lia.
Qed.

Lemma float_pow_half_exact (f : spec_float) (d : Z) :
  0 <= d -> float_is_int f (d * d) -> float_is_int (float_pow_half f) d.
Proof.
  intros Hd0 [[H0 ->]|(Hn & m & e & -> & Hd & He & Hm)].
  - left. split; [nia|reflexivity].
  - right. assert (Hdpos : 0 < d) by nia. split; [exact Hdpos|].
    unfold float_pow_half, SFsqrt, SFsqrt_core_binary, Zdigits2.
    rewrite Hd.
    set (h := e / 2).
    assert (Hh : 2 * h <= e <= 2 * h + 1).
    { subst h. pose proof (Z.div_mod e 2 ltac:(lia)).
      pose proof (Z.mod_pos_bound e 2 ltac:(lia)). lia. }
    assert (He' : Z.min (fexp prec64 emax64 (Z.div2 (53 + e + 1))) (Z.div2 e)
                  = h - 26).
    { rewrite !Z.div2_div. unfold fexp, emin, prec64, emax64.
      replace ((53 + e + 1) / 2) with (h + 27).
      2:{ replace (53 + e + 1) with (e + 27 * 2) by lia.
          rewrite Z.div_add by lia. reflexivity. }
      fold h. lia. }
    rewrite He'.
    set (k := 26 - h).
    assert (Hk : 26 <= k <= 52) by lia.
    assert (Hs : 52 <= e - 2 * (h - 26) <= 53) by lia.
    set (s := e - 2 * (h - 26)) in *.
    assert (Hm' : match s with
                  | 0 => Z.pos m
                  | Z.pos _ => Z.shiftl (Z.pos m) s
                  | Z.neg _ => 0
                  end = (d * 2 ^ k) * (d * 2 ^ k)).
    { destruct s as [|p|p] eqn:Es; try lia. rewrite <- Es.
      rewrite Z.shiftl_mul_pow2 by lia. rewrite Hm.
      replace ((d * 2 ^ k) * (d * 2 ^ k)) with (d * d * (2 ^ k * 2 ^ k)) by ring.
      rewrite <- !Z.pow_add_r by lia. rewrite <- Z.mul_assoc.
      rewrite <- Z.pow_add_r by lia. f_equal. f_equal. subst k. lia. }
    rewrite Hm'.
    pose proof (pow2_pos k ltac:(lia)) as Hpk.
    rewrite sqrtrem_square by nia. cbn [Z.eqb].
    assert (Hq : 2 ^ 52 <= d * 2 ^ k < 2 ^ 53).
    { pose proof (digits2_pos_53 m Hd) as Hmr.
      assert (Hsq : (d * 2 ^ k) * (d * 2 ^ k) = Z.pos m * 2 ^ s).
      { rewrite <- Hm'. destruct s as [|p|p] eqn:Es; try lia. rewrite <- Es.
        apply Z.shiftl_mul_pow2. lia. }
      assert (Hs1 : 2 ^ 52 <= 2 ^ s) by (apply Z.pow_le_mono_r; lia).
      assert (Hs2 : 2 ^ s <= 2 ^ 53) by (apply Z.pow_le_mono_r; lia).
      change (2 ^ 52) with 4503599627370496 in *.
      change (2 ^ 53) with 9007199254740992 in *.
      split; nia. }
    destruct (d * 2 ^ k) as [|q|q] eqn:Eq; try lia.
    assert (Hqd : Z.pos (digits2_pos q) = 53).
    { apply digits2_pos_eq. change (53 - 1) with 52. exact Hq. }
    rewrite binary_round_aux_exact by (assumption || lia).
    exists q, (h - 26). repeat split; try assumption; try lia.
    rewrite <- Eq. f_equal. f_equal. subst k. lia.
Qed.

Lemma iter_pos_eq {A} (f : A -> A) (p : positive) (x : A) :
  SpecFloat.iter_pos f p x = Pos.iter f x p.
Proof.
  revert x. induction p as [p IH|p IH|]; intros x; simpl.
  - rewrite !IH. rewrite <- !Pos.iter_swap. reflexivity.
  - rewrite !IH. reflexivity.
  - reflexivity.
Qed.

Lemma iter_pos_shr_1 (p : positive) (M q : positive) :
  Z.pos M = Z.pos q * 2 ^ Z.pos p ->
  SpecFloat.iter_pos shr_1 p (Build_shr_record (Z.pos M) false false)
  = Build_shr_record (Z.pos q) false false.
Proof.
  rewrite iter_pos_eq. revert M.
  induction p as [|p IH] using Pos.peano_ind; intros M HM.
  - assert (M = (q~0)%positive) by lia. subst M. reflexivity.
  - rewrite Pos.iter_succ, <- Pos.iter_swap.
    rewrite Pos2Z.inj_succ, Z.pow_succ_r in HM by lia.
    pose proof (pow2_pos (Z.pos p) ltac:(lia)) as Hp.
    destruct (Z.pos q * 2 ^ Z.pos p) as [|M'|M'] eqn:E; try lia.
    assert (M = (M'~0)%positive) by lia. subst M.
    cbn [shr_1 orb]. apply IH. reflexivity.
Qed.

Lemma binary_round_aux_exact_shift (P q : positive) (e n : Z) :
  0 <= n -> Z.pos P = Z.pos q * 2 ^ n -> Z.pos (digits2_pos q) = 53 ->
  -1074 <= e + n <= 971 ->
  binary_round_aux prec64 emax64 false (Z.pos P) e loc_Exact
  = S754_finite false q (e + n).
Proof.
  intros Hn HP Hq He.
  destruct (Z.eq_dec n 0) as [->|Hn0].
  - assert (P = q) by (simpl in HP; lia). subst P.
    rewrite Z.add_0_r in *. apply binary_round_aux_exact; assumption.
  - assert (HdP : Z.pos (digits2_pos P) = 53 + n).
    { apply digits2_pos_eq. rewrite HP.
      pose proof (digits2_pos_53 q Hq) as Hr.
      pose proof (pow2_pos n Hn) as Hp.
      replace (53 + n - 1) with (52 + n) by lia.
      rewrite !Z.pow_add_r by lia. split; nia. }
    assert (Hshift : fexp prec64 emax64 (Z.pos (digits2_pos P) + e) - e = n).
    { rewrite HdP. unfold fexp, emin, prec64, emax64. lia. }
    assert (Hshift' : fexp prec64 emax64 (Z.pos (digits2_pos q) + (e + n))
                      - (e + n) = 0).
    { rewrite Hq. unfold fexp, emin, prec64, emax64. lia. }
    unfold binary_round_aux, shr_fexp, Zdigits2, shr_record_of_loc.
    rewrite Hshift. destruct n as [|p|p]; try lia.
    cbn [shr]. rewrite (iter_pos_shr_1 p P q HP).
    cbn [shr_m loc_of_shr_record round_nearest_even].
    rewrite Hshift'. cbn [shr shr_m].
    replace (e + Z.pos p <=? emax64 - prec64) with true; [reflexivity|].
    symmetry. apply Z.leb_le. unfold emax64, prec64. lia.
Qed.

Lemma shl_align_noop (mx : positive) (ex ex' : Z) :
  ex <= ex' -> shl_align mx ex ex' = (mx, ex).
Proof.
  intros H. unfold shl_align. destruct (ex' - ex) eqn:E; try reflexivity. lia.
Qed.

Lemma Zdigits_pos (n : Z) :
  0 < n -> exists d, 1 <= d /\ 2 ^ (d - 1) <= n < 2 ^ d.
Proof.
  intros Hn. destruct n as [|p|p]; try lia.
  exists (Z.pos (digits2_pos p)). split; [lia|]. split.
  - apply pos_ge_pow2_digits.
  - apply pos_lt_pow2_digits.
Qed.

Lemma float_add_exact (x y : spec_float) (a b : Z) :
  float_is_int x a -> float_is_int y b -> a + b < 2 ^ 53 ->
  float_is_int (float_add x y) (a + b).
Proof.
  intros [[-> ->]|(Ha & mx & ex & -> & Hdx & Hex & Hmx)]
         [[-> ->]|(Hb & my & ey & -> & Hdy & Hey & Hmy)] Hsum.
  - left. auto.
  - right. split; [lia|]. exists my, ey. rewrite Z.add_0_l. auto.
  - right. split; [lia|]. exists mx, ex. rewrite Z.add_0_r. auto.
  - right. split; [lia|].
    unfold float_add, SFadd. cbv zeta. cbn [cond_Zopp].
    set (ez := Z.min ex ey).
    destruct (shl_align_spec mx ex ez) as [_ HA].
    destruct (shl_align_spec my ey ez) as [_ HB].
    replace (Z.min ex ez) with ez in HA by lia.
    replace (Z.min ey ez) with ez in HB by lia.
    set (A := fst (shl_align mx ex ez)) in *.
    set (B := fst (shl_align my ey ez)) in *.
    change (Z.pos A + Z.pos B) with (Z.pos (A + B)).
    unfold binary_normalize, binary_round.
    pose proof (digits2_pos_53 mx Hdx) as Hrx.
    pose proof (digits2_pos_53 my Hdy) as Hry.
    pose proof (pow2_pos (- ez) ltac:(lia)) as Hpz.
    pose proof (pow2_pos (ex - ez) ltac:(lia)) as Hpx.
    pose proof (pow2_pos (ey - ez) ltac:(lia)) as Hpy.
    assert (HP : Z.pos (A + B) = (a + b) * 2 ^ (- ez)).
    { rewrite Pos2Z.inj_add, HA, HB, Hmx, Hmy.
      rewrite <- !Z.mul_assoc, <- !Z.pow_add_r by lia.
      replace (- ex + (ex - ez)) with (- ez) by lia.
      replace (- ey + (ey - ez)) with (- ez) by lia. ring. }
    assert (Hbig : 2 ^ 52 <= Z.pos (A + B)).
    { rewrite Pos2Z.inj_add, HA, HB.
      destruct (Z.le_ge_cases ex ey).
      - replace (ex - ez) with 0 by lia. simpl (2 ^ 0). nia.
      - replace (ey - ez) with 0 by lia. simpl (2 ^ 0). nia. }
    destruct (Zdigits_pos (a + b) ltac:(lia)) as (da & Hda1 & Hda).
    assert (Hda53 : da <= 53).
    { destruct (Z.le_gt_cases da 53) as [|Hgt]; [assumption|exfalso].
      assert (2 ^ 53 <= 2 ^ (da - 1)) by (apply Z.pow_le_mono_r; lia). lia. }
    assert (Hn : 53 <= da - ez).
    { destruct (Z.le_gt_cases 53 (da - ez)) as [|Hlt]; [assumption|exfalso].
      assert (2 ^ (da - ez) <= 2 ^ 52) by (apply Z.pow_le_mono_r; lia).
      assert (2 ^ (da - ez) = 2 ^ da * 2 ^ (- ez)).
      { rewrite <- Z.pow_add_r by lia. f_equal; lia. }
      pose proof (scale_bounds _ _ _ _ Hda Hpz). lia. }
    assert (HdP : Z.pos (digits2_pos (A + B)) = da - ez).
    { apply digits2_pos_eq. rewrite HP.
      assert (E1 : 2 ^ (da - ez - 1) = 2 ^ (da - 1) * 2 ^ (- ez)).
      { rewrite <- Z.pow_add_r by lia. f_equal; lia. }
      assert (E2 : 2 ^ (da - ez) = 2 ^ da * 2 ^ (- ez)).
      { rewrite <- Z.pow_add_r by lia. f_equal; lia. }
      rewrite E1, E2. apply scale_bounds; assumption. }
    rewrite HdP.
    assert (Hf : fexp prec64 emax64 (da - ez + ez) = da - 53).
    { unfold fexp, emin, prec64, emax64. lia. }
    rewrite Hf. rewrite shl_align_noop by lia.
    pose proof (pow2_pos (53 - da) ltac:(lia)) as Hpd.
    assert (Hqr : 2 ^ 52 <= (a + b) * 2 ^ (53 - da) < 2 ^ 53).
    { assert (E1 : 2 ^ 52 = 2 ^ (da - 1) * 2 ^ (53 - da)).
      { rewrite <- Z.pow_add_r by lia. f_equal; lia. }
      assert (E2 : 2 ^ 53 = 2 ^ da * 2 ^ (53 - da)).
      { rewrite <- Z.pow_add_r by lia. f_equal; lia. }
      rewrite E1, E2. apply scale_bounds; assumption. }
    destruct ((a + b) * 2 ^ (53 - da)) as [|q|q] eqn:Eq; try lia.
    assert (Hqd : Z.pos (digits2_pos q) = 53).
    { apply digits2_pos_eq. change (53 - 1) with 52. exact Hqr. }
    rewrite (binary_round_aux_exact_shift (A + B) q ez (da - 53 - ez));
      try assumption; try lia.
    + exists q, (ez + (da - 53 - ez)). repeat split; try assumption; try lia.
      rewrite <- Eq. f_equal. f_equal. lia.
    + rewrite HP, <- Eq, <- Z.mul_assoc, <- Z.pow_add_r by lia.
      f_equal. f_equal. lia.
Qed.

(** * Division of two integers and rounding to the nearest integer *)

Lemma new_location_ok (s r : Z) :
  0 <= r < s -> loc_ok (new_location s r) r s.
Proof.
  intros Hr. unfold new_location, new_location_even, new_location_odd.
  destruct (Z.even s) eqn:Hev.
  - destruct (r =? 0) eqn:H0; [apply Z.eqb_eq in H0; exact H0|].
    apply Z.eqb_neq in H0.
    destruct (Z.compare_spec (2 * r) s) as [Hc|Hc|Hc]; cbn [loc_ok]; lia.
  - destruct (r =? 0) eqn:H0; [apply Z.eqb_eq in H0; exact H0|].
    apply Z.eqb_neq in H0.
    assert (s <> 2 * r).
    { intros ->. rewrite Z.even_mul in Hev. discriminate. }
    destruct (Z.compare_spec (2 * r + 1) s) as [Hc|Hc|Hc]; cbn [loc_ok]; lia.
Qed.

Lemma shr_fexp_53 (q : positive) (e : Z) (l : location) :
  Z.pos (digits2_pos q) = 53 -> -1074 <= e ->
  shr_fexp prec64 emax64 (Z.pos q) e l = (shr_record_of_loc (Z.pos q) l, e).
Proof.
  intros Hd He. unfold shr_fexp, Zdigits2. rewrite Hd.
  replace (fexp prec64 emax64 (53 + e) - e) with 0; [reflexivity|].
  unfold fexp, emin, prec64, emax64. lia.
Qed.

Lemma shr_fexp_54 (q : positive) (e : Z) (l : location) :
  Z.pos (digits2_pos q) = 54 -> -1075 <= e ->
  shr_fexp prec64 emax64 (Z.pos q) e l
  = (shr_1 (shr_record_of_loc (Z.pos q) l), e + 1).
Proof.
  intros Hd He. unfold shr_fexp, Zdigits2. rewrite Hd.
  replace (fexp prec64 emax64 (54 + e) - e) with 1; [reflexivity|].
  unfold fexp, emin, prec64, emax64. lia.
Qed.

(** The second rounding step of [binary_round_aux]: a mantissa that has
    grown to 2^53 is halved. *)
Lemma round_carry (m1 : Z) (e : Z) :
  2 ^ 52 <= m1 <= 2 ^ 53 -> -1074 <= e <= 970 ->
  exists m c,
    (let '(mrs, e2) := shr_fexp prec64 emax64 m1 e loc_Exact in
     match shr_m mrs with
     | 0 => S754_zero false
     | Z.pos m => if e2 <=? emax64 - prec64 then S754_finite false m e2
                  else S754_infinity false
     | Z.neg _ => S754_nan
     end) = S754_finite false m (e + c)
    /\ 0 <= c <= 1 /\ m1 = Z.pos m * 2 ^ c /\ 2 ^ 52 <= Z.pos m < 2 ^ 53.
Proof.
  intros Hm He. destruct m1 as [|p|p]; try lia.
  destruct (Z.eq_dec (Z.pos p) (2 ^ 53)) as [Heq|Hne].
  - inversion Heq; subst p. exists (4503599627370496)%positive, 1.
    rewrite shr_fexp_54 by (reflexivity || lia).
    cbn [shr_record_of_loc shr_1 shr_m orb].
    replace (e + 1 <=? emax64 - prec64) with true
      by (symmetry; apply Z.leb_le; unfold emax64, prec64; lia).
    repeat split; try lia; reflexivity.
  - assert (Hd : Z.pos (digits2_pos p) = 53).
    { apply digits2_pos_eq. change (53 - 1) with 52. lia. }
    exists p, 0. rewrite shr_fexp_53 by (assumption || lia).
    cbn [shr_record_of_loc shr_m].
    replace (e <=? emax64 - prec64) with true
      by (symmetry; apply Z.leb_le; unfold emax64, prec64; lia).
    rewrite Z.add_0_r. repeat split; try lia.
Qed.

Lemma shr_m_of_loc (m : Z) (l : location) :
  shr_m (shr_record_of_loc m l) = m.
Proof. destruct l as [|[]]; reflexivity. Qed.

Lemma loc_of_shr_record_of_loc (m : Z) (l : location) :
  loc_of_shr_record (shr_record_of_loc m l) = l.
Proof. destruct l as [|[]]; reflexivity. Qed.

(** Rounding the quotient [N / s], given by its integer part [q] of 53 or
    54 bits and the place of its remainder, gives a mantissa nearest to the
    quotient. *)
Lemma binary_round_aux_nearest (q : positive) (e : Z) (l : location)
    (N s r : Z) :
  0 < s -> N = Z.pos q * s + r -> 0 <= r < s -> loc_ok l r s ->
  2 ^ 52 <= Z.pos q < 2 ^ 54 -> -1074 <= e <= 960 ->
  exists m j,
    binary_round_aux prec64 emax64 false (Z.pos q) e l
    = S754_finite false m (e + j)
    /\ 0 <= j <= 2
    /\ 2 * Z.abs (Z.pos m * 2 ^ j * s - N) <= 2 ^ j * s
    /\ 2 ^ 52 <= Z.pos m < 2 ^ 53.
Proof.
  intros Hs HN Hr Hl Hq He.
  change (2 ^ 52) with 4503599627370496 in *.
  change (2 ^ 54) with 18014398509481984 in *.
  destruct (Z.lt_ge_cases (Z.pos q) (2 ^ 53)) as [Hlt|Hge].
  - change (2 ^ 53) with 9007199254740992 in *.
    assert (Hd : Z.pos (digits2_pos q) = 53).
    { apply digits2_pos_eq. change (2 ^ (53 - 1)) with 4503599627370496.
      change (2 ^ 53) with 9007199254740992. lia. }
    unfold binary_round_aux. rewrite shr_fexp_53 by (assumption || lia).
    cbv beta iota. rewrite shr_m_of_loc, loc_of_shr_record_of_loc.
    set (m1 := round_nearest_even (Z.pos q) l).
    assert (Hm1 : 4503599627370496 <= m1 <= 9007199254740992
                  /\ 2 * Z.abs (m1 * s - N) <= s).
    { subst m1. destruct l as [|[]]; cbn [round_nearest_even loc_ok] in *;
        try destruct (Z.even (Z.pos q)); split; try lia; nia. }
    destruct Hm1 as [Hm1 Herr].
    destruct (round_carry m1 e) as (m & c & Heq & Hc & Hm & Hmr);
      [change (2 ^ 52) with 4503599627370496;
       change (2 ^ 53) with 9007199254740992; lia|lia|].
    exists m, c. split; [exact Heq|]. split; [lia|]. split; [|exact Hmr].
    rewrite <- Hm. assert (Hc' : c = 0 \/ c = 1) by lia.
    destruct Hc' as [-> | ->]; simpl (2 ^ _); lia.
  - change (2 ^ 53) with 9007199254740992 in *.
    assert (Hd : Z.pos (digits2_pos q) = 54).
    { apply digits2_pos_eq. change (2 ^ (54 - 1)) with 9007199254740992.
      change (2 ^ 54) with 18014398509481984. lia. }
    unfold binary_round_aux. rewrite shr_fexp_54 by (assumption || lia).
    cbv beta iota.
    set (mrs := shr_1 (shr_record_of_loc (Z.pos q) l)).
    set (m1 := round_nearest_even (shr_m mrs) (loc_of_shr_record mrs)).
    assert (Hm1 : 4503599627370496 <= m1 <= 9007199254740992
                  /\ 2 * Z.abs (m1 * 2 * s - N) <= 2 * s).
    { subst m1 mrs.
      destruct q as [p|p|]; [| |lia];
        destruct l as [|[]];
        cbn [shr_record_of_loc shr_1 orb shr_m loc_of_shr_record
             round_nearest_even loc_ok] in *;
        try destruct (Z.even (Z.pos p)); split; try lia; nia. }
    destruct Hm1 as [Hm1 Herr].
    destruct (round_carry m1 (e + 1)) as (m & c & Heq & Hc & Hm & Hmr);
      [change (2 ^ 52) with 4503599627370496;
       change (2 ^ 53) with 9007199254740992; lia|lia|].
    exists m, (1 + c). split; [|split; [lia|split; [|exact Hmr]]].
    + rewrite Z.add_assoc. exact Heq.
    + assert (Hc' : c = 0 \/ c = 1) by lia.
      destruct Hc' as [-> | ->]; simpl (2 ^ _); simpl (2 ^ _) in Hm; lia.
Qed.

(** Rounding [m / P] to an integer, where [m] is an integer nearest to
    [n * P / s] and [P] is even and larger than [s], rounds [n / s]. *)
Lemma round_half_even_scaled (n s m P P' : Z) :
  0 <= n -> 0 < s -> s < P -> P = 2 * P' ->
  2 * Z.abs (m * s - n * P) <= s ->
  round_half_even m P = round_half_even n s.
Proof.
  intros Hn Hs HsP HP Herr. unfold round_half_even. cbv zeta.
  pose proof (Z.div_mod n s ltac:(lia)) as Hdn.
  pose proof (Z.mod_pos_bound n s ltac:(lia)) as Hrn.
  pose proof (Z.div_mod m P ltac:(lia)) as Hdm.
  pose proof (Z.mod_pos_bound m P ltac:(lia)) as Hrm.
  set (k := n / s) in *. set (rho := n mod s) in *.
  set (Q := m / P) in *. set (R := m mod P) in *.
  assert (Hlo : 2 * n * P - s <= 2 * m * s) by lia.
  assert (Hhi : 2 * m * s <= 2 * n * P + s) by lia.
  destruct (Z.compare_spec (2 * rho) s) as [Hc|Hc|Hc].
  - assert (Hm : m = k * P + P').
    { assert (2 * s * (m - k * P - P') <= s) by nia.
      assert (- s <= 2 * s * (m - k * P - P')) by nia.
      nia. }
    assert (HQ : Q = k) by nia. assert (HR : R = P') by nia.
    rewrite HQ, HR, <- HP, Z.compare_refl. reflexivity.
  - assert (H1 : k * P <= m) by nia.
    assert (H2 : 2 * m < (2 * k + 1) * P) by nia.
    assert (HQ : Q = k) by nia.
    replace (2 * R ?= P) with Lt; [exact HQ|].
    symmetry. apply Z.compare_lt_iff. nia.
  - assert (H1 : (2 * k + 1) * P < 2 * m) by nia.
    assert (H2 : m <= (k + 1) * P) by nia.
    destruct (Z.eq_dec m ((k + 1) * P)) as [Heq|Hne].
    + assert (HQ : Q = k + 1) by nia. assert (HR : R = 0) by nia.
      replace (2 * R ?= P) with Lt; [exact HQ|].
      symmetry. apply Z.compare_lt_iff. lia.
    + assert (HQ : Q = k) by nia.
      replace (2 * R ?= P) with Gt; [lia|].
      symmetry. apply Z.compare_gt_iff. nia.
Qed.

(** [round(n / s)] on two ints is the integer nearest to the exact
    quotient, halves to even. *)
Lemma int_true_divide_round (n s : Z) :
  0 <= n < 2 ^ 51 -> 0 < s < 2 ^ 53 ->
  obind (int_true_divide n s) py_round = Ret (round_half_even n s).
Proof.
  intros Hn Hs. unfold int_true_divide.
  replace (s =? 0) with false by (symmetry; apply Z.eqb_neq; lia).
  destruct (Z.eq_dec n 0) as [->|Hn0].
  - simpl. unfold round_half_even. rewrite Z.mod_0_l, Z.div_0_l by lia.
    replace (2 * 0 ?= s) with Lt; [reflexivity|].
    symmetry. apply Z.compare_lt_iff. lia.
  - replace (n =? 0) with false by (symmetry; apply Z.eqb_neq; lia).
    replace (n <? 0) with false by (symmetry; apply Z.ltb_ge; lia).
    replace (s <? 0) with false by (symmetry; apply Z.ltb_ge; lia).
    rewrite !Z.abs_eq by lia. cbn [xorb].
    destruct (Zdigits_pos n ltac:(lia)) as (d1 & Hd1 & Hn1).
    destruct (Zdigits_pos s ltac:(lia)) as (d2 & Hd2 & Hs2).
    assert (Hd1' : Zdigits2 n = d1).
    { destruct n as [|p|p]; try lia. apply digits2_pos_eq. exact Hn1. }
    assert (Hd2' : Zdigits2 s = d2).
    { destruct s as [|p|p]; try lia. apply digits2_pos_eq. exact Hs2. }
    assert (Hd1b : d1 <= 51).
    { destruct (Z.le_gt_cases d1 51) as [|Hgt]; [assumption|exfalso].
      assert (2 ^ 51 <= 2 ^ (d1 - 1)) by (apply Z.pow_le_mono_r; lia). lia. }
    assert (Hd2b : d2 <= 53).
    { destruct (Z.le_gt_cases d2 53) as [|Hgt]; [assumption|exfalso].
      assert (2 ^ 53 <= 2 ^ (d2 - 1)) by (apply Z.pow_le_mono_r; lia). lia. }
    unfold SFdiv_core_binary. rewrite Hd1', Hd2'.
    set (S := 53 + d2 - d1).
    assert (He' : Z.min (fexp prec64 emax64 (d1 + 0 - (d2 + 0))) (0 - 0)
                  = - S).
    { unfold fexp, emin, prec64, emax64. lia. }
    rewrite He'. replace (0 - 0 - - S) with S by lia.
    assert (HS : 3 <= S <= 105) by lia.
    assert (Hm' : match S with
                  | 0 => n
                  | Z.pos _ => Z.shiftl n S
                  | Z.neg _ => 0
                  end = n * 2 ^ S).
    { destruct S as [|p|p] eqn:ES; try lia. rewrite <- ES.
      apply Z.shiftl_mul_pow2. lia. }
    rewrite Hm'.
    pose proof (Z_div_mod (n * 2 ^ S) s ltac:(lia)) as Hdiv.
    destruct (Z.div_eucl (n * 2 ^ S) s) as [q r]. destruct Hdiv as [HN Hr].
    pose proof (pow2_pos S ltac:(lia)) as HpS.
    assert (E1 : 2 ^ (d1 - 1) * 2 ^ S = 2 ^ 52 * 2 ^ d2).
    { rewrite <- !Z.pow_add_r by lia. f_equal. subst S. lia. }
    assert (E2 : 2 ^ d1 * 2 ^ S = 2 ^ 54 * 2 ^ (d2 - 1)).
    { rewrite <- !Z.pow_add_r by lia. f_equal. subst S. lia. }
    pose proof (pow2_pos (d2 - 1) ltac:(lia)) as Hpd2.
    assert (Hq : 2 ^ 52 <= q < 2 ^ 54).
    { pose proof (scale_bounds _ _ _ _ Hn1 HpS) as Hsc.
      rewrite E1, E2 in Hsc.
      change (2 ^ 52) with 4503599627370496 in *.
      change (2 ^ 54) with 18014398509481984 in *.
      assert (Hlo : s * 4503599627370496 < s * (q + 1)) by lia.
      assert (Hhi : s * q < s * 18014398509481984) by lia.
      apply Z.mul_lt_mono_pos_l in Hlo; [|lia].
      apply Z.mul_lt_mono_pos_l in Hhi; [|lia]. lia. }
    destruct q as [|q|q];
      [change (2 ^ 52) with 4503599627370496 in Hq; lia| |lia].
    destruct (binary_round_aux_nearest q (- S) (new_location s r)
                (n * 2 ^ S) s r)
      as (m & j & Heq & Hj & Herr & Hmr);
      [lia|lia|lia|apply new_location_ok; lia|exact Hq|lia|].
    rewrite Heq. cbn [obind py_round].
    replace (0 <=? - S + j) with false by (symmetry; apply Z.leb_gt; lia).
    f_equal.
    set (P := 2 ^ (- (- S + j))).
    change (round_half_even (Z.pos m) P = round_half_even n s).
    assert (HP : 2 ^ S = P * 2 ^ j).
    { subst P. rewrite <- Z.pow_add_r by lia. f_equal. lia. }
    pose proof (pow2_pos j ltac:(lia)) as Hpj.
    assert (HPpos : 0 < P) by (subst P; apply pow2_pos; lia).
    apply (round_half_even_scaled n s (Z.pos m) P (2 ^ (S - j - 1)));
      try lia.
    + assert (E3 : 2 ^ d2 * 2 ^ (51 - d1) <= P).
      { subst P. rewrite <- Z.pow_add_r by lia.
        apply Z.pow_le_mono_r; lia. }
      pose proof (pow2_pos (51 - d1) ltac:(lia)).
      assert (2 ^ d2 * 1 <= 2 ^ d2 * 2 ^ (51 - d1))
        by (apply Z.mul_le_mono_nonneg_l; lia).
      lia.
    + subst P. rewrite <- Z.pow_succ_r by lia. f_equal. lia.
    + rewrite HP in Herr.
      replace (Z.pos m * 2 ^ j * s - n * (P * 2 ^ j))
        with ((Z.pos m * s - n * P) * 2 ^ j) in Herr by ring.
      rewrite Z.abs_mul, (Z.abs_eq (2 ^ j)) in Herr by lia.
      apply (Z.mul_le_mono_pos_r _ _ (2 ^ j)); lia.
Qed.

(** * The travel time where the float computations are exact *)

Lemma int_pow_half_exact (x : Z) :
  Z.abs x < 2 ^ 26 ->
  exists f, int_pow_half (x ^ 2) = Ret f /\ float_is_int f (Z.abs x).
Proof.
  intros Hx. unfold int_pow_half.
  assert (Hsq : x ^ 2 = Z.abs x * Z.abs x).
  { rewrite Z.pow_2_r. lia. }
  rewrite Hsq.
  destruct (float_of_int_exact (Z.abs x * Z.abs x)) as (f & Hf & Hint).
  { change (2 ^ 26) with 67108864 in Hx.
    change (2 ^ 53) with 9007199254740992. nia. }
  rewrite Hf. cbn [obind]. eexists. split; [reflexivity|].
  apply float_pow_half_exact; [lia|exact Hint].
Qed.

Lemma manhattan_distance_exact (a b : Location) :
  close_by a b -> manhattan_distance a b = Ret (spec_manhattan_distance a b).
Proof.
  intros [Hr Hc]. unfold manhattan_distance, spec_manhattan_distance.
  destruct (int_pow_half_exact (row b - row a)) as (fr & Hfr & Hir);
    [lia|].
  destruct (int_pow_half_exact (column b - column a)) as (fc & Hfc & Hic);
    [lia|].
  rewrite Hfr, Hfc. cbn [obind].
  replace (Z.abs (row a - row b)) with (Z.abs (row b - row a)) by lia.
  replace (Z.abs (column a - column b)) with (Z.abs (column b - column a))
    by lia.
  apply int_of_float_exact. apply float_add_exact; try assumption.
  change (2 ^ 26) with 67108864 in *.
  change (2 ^ 53) with 9007199254740992. lia.
Qed.

Lemma get_travel_time_exact (d : Driver) (to : Location) :
  in_range d to ->
  get_travel_time d (Some to) = Ret (spec_driver_time d to).
Proof.
  intros (l & Hl & Hclose & Hspeed).
  unfold get_travel_time, spec_driver_time. rewrite Hl.
  rewrite (manhattan_distance_exact l to Hclose). cbn [obind].
  apply int_true_divide_round; [|exact Hspeed].
  destruct Hclose as [Hr Hc]. unfold spec_manhattan_distance.
  change (2 ^ 26) with 67108864 in *.
  change (2 ^ 51) with 2251799813685248. lia.
Qed.

(** [round_half_even n s] is an integer nearest to [n / s], and the even
    one of the two nearest when the quotient is half way. *)
Lemma round_half_even_nearest (n s : Z) :
  0 < s ->
  2 * Z.abs (round_half_even n s * s - n) <= s
  /\ (2 * Z.abs (round_half_even n s * s - n) = s ->
      Z.even (round_half_even n s) = true).
Proof.
  intros Hs. unfold round_half_even. cbv zeta.
  pose proof (Z.div_mod n s ltac:(lia)) as Hd.
  pose proof (Z.mod_pos_bound n s ltac:(lia)) as Hr.
  set (q := n / s) in *. set (r := n mod s) in *.
  destruct (Z.compare_spec (2 * r) s) as [Hc|Hc|Hc].
  - destruct (Z.even q) eqn:Hev.
    + split; [nia|intros _; exact Hev].
    + split; [nia|intros _]. rewrite Z.even_add, Hev. reflexivity.
  - split; [nia|intros H; exfalso; nia].
  - split; [nia|intros H; exfalso; nia].
Qed.

(** X26: for two locations whose rows differ by less than 2^26 and whose
    columns differ by less than 2^26, [manhattan_distance] returns exactly
    |a.row - b.row| + |a.column - b.column|: both squares are binary64
    numbers, their roots are the two differences, and the sum and its
    truncation are exact. *)
Theorem X26_manhattan_distance_exact (a b : Location) :
  close_by a b ->
  manhattan_distance a b
  = Ret (Z.abs (row a - row b) + Z.abs (column a - column b)).
Proof.
  intros [Hr Hc]. unfold manhattan_distance.
  destruct (int_pow_half_exact (row b - row a)) as (fr & Hfr & Hir);
    [lia|].
  destruct (int_pow_half_exact (column b - column a)) as (fc & Hfc & Hic);
    [lia|].
  rewrite Hfr, Hfc. cbn [obind].
  replace (Z.abs (row a - row b)) with (Z.abs (row b - row a)) by lia.
  replace (Z.abs (column a - column b)) with (Z.abs (column b - column a))
    by lia.
  apply int_of_float_exact. apply float_add_exact; try assumption.
  change (2 ^ 26) with 67108864 in *.
  change (2 ^ 53) with 9007199254740992. lia.
Qed.

Lemma X26_witness :
  close_by (mkLocation 10 10) (mkLocation 13 24)
  /\ manhattan_distance (mkLocation 10 10) (mkLocation 13 24) = Ret 17.
Proof.
  assert (H : close_by (mkLocation 10 10) (mkLocation 13 24)).
  { split; vm_compute; reflexivity. }
  split; [exact H|].
  exact (X26_manhattan_distance_exact (mkLocation 10 10) (mkLocation 13 24) H).
Defined.

(** X27: for a driver with a location [l] within 2^26 rows and columns of
    the destination and a speed between 1 and 2^53 - 1, [get_travel_time]
    returns [round(manhattanDistance(l, to) / speed)] of the specification
    with halves rounded to even: an integer at most one half away from the
    exact quotient of the Manhattan distance by the speed, and the even one
    when the quotient is exactly half way between two integers. *)
Theorem X27_get_travel_time_nearest (d : Driver) (l to : Location) :
  dr_location d = Some l -> close_by l to -> 0 < dr_speed d < 2 ^ 53 ->
  let dist := Z.abs (row l - row to) + Z.abs (column l - column to) in
  exists t,
    get_travel_time d (Some to) = Ret t
    /\ t = spec_travel_time l (dr_speed d) to
    /\ 2 * Z.abs (t * dr_speed d - dist) <= dr_speed d
    /\ (2 * Z.abs (t * dr_speed d - dist) = dr_speed d -> Z.even t = true).
Proof.
  intros Hl Hclose Hspeed dist.
  exists (spec_travel_time l (dr_speed d) to).
  split; [|split; [reflexivity|]].
  - unfold get_travel_time. rewrite Hl.
    rewrite (manhattan_distance_exact l to Hclose). cbn [obind].
    apply int_true_divide_round; [|exact Hspeed].
    destruct Hclose as [Hr Hc]. unfold spec_manhattan_distance.
    change (2 ^ 26) with 67108864 in *.
    change (2 ^ 51) with 2251799813685248. lia.
  - unfold spec_travel_time. fold dist.
    change (spec_manhattan_distance l to) with dist.
    apply round_half_even_nearest. lia.
Qed.

Lemma X27_witness :
  dr_location bunny = Some (mkLocation 10 10)
  /\ close_by (mkLocation 10 10) (mkLocation 10 15)
  /\ 0 < dr_speed bunny < 2 ^ 53
  /\ exists t,
       get_travel_time bunny (Some (mkLocation 10 15)) = Ret t
       /\ t = spec_travel_time (mkLocation 10 10) (dr_speed bunny)
                (mkLocation 10 15)
       /\ 2 * Z.abs (t * dr_speed bunny - (Z.abs (10 - 10) + Z.abs (10 - 15)))
          <= dr_speed bunny
       /\ (2 * Z.abs (t * dr_speed bunny
                      - (Z.abs (10 - 10) + Z.abs (10 - 15)))
           = dr_speed bunny -> Z.even t = true).
Proof.
  assert (H1 : dr_location bunny = Some (mkLocation 10 10)) by reflexivity.
  assert (H2 : close_by (mkLocation 10 10) (mkLocation 10 15)).
  { split; vm_compute; reflexivity. }
  assert (H3 : 0 < dr_speed bunny < 2 ^ 53).
  { split; vm_compute; reflexivity. }
  split; [exact H1|]. split; [exact H2|]. split; [exact H3|].
  exact (X27_get_travel_time_nearest bunny (mkLocation 10 10)
           (mkLocation 10 15) H1 H2 H3).
Defined.

(** X28: when the idle pool is not empty and every idle driver has a
    location within 2^26 rows and columns of the rider's origin and a speed
    between 1 and 2^53 - 1, [request_driver] raises no exception and returns
    the idle driver whose travel time by the formula of the specification,
    [round(manhattanDistance(driver.location, rider.origin) / speed)], is
    smallest, the first of them in the order of the pool, and removes
    exactly that entry of the pool. *)
Theorem X28_request_driver_nearest (rider : nat) (w : World) :
  let avail := avail_dr (dispatcher w) in
  let origin := rd_origin (riders w !!! rider) in
  let time := fun d : nat => spec_driver_time (drivers w !!! d) origin in
  avail <> [] ->
  Forall (fun d => in_range (drivers w !!! d) origin) avail ->
  exists i d,
    avail !! i = Some d
    /\ (forall j d', avail !! j = Some d' ->
          time d <= time d' /\ ((j < i)%nat -> time d < time d'))
    /\ request_driver rider w
       = (Ret (Some d), set_avail_dr (delete i avail) w).
Proof.
  intros avail origin time Hne Hall.
  destruct avail as [|d0 [|d1 rest]] eqn:Havail; [congruence| |].
  - exists 0%nat, d0. split; [reflexivity|]. split.
    + intros j d' Hj. destruct j as [|j]; [|discriminate].
      inversion Hj; subst. split; lia.
    + subst avail. rewrite request_driver_unfold, Havail. reflexivity.
  - assert (Hts : travel_times w origin avail (map time avail)).
    { rewrite Havail. clear Havail Hne. unfold travel_times.
      induction Hall as [|d ds Hd Hds IH]; simpl; constructor.
      - apply get_travel_time_exact. exact Hd.
      - exact IH. }
    destruct (request_driver_many rider w (map time avail))
      as (i & d & t & Hi & Hti & Hmin & _ & Hrun).
    { subst avail. rewrite Havail. simpl. lia. }
    { exact Hts. }
    fold avail in Hi, Hrun. rewrite <- Havail.
    assert (Ht : t = time d).
    { rewrite list_lookup_fmap, Hi in Hti. simpl in Hti. congruence. }
    subst t. exists i, d. split; [exact Hi|]. split; [|exact Hrun].
    intros j d' Hj. apply (Hmin j (time d')).
    rewrite list_lookup_fmap, Hj. reflexivity.
Qed.

Lemma X28_witness :
  avail_dr (dispatcher (doctest_world [0%nat; 1%nat] [])) <> []
  /\ Forall (fun d => in_range (drivers (doctest_world [0%nat; 1%nat] []) !!! d)
                        (rd_origin (riders (doctest_world [0%nat; 1%nat] [])
                                    !!! 0%nat)))
       (avail_dr (dispatcher (doctest_world [0%nat; 1%nat] [])))
  /\ exists i d,
       [0%nat; 1%nat] !! i = Some d
       /\ (forall j d', [0%nat; 1%nat] !! j = Some d' ->
             spec_driver_time (doctest_drivers !!! d) (mkLocation 0 0)
             <= spec_driver_time (doctest_drivers !!! d') (mkLocation 0 0)
             /\ ((j < i)%nat ->
                 spec_driver_time (doctest_drivers !!! d) (mkLocation 0 0)
                 < spec_driver_time (doctest_drivers !!! d') (mkLocation 0 0)))
       /\ request_driver 0%nat (doctest_world [0%nat; 1%nat] [])
          = (Ret (Some d),
             set_avail_dr (delete i [0%nat; 1%nat])
               (doctest_world [0%nat; 1%nat] [])).
Proof.
  assert (H1 : avail_dr (dispatcher (doctest_world [0%nat; 1%nat] [])) <> [])
    by discriminate.
  assert (H2 : Forall
            (fun d => in_range (drivers (doctest_world [0%nat; 1%nat] []) !!! d)
                        (rd_origin (riders (doctest_world [0%nat; 1%nat] [])
                                    !!! 0%nat)))
            (avail_dr (dispatcher (doctest_world [0%nat; 1%nat] [])))).
  { repeat constructor.
    - exists (mkLocation 0 0). repeat split; vm_compute; reflexivity.
    - exists (mkLocation 10 10). repeat split; vm_compute; reflexivity. }
  split; [exact H1|]. split; [exact H2|].
  exact (X28_request_driver_nearest 0%nat (doctest_world [0%nat; 1%nat] [])
           H1 H2).
Defined.

(** * Exceptions of travel times in [request_driver] *)

(** The loop raises the exception of the first driver whose travel time
    raises. *)
Lemma request_driver_loop_raises (origin : Location) (w : World)
    (ds : list nat) :
  forall (i d : nat) (e : exn),
  ds !! i = Some d ->
  get_travel_time (drivers w !!! d) (Some origin) = Raise e ->
  (forall j d', (j < i)%nat -> ds !! j = Some d' ->
     is_Ret (get_travel_time (drivers w !!! d') (Some origin)) = true) ->
  forall fastest shortest,
  request_driver_loop origin ds fastest shortest w = (Raise e, w).
Proof.
  induction ds as [|x rest IH]; intros i d e Hi Hd Hbefore fastest shortest.
  - discriminate.
  - destruct i as [|i].
    + inversion Hi; subst x. simpl.
      unfold bind at 1 2, get_driver, lift at 1. rewrite Hd. reflexivity.
    + specialize (Hbefore 0%nat x ltac:(lia) eq_refl) as Hx.
      destruct (get_travel_time (drivers w !!! x) (Some origin))
        as [t|e'] eqn:Ht; [|discriminate].
      assert (Hrest : forall f s,
                request_driver_loop origin rest f s w = (Raise e, w)).
      { apply (IH i d e Hi Hd). intros j d' Hj Hd'.
        apply (Hbefore (S j) d'); [lia|exact Hd']. }
      simpl. unfold bind at 1 2, get_driver, lift at 1. rewrite Ht.
      destruct (t <? shortest).
      * unfold bind at 1 2, lift at 1. rewrite Ht. apply Hrest.
      * apply Hrest.
Qed.

(** X29: with two or more idle drivers, [request_driver] passes on the
    exception of the first idle driver, in the order of the pool, whose
    travel time to the rider's origin raises, and changes nothing: no driver
    is removed from the pool and the rider is not enqueued. *)
Theorem X29_request_driver_raises (rider : nat) (w : World) (i d : nat)
    (e : exn) :
  let avail := avail_dr (dispatcher w) in
  let origin := rd_origin (riders w !!! rider) in
  (2 <= length avail)%nat ->
  avail !! i = Some d ->
  get_travel_time (drivers w !!! d) (Some origin) = Raise e ->
  (forall j d', (j < i)%nat -> avail !! j = Some d' ->
     is_Ret (get_travel_time (drivers w !!! d') (Some origin)) = true) ->
  request_driver rider w = (Raise e, w).
Proof.
  intros avail origin Hlen Hi Hd Hbefore.
  rewrite request_driver_unfold. fold avail.
  destruct avail as [|d0 [|d1 rest]] eqn:Havail; simpl in Hlen; try lia.
  cbv zeta. fold origin.
  destruct i as [|i].
  - inversion Hi; subst d0. rewrite Hd. reflexivity.
  - specialize (Hbefore 0%nat d0 ltac:(lia) eq_refl) as H0.
    destruct (get_travel_time (drivers w !!! d0) (Some origin))
      as [t0|e0] eqn:Ht0; [|discriminate].
    rewrite (request_driver_loop_raises origin w (d0 :: d1 :: rest)
               (S i) d e Hi Hd Hbefore d0 t0).
    reflexivity.
Qed.

Lemma X29_witness :
  (2 <= length (avail_dr (dispatcher stalled_world)))%nat
  /\ avail_dr (dispatcher stalled_world) !! 1%nat = Some 1%nat
  /\ get_travel_time (drivers stalled_world !!! 1%nat)
       (Some (rd_origin (riders stalled_world !!! 0%nat)))
     = Raise ZeroDivisionError
  /\ request_driver 0%nat stalled_world
     = (Raise ZeroDivisionError, stalled_world).
Proof.
  assert (H1 : (2 <= length (avail_dr (dispatcher stalled_world)))%nat)
    by (simpl; lia).
  assert (H2 : avail_dr (dispatcher stalled_world) !! 1%nat = Some 1%nat)
    by reflexivity.
  assert (H3 : get_travel_time (drivers stalled_world !!! 1%nat)
                 (Some (rd_origin (riders stalled_world !!! 0%nat)))
               = Raise ZeroDivisionError) by (vm_compute; reflexivity).
  split; [exact H1|]. split; [exact H2|]. split; [exact H3|].
  apply (X29_request_driver_raises 0%nat stalled_world 1%nat 1%nat
           ZeroDivisionError H1 H2 H3).
  intros j d' Hj Hd'. destruct j as [|j]; [|lia].
  inversion Hd'; subst d'. vm_compute. reflexivity.
Defined.
